(** * Minesweeper rules engine: a shallow embedding of [components.py]

    The Python module defines [CellState], [Cell] and [Board].  Python
    integers are unbounded, so they are modelled by [Z]; the list of cells
    is a [list Cell] indexed the way Python indexes lists (negative
    indices wrap, anything else out of range raises [IndexError]); the
    [visited] set and the [forbidden] set are finite sets of coordinates;
    the [deque] is a list popped at its head and extended at its tail.
    Methods mutate the board in place: here they take the board and
    return the new one, inside an error monad. *)

From stdpp Require Import base numbers list sets gmap.

#[local] Set Warnings "-clear-no-such-hyp".

Local Open Scope Z_scope.

(** ** Outcomes of a method call *)

(** [IndexError] is what Python raises on a list index out of range.
    [InvalidConfiguration] is the error the specification names for a
    rejected construction; no statement of the source raises it.
    [OutOfFuel] is not a Python exception: it marks a loop of the model
    that ran out of its iteration budget. *)
Inductive error : Set := IndexError | InvalidConfiguration | OutOfFuel.

Inductive result (A : Type) : Type :=
| Ok (a : A)
| Raise (e : error).
Arguments Ok {A} a.
Arguments Raise {A} e.

Definition bind {A B} (m : result A) (k : A → result B) : result B :=
  match m with
  | Ok a => k a
  | Raise e => Raise e
  end.

Notation "x ←! m ; k" := (bind m (λ x, k))
  (at level 20, m at level 100, k at level 200, right associativity,
   format "x  ←!  m ;  '/' k").

(** A [for] loop whose body may raise. *)
Fixpoint for_each {A S} (body : S → A → result S) (xs : list A) (s : S) : result S :=
  match xs with
  | [] => Ok s
  | x :: xs' => s' ←! body s x; for_each body xs' s'
  end.

(** ** Python lists *)

(** The position Python reads for [l[i]]: [i] itself when
    [0 <= i < len l], [len l + i] when [-len l <= i < 0]. *)
Definition py_index {A} (l : list A) (i : Z) : result nat :=
  let n := Z.of_nat (length l) in
  if bool_decide (0 ≤ i < n) then Ok (Z.to_nat i)
  else if bool_decide (- n ≤ i < 0) then Ok (Z.to_nat (n + i))
  else Raise IndexError.

(** [l[i]] *)
Definition py_get {A} (l : list A) (i : Z) : result A :=
  k ←! py_index l i;
  match l !! k with
  | Some x => Ok x
  | None => Raise IndexError
  end.

(** [l[i].field = v], written as the update [f] of the object at [l[i]]. *)
Definition py_update {A} (f : A → A) (l : list A) (i : Z) : result (list A) :=
  k ←! py_index l i; Ok (alter f k l).

(** [l[:n]] *)
Definition py_slice_to {A} (l : list A) (n : Z) : list A :=
  if bool_decide (0 ≤ n) then take (Z.to_nat n) l
  else take (Z.to_nat (Z.of_nat (length l) + n)) l.

(** [range(n)] *)
Definition range (n : Z) : list Z := seqZ 0 n.

(** ** Data model *)

Record CellState : Set := mkCellState {
  is_mine : bool;
  is_revealed : bool;
  is_flagged : bool;
  adjacent : Z;
}.

Record Cell : Set := mkCell {
  col : Z;
  row : Z;
  state : CellState;
}.

Record Board : Set := mkBoard {
  cols : Z;
  rows : Z;
  num_mines : Z;
  cells : list Cell;
  _mines_placed : bool;
  revealed_count : Z;
  game_over : bool;
  win : bool;
}.

Abbreviation pos := (Z * Z)%type.

(** Field assignments. *)
Definition set_is_mine (v : bool) (c : Cell) : Cell :=
  mkCell (col c) (row c)
    (mkCellState v (is_revealed (state c)) (is_flagged (state c)) (adjacent (state c))).

Definition set_is_revealed (v : bool) (c : Cell) : Cell :=
  mkCell (col c) (row c)
    (mkCellState (is_mine (state c)) v (is_flagged (state c)) (adjacent (state c))).

Definition set_adjacent (v : Z) (c : Cell) : Cell :=
  mkCell (col c) (row c)
    (mkCellState (is_mine (state c)) (is_revealed (state c)) (is_flagged (state c)) v).

Definition set_cells (cs : list Cell) (b : Board) : Board :=
  mkBoard (cols b) (rows b) (num_mines b) cs (_mines_placed b)
    (revealed_count b) (game_over b) (win b).

Definition set_mines_placed (v : bool) (b : Board) : Board :=
  mkBoard (cols b) (rows b) (num_mines b) (cells b) v
    (revealed_count b) (game_over b) (win b).

Definition set_revealed_count (v : Z) (b : Board) : Board :=
  mkBoard (cols b) (rows b) (num_mines b) (cells b) (_mines_placed b)
    v (game_over b) (win b).

Definition set_game_over (v : bool) (b : Board) : Board :=
  mkBoard (cols b) (rows b) (num_mines b) (cells b) (_mines_placed b)
    (revealed_count b) v (win b).

Definition set_win (v : bool) (b : Board) : Board :=
  mkBoard (cols b) (rows b) (num_mines b) (cells b) (_mines_placed b)
    (revealed_count b) (game_over b) v.

(** ** Construction *)

(** [[(c, r) for r in range(rows) for c in range(cols)]] *)
Definition grid (ncols nrows : Z) : list pos :=
  r ← range nrows; c ← range ncols; [(c, r)].

(** [Cell(col, row)]: a cell with a default [CellState()]. *)
Definition Cell_init (c r : Z) : Cell :=
  mkCell c r (mkCellState false false false 0).

(** [Board.__init__]: no argument is checked. *)
Definition Board_init (ncols nrows mines : Z) : Board :=
  mkBoard ncols nrows mines
    ((λ p, Cell_init p.1 p.2) <$> grid ncols nrows)
    false 0 false false.

(** A constructor call [Board(cols, rows, mines)]: it returns the object
    [__init__] has filled in, and [__init__] has no [raise]. *)
Definition Board_new (ncols nrows mines : Z) : result Board :=
  Ok (Board_init ncols nrows mines).

(** ** Coordinates *)

Definition index (b : Board) (c r : Z) : Z := r * cols b + c.

Definition is_inbounds (b : Board) (c r : Z) : bool :=
  bool_decide (0 ≤ c < cols b) && bool_decide (0 ≤ r < rows b).

Definition deltas : list pos :=
  [ (-1, -1); (0, -1); (1, -1);
    (-1, 0);           (1, 0);
    (-1, 1);  (0, 1);  (1, 1) ].

Definition neighbors (b : Board) (c r : Z) : list pos :=
  filter (λ p, is_inbounds b p.1 p.2 = true)
         ((λ d, (c + d.1, r + d.2)) <$> deltas).

(** ** Mine placement, reveal, flags *)

Section Game.

(** [random.shuffle] belongs to Python's library.  It is a parameter of
    the model: [shuffle l] is the order in which the call leaves [l]. *)
Variable shuffle : list pos → list pos.

(** The counting loop of [place_mines]: the number of mines among the
    neighbours of one cell. *)
Definition count_adjacent_mines (b : Board) (cs : list Cell) (c r : Z) : result Z :=
  for_each
    (λ adjacent_mines p,
       ncell ←! py_get cs (index b p.1 p.2);
       Ok (if is_mine (state ncell) then adjacent_mines + 1 else adjacent_mines))
    (neighbors b c r) 0.

(** [place_mines].  The two nested [for r ... for c ...] loops of the
    adjacency pass visit the coordinates in the order of
    [[(c, r) for r in range(rows) for c in range(cols)]], that is, of
    [grid]. *)
Definition place_mines (b : Board) (safe_col safe_row : Z) : result Board :=
  let all_positions := grid (cols b) (rows b) in
  let forbidden : gset pos :=
    {[ (safe_col, safe_row) ]} ∪ list_to_set (neighbors b safe_col safe_row) in
  let pool := filter (λ p, p ∉ forbidden) all_positions in
  let pool := shuffle pool in
  let mine_positions := py_slice_to pool (num_mines b) in
  cs ←! for_each
          (λ cs p, py_update (set_is_mine true) cs (index b p.1 p.2))
          mine_positions (cells b);
  cs ←! for_each
          (λ cs p,
             let idx := index b p.1 p.2 in
             cell ←! py_get cs idx;
             if negb (is_mine (state cell)) then
               adjacent_mines ←! count_adjacent_mines b cs p.1 p.2;
               py_update (set_adjacent adjacent_mines) cs idx
             else Ok cs)
          (grid (cols b) (rows b)) cs;
  Ok (set_mines_placed true (set_cells cs b)).

(** [_reveal_all_mines] *)
Definition _reveal_all_mines (b : Board) : Board :=
  set_cells
    ((λ cell, if is_mine (state cell) then set_is_revealed true cell else cell)
       <$> cells b) b.

(** [_check_win] *)
Definition _check_win (b : Board) : Board :=
  let total_cells := cols b * rows b in
  if bool_decide (revealed_count b = total_cells - num_mines b)
     && negb (game_over b)
  then
    set_cells
      ((λ cell,
          if negb (is_revealed (state cell)) && negb (is_mine (state cell))
          then set_is_revealed true cell else cell)
         <$> cells b)
      (set_win true b)
  else b.

(** The [while queue:] loop of [reveal].  [fuel] bounds the number of
    iterations; [flood_fill_total] below shows that the budget [reveal]
    passes is never exhausted. *)
Fixpoint flood_fill (fuel : nat) (b : Board) (queue : list pos)
    (visited : gset pos) : result Board :=
  match queue with
  | [] => Ok b
  | (c, r) :: queue =>
    match fuel with
    | O => Raise OutOfFuel
    | S fuel =>
      if bool_decide ((c, r) ∈ visited) then flood_fill fuel b queue visited
      else
        let visited := {[ (c, r) ]} ∪ visited in
        let idx := index b c r in
        current_cell ←! py_get (cells b) idx;
        if is_revealed (state current_cell) || is_flagged (state current_cell)
        then flood_fill fuel b queue visited
        else if is_mine (state current_cell)
        then flood_fill fuel b queue visited
        else
          cs ←! py_update (set_is_revealed true) (cells b) idx;
          let b := set_revealed_count (revealed_count b + 1) (set_cells cs b) in
          if bool_decide (adjacent (state current_cell) = 0) then
            flood_fill fuel b
              (queue ++ filter (λ p, p ∉ visited) (neighbors b c r)) visited
          else flood_fill fuel b queue visited
    end
  end.

(** Every cell is visited once and queues at most eight others. *)
Definition flood_fuel (b : Board) : nat := (8 * length (cells b) + 1)%nat.

Definition reveal (b : Board) (c r : Z) : result Board :=
  if negb (is_inbounds b c r) then Ok b
  else
    b ←! (if negb (_mines_placed b) then place_mines b c r else Ok b);
    cell ←! py_get (cells b) (index b c r);
    if is_revealed (state cell) || is_flagged (state cell) then Ok b
    else if is_mine (state cell) then
      Ok (_reveal_all_mines (set_game_over true b))
    else
      b ←! flood_fill (flood_fuel b) b [(c, r)] ∅;
      Ok (_check_win b).

(** [toggle_flag]: the body is [pass]. *)
Definition toggle_flag (b : Board) (c r : Z) : result Board := Ok b.

(** The value a Python call returns. *)
Inductive pyvalue : Set := PyNone | PyInt (n : Z).

(** [flagged_count]: the body is [pass], so the call returns [None]. *)
Definition flagged_count (b : Board) : result (Board * pyvalue) := Ok (b, PyNone).

(** The calls of the presentation layer, and a sequence of them. *)
Inductive call : Set :=
| Reveal (c r : Z)
| ToggleFlag (c r : Z).

Definition step (b : Board) (k : call) : result Board :=
  match k with
  | Reveal c r => reveal b c r
  | ToggleFlag c r => toggle_flag b c r
  end.

Definition run (b : Board) (ks : list call) : result Board := for_each step ks b.

(** The boards a caller reaches from [b0] when it stops calling once it
    sees [win]: every call is issued on a board whose [win] is false. *)
Inductive plays (b0 : Board) : Board → Prop :=
| plays_start : plays b0 b0
| plays_call b k b' :
    plays b0 b → win b = false → step b k = Ok b' → plays b0 b'.

End Game.

(** ** Vocabulary of the statements *)

(** The list position of the cell at coordinate [p], and that cell. *)
Definition loc (b : Board) (p : pos) : nat := Z.to_nat (index b p.1 p.2).

Definition cell_at (b : Board) (p : pos) : option Cell := cells b !! loc b p.

Definition inb (b : Board) (p : pos) : Prop := is_inbounds b p.1 p.2 = true.

(** The shape [__init__] gives the list of cells, kept by every method:
    one cell per coordinate. *)
Definition well_formed (b : Board) : Prop :=
  length (cells b) = (Z.to_nat (rows b) * Z.to_nat (cols b))%nat.

Definition countb {A} (f : A → bool) (l : list A) : nat :=
  length (filter (λ x, f x = true) l).

Definition mine_count (b : Board) : nat :=
  countb (λ c, is_mine (state c)) (cells b).

(** Where the mines are: the [is_mine] fields, cell by cell. *)
Definition mine_map (b : Board) : list bool :=
  (λ c, is_mine (state c)) <$> cells b.

(** Cells that count for [revealed_count]: revealed and not a mine. *)
Definition safe_revealed (c : Cell) : bool :=
  is_revealed (state c) && negb (is_mine (state c)).

(** The two counters of the board agree with its cells: [revealed_count]
    counts the revealed cells without a mine and [num_mines], unless it
    is negative, counts the mines. *)
Definition counters_agree (b : Board) : Prop :=
  revealed_count b = Z.of_nat (countb safe_revealed (cells b))
  ∧ (0 ≤ num_mines b → num_mines b = Z.of_nat (mine_count b)).

(** Every cell without a mine is revealed. *)
Definition all_safe_revealed (b : Board) : Prop :=
  ∀ cell, cell ∈ cells b → is_mine (state cell) = false →
          is_revealed (state cell) = true.

(** A board whose [win] flag is up shows every cell without a mine. *)
Definition won_complete (b : Board) : Prop :=
  win b = true → all_safe_revealed b.

(** What [reveal] leaves alone in a cell. *)
Definition cell_frame (c : Cell) : Z * Z * bool * bool * Z :=
  (col c, row c, is_mine (state c), is_flagged (state c), adjacent (state c)).

(** A cell the flood fill opens when it reaches it, and one from which
    it goes on. *)
Definition openb (b : Board) (p : pos) : bool :=
  match cell_at b p with
  | Some cell =>
      negb (is_revealed (state cell)) && negb (is_flagged (state cell))
      && negb (is_mine (state cell))
  | None => false
  end.

Definition zerob (b : Board) (p : pos) : bool :=
  match cell_at b p with
  | Some cell => openb b p && bool_decide (adjacent (state cell) = 0)
  | None => false
  end.

(** The connected region of zero-adjacency cells around the target [t],
    and its one-cell border. *)
Inductive region (b : Board) (t : pos) : pos → Prop :=
| region_start : zerob b t = true → region b t t
| region_step z p :
    region b t z → p ∈ neighbors b z.1 z.2 → zerob b p = true →
    region b t p.

Definition border (b : Board) (t p : pos) : Prop :=
  ∃ z, region b t z ∧ p ∈ neighbors b z.1 z.2.

(** The cells a flood fill from [t] opens: the target itself and every
    cell next to the region, when they are hidden, without a flag and
    without a mine. *)
Definition flooded (b : Board) (t p : pos) : Prop :=
  openb b p = true ∧ (p = t ∨ border b t p).

(** The cell at [p] is hidden in [b] and revealed in [b']. *)
Definition newly_revealed (b b' : Board) (p : pos) : Prop :=
  inb b p ∧
  ∃ c0 c1, cell_at b p = Some c0 ∧ cell_at b' p = Some c1
           ∧ is_revealed (state c0) = false ∧ is_revealed (state c1) = true.

(** How many cells are hidden in [b] and revealed in [b']. *)
Definition newly_revealed_count (b b' : Board) : nat :=
  countb (λ cc, negb (is_revealed (state cc.1)) && is_revealed (state cc.2))
         (zip (cells b) (cells b')).

(** Some cell without a mine is hidden in [b] and revealed in [b']. *)
Definition reveals_safe_cell (b b' : Board) : Prop :=
  ∃ k c0 c1, cells b !! k = Some c0 ∧ cells b' !! k = Some c1
             ∧ is_revealed (state c0) = false ∧ is_revealed (state c1) = true
             ∧ is_mine (state c1) = false.

(** The region and the border read without asking that their cells be
    hidden: zero-count cells without mine or flag, and the cells without
    mine or flag next to them. *)
Definition plain_free (b : Board) (p : pos) : bool :=
  match cell_at b p with
  | Some cell => negb (is_flagged (state cell)) && negb (is_mine (state cell))
  | None => false
  end.

Definition plain_zero (b : Board) (p : pos) : bool :=
  match cell_at b p with
  | Some cell => plain_free b p && bool_decide (adjacent (state cell) = 0)
  | None => false
  end.

Inductive plain_region (b : Board) (t : pos) : pos → Prop :=
| plain_region_start : plain_zero b t = true → plain_region b t t
| plain_region_step z p :
    plain_region b t z → p ∈ neighbors b z.1 z.2 → plain_zero b p = true →
    plain_region b t p.

Definition plain_border (b : Board) (t p : pos) : Prop :=
  ∃ z, plain_region b t z ∧ p ∈ neighbors b z.1 z.2 ∧ plain_free b p = true.

(** ** Example boards *)

Definition hidden (adj : Z) : CellState := mkCellState false false false adj.
Definition shown (adj : Z) : CellState := mkCellState false true false adj.
Definition mined : CellState := mkCellState true false false 0.

(** One row of cells, from column 0 on. *)
Definition row_cells (sts : list CellState) : list Cell :=
  imap (λ i st, mkCell (Z.of_nat i) 0 st) sts.

(** The board [Board(10, 1, 1)] after [reveal(0, 0)], when the shuffle
    leaves the pool in order: the mine is at (2,0), and (0,0) and (1,0)
    are revealed. *)
Definition row_board : Board :=
  mkBoard 10 1 1
    (row_cells [shown 0; shown 1; mined; hidden 1; hidden 0;
                hidden 0; hidden 0; hidden 0; hidden 0; hidden 0])
    true 2 false false.

(** * Proofs *)

(** ** The error monad *)

Lemma bind_Ok {A B} (m : result A) (k : A → result B) (y : B) :
  bind m k = Ok y → ∃ x, m = Ok x ∧ k x = Ok y.
Proof. destruct m as [x|e]; simpl; [eauto | discriminate]. Qed.

(** A loop whose body keeps an invariant, and cannot raise under it,
    returns a state that satisfies the invariant. *)
Lemma for_each_invariant {A S} (I : S → Prop) (body : S → A → result S)
    (P : A → Prop) xs s :
  (∀ s x, I s → P x → ∃ s', body s x = Ok s' ∧ I s') →
  Forall P xs → I s → ∃ s', for_each body xs s = Ok s' ∧ I s'.
Proof.
  intros Hbody Hxs. revert s.
  induction Hxs as [|x xs Hx _ IH]; intros s Hs; simpl; [eauto|].
  destruct (Hbody s x Hs Hx) as (s' & -> & Hs'). simpl. auto.
Qed.

(** ** Python list access *)

Lemma py_index_inrange {A} (l : list A) (i : Z) :
  0 ≤ i < Z.of_nat (length l) → py_index l i = Ok (Z.to_nat i).
Proof. intros H. unfold py_index. by rewrite bool_decide_eq_true_2. Qed.

Lemma py_get_inrange {A} (l : list A) (i : Z) x :
  0 ≤ i → l !! Z.to_nat i = Some x → py_get l i = Ok x.
Proof.
  intros Hi Hx. unfold py_get. rewrite py_index_inrange; simpl.
  - by rewrite Hx.
  - apply lookup_lt_Some in Hx. lia.
Qed.

Lemma py_update_inrange {A} (f : A → A) (l : list A) (i : Z) :
  0 ≤ i < Z.of_nat (length l) → py_update f l i = Ok (alter f (Z.to_nat i) l).
Proof. intros H. unfold py_update. by rewrite py_index_inrange. Qed.

Lemma py_slice_to_sublist {A} (l : list A) n : py_slice_to l n `sublist_of` l.
Proof. unfold py_slice_to. case_bool_decide; apply sublist_take. Qed.

Lemma py_slice_to_length {A} (l : list A) n :
  0 ≤ n ≤ Z.of_nat (length l) → length (py_slice_to l n) = Z.to_nat n.
Proof.
  intros H. unfold py_slice_to. rewrite bool_decide_eq_true_2 by lia.
  rewrite length_take. lia.
Qed.

(** ** Counting *)

Lemma countb_nil {A} (f : A → bool) : countb f [] = 0%nat.
Proof. done. Qed.

Lemma countb_cons {A} (f : A → bool) x l :
  countb f (x :: l) = ((if f x then 1 else 0) + countb f l)%nat.
Proof.
  unfold countb. rewrite filter_cons.
  destruct (f x); case_decide; simpl; congruence.
Qed.

Lemma countb_le_length {A} (f : A → bool) l : (countb f l ≤ length l)%nat.
Proof. apply length_filter. Qed.

(** Switching one element from outside to inside [f] adds one. *)
Lemma countb_alter_gain {A} (f : A → bool) (g : A → A) l k x :
  l !! k = Some x → f x = false → f (g x) = true →
  countb f (alter g k l) = S (countb f l).
Proof.
  revert k. induction l as [|y l IH]; intros [|k] Hk Hx Hg; try done.
  - injection Hk as ->. change (alter g 0%nat (x :: l)) with (g x :: l).
    by rewrite !countb_cons, Hx, Hg.
  - change (alter g (S k) (y :: l)) with (y :: alter g k l).
    rewrite !countb_cons, (IH k) by done. lia.
Qed.

(** An update that [f] does not see leaves the count as it is. *)
Lemma countb_alter_same {A} (f : A → bool) (g : A → A) l k :
  (∀ x, f (g x) = f x) → countb f (alter g k l) = countb f l.
Proof.
  intros Hg. revert k. induction l as [|y l IH]; intros [|k]; try done.
  - change (alter g 0%nat (y :: l)) with (g y :: l).
    by rewrite !countb_cons, Hg.
  - change (alter g (S k) (y :: l)) with (y :: alter g k l).
    by rewrite !countb_cons, IH.
Qed.

Lemma countb_fmap_same {A} (f : A → bool) (g : A → A) l :
  (∀ x, f (g x) = f x) → countb f (g <$> l) = countb f l.
Proof.
  intros Hg. induction l as [|y l IH]; [done|].
  rewrite fmap_cons. by rewrite !countb_cons, Hg, IH.
Qed.

Lemma countb_all_false {A} (f : A → bool) l :
  (∀ x, x ∈ l → f x = false) → countb f l = 0%nat.
Proof.
  induction l as [|y l IH]; intros H; [done|].
  rewrite countb_cons, H, IH; [done| |left]. intros x Hx. apply H. by right.
Qed.

(** When as many elements satisfy [f && g] as satisfy [g], every
    element that satisfies [g] satisfies [f]. *)
Lemma countb_full {A} (f g : A → bool) l :
  countb (λ x, f x && g x) l = countb g l →
  ∀ x, x ∈ l → g x = true → f x = true.
Proof.
  assert (Hle : ∀ l, (countb (λ x, f x && g x) l ≤ countb g l)%nat).
  { clear. induction l as [|y l IH]; [done|]. rewrite !countb_cons.
    destruct (f y), (g y); simpl; lia. }
  induction l as [|y l IH]; intros Heq x Hx Hg; [by apply elem_of_nil in Hx|].
  rewrite !countb_cons in Heq. specialize (Hle l).
  apply elem_of_cons in Hx as [->|Hx].
  - rewrite Hg in Heq. destruct (f y); [done|]. simpl in Heq. lia.
  - apply IH; [|done|done]. destruct (f y), (g y); simpl in Heq; lia.
Qed.

Lemma countb_complement {A} (f : A → bool) l :
  (countb f l + countb (λ x, negb (f x)) l = length l)%nat.
Proof.
  induction l as [|y l IH]; [done|]. rewrite !countb_cons. simpl.
  destruct (f y); simpl; lia.
Qed.

(** ** Coordinates and the flattened grid *)

Lemma elem_of_grid ncols nrows (p : pos) :
  p ∈ grid ncols nrows ↔ 0 ≤ p.1 < ncols ∧ 0 ≤ p.2 < nrows.
Proof.
  unfold grid, range. rewrite list_elem_of_bind. split.
  - intros (r & (c & ->%list_elem_of_singleton & Hc%elem_of_seqZ)%list_elem_of_bind
              & Hr%elem_of_seqZ).
    simpl. lia.
  - intros [Hc Hr]. exists p.2. rewrite elem_of_seqZ. split; [|lia].
    apply list_elem_of_bind. exists p.1. rewrite elem_of_seqZ.
    split; [|lia]. destruct p. by apply list_elem_of_singleton.
Qed.

Lemma NoDup_grid ncols nrows : NoDup (grid ncols nrows).
Proof.
  unfold grid, range. apply NoDup_bind; [| |apply NoDup_seqZ].
  - intros r1 r2 p _ _
      (c1 & ->%list_elem_of_singleton & _)%list_elem_of_bind
      (c2 & [= _ ->]%list_elem_of_singleton & _)%list_elem_of_bind.
    done.
  - intros r _. apply NoDup_bind; [| |apply NoDup_seqZ].
    + intros c1 c2 p _ _ ->%list_elem_of_singleton [= ->]%list_elem_of_singleton.
      done.
    + intros c _. apply NoDup_singleton.
Qed.

Lemma length_bind_const {A B} (f : A → list B) (l : list A) (k : nat) :
  (∀ x, length (f x) = k) → length (l ≫= f) = (length l * k)%nat.
Proof.
  intros Hf. induction l as [|x l IH]; [done|].
  rewrite bind_cons, length_app, Hf, IH. simpl. lia.
Qed.

Lemma length_grid ncols nrows :
  length (grid ncols nrows) = (Z.to_nat nrows * Z.to_nat ncols)%nat.
Proof.
  unfold grid, range.
  rewrite (length_bind_const _ _ (Z.to_nat ncols)), length_seqZ; [done|].
  intros r. rewrite (length_bind_const _ _ 1%nat), length_seqZ; [lia|done].
Qed.

Lemma inb_iff b (p : pos) :
  inb b p ↔ 0 ≤ p.1 < cols b ∧ 0 ≤ p.2 < rows b.
Proof.
  unfold inb, is_inbounds.
  rewrite andb_true_iff, !bool_decide_eq_true. done.
Qed.

Lemma inb_grid b p : inb b p ↔ p ∈ grid (cols b) (rows b).
Proof. by rewrite inb_iff, elem_of_grid. Qed.

Lemma Board_init_well_formed ncols nrows mines :
  well_formed (Board_init ncols nrows mines).
Proof. unfold well_formed. simpl. by rewrite length_fmap, length_grid. Qed.

Section Coordinates.

Variable b : Board.
Hypothesis Hwf : well_formed b.

Lemma index_range p :
  inb b p → 0 ≤ index b p.1 p.2 < Z.of_nat (length (cells b)).
Proof.
  intros [Hc Hr]%inb_iff. rewrite Hwf. unfold index. nia.
Qed.

Lemma loc_inj p q : inb b p → inb b q → loc b p = loc b q → p = q.
Proof.
  intros [Hpc Hpr]%inb_iff [Hqc Hqr]%inb_iff Heq.
  unfold loc, index in Heq. destruct p as [pc pr], q as [qc qr]; simpl in *.
  assert (pr * cols b + pc = qr * cols b + qc) as Hz by nia.
  assert (pr = qr) by nia. subst. f_equal. lia.
Qed.

Lemma cell_at_is_Some p : inb b p → is_Some (cell_at b p).
Proof.
  intros Hp. apply lookup_lt_is_Some. unfold loc.
  pose proof (index_range p Hp). lia.
Qed.

Lemma py_get_cell p cell :
  inb b p → cell_at b p = Some cell →
  py_get (cells b) (index b p.1 p.2) = Ok cell.
Proof.
  intros Hp Hcell. apply py_get_inrange; [|done].
  pose proof (index_range p Hp). lia.
Qed.

Lemma py_update_cell f p :
  inb b p →
  py_update f (cells b) (index b p.1 p.2) = Ok (alter f (loc b p) (cells b)).
Proof. intros Hp. by apply py_update_inrange, index_range. Qed.

End Coordinates.

(** Every cell of the list is the cell of a coordinate of the board. *)
Lemma loc_surj b k :
  well_formed b → (k < length (cells b))%nat → ∃ p, inb b p ∧ loc b p = k.
Proof.
  intros Hwf Hk. rewrite Hwf in Hk.
  assert (0 < cols b ∧ 0 < rows b) as [Hcols Hrows] by nia.
  exists (Z.of_nat k `mod` cols b, Z.of_nat k `div` cols b). split.
  - apply inb_iff. simpl.
    pose proof (Z.mod_pos_bound (Z.of_nat k) (cols b) Hcols).
    split; [done|]. split; [apply Z.div_pos; lia|].
    apply Z.div_lt_upper_bound; [done|]. nia.
  - unfold loc, index. simpl.
    pose proof (Z.div_mod (Z.of_nat k) (cols b)). lia.
Qed.

Lemma neighbors_inb b c r p : p ∈ neighbors b c r → inb b p.
Proof. unfold neighbors. by intros [? _]%list_elem_of_filter. Qed.

Lemma neighbors_length b c r : (length (neighbors b c r) ≤ 8)%nat.
Proof.
  unfold neighbors. etrans; [apply length_filter|]. by rewrite length_fmap.
Qed.

(** ** Updates of one cell *)

Lemma fmap_alter_same {A B} (f : A → B) (g : A → A) (l : list A) (k : nat) :
  (∀ x, f (g x) = f x) → f <$> alter g k l = f <$> l.
Proof.
  intros Hg. apply list_eq. intros i. rewrite !list_lookup_fmap.
  destruct (decide (k = i)) as [->|Hne].
  - rewrite list_lookup_alter_eq. destruct (l !! i); simpl; by rewrite ?Hg.
  - by rewrite list_lookup_alter_ne.
Qed.

Lemma zip_alter_r {A B} (g : B → B) (l : list A) (k : list B) i :
  zip l (alter g i k) = alter (λ xy, (xy.1, g xy.2)) i (zip l k).
Proof.
  revert k i. induction l as [|x l IH]; intros [|y k] [|i]; try done.
  change (alter g (S i) (y :: k)) with (y :: alter g i k).
  simpl. f_equal. apply IH.
Qed.

Lemma loc_same_cols b b' p : cols b = cols b' → loc b p = loc b' p.
Proof. unfold loc, index. by intros ->. Qed.

Lemma neighbors_same_dims b b' c r :
  cols b = cols b' → rows b = rows b' → neighbors b c r = neighbors b' c r.
Proof. unfold neighbors, is_inbounds. by intros -> ->. Qed.

Lemma inb_same_dims b b' p :
  cols b = cols b' → rows b = rows b' → inb b p ↔ inb b' p.
Proof. unfold inb, is_inbounds. by intros -> ->. Qed.

Lemma openb_cell b p cell :
  cell_at b p = Some cell →
  openb b p = negb (is_revealed (state cell) || is_flagged (state cell))
              && negb (is_mine (state cell)).
Proof. intros H. unfold openb. rewrite H. by rewrite negb_orb. Qed.

Lemma zerob_cell b p cell :
  cell_at b p = Some cell →
  zerob b p = openb b p && bool_decide (adjacent (state cell) = 0).
Proof. intros H. unfold zerob. by rewrite H. Qed.

Lemma zerob_openb b p : zerob b p = true → openb b p = true.
Proof.
  unfold zerob. destruct (cell_at b p); [|done]. by intros [? _]%andb_true_iff.
Qed.

Lemma region_zerob b t z : region b t z → zerob b z = true.
Proof. by destruct 1. Qed.

(** ** The flood fill *)

Section Flood.

Variable b0 : Board.
Variable t : pos.
Hypothesis Hwf0 : well_formed b0.

(** What holds of the board, the queue and the visited set whenever the
    loop tests its condition. *)
Record flood_inv (b : Board) (queue : list pos) (visited : gset pos) : Prop := {
  fi_cols : cols b = cols b0;
  fi_rows : rows b = rows b0;
  fi_mines : num_mines b = num_mines b0;
  fi_placed : _mines_placed b = _mines_placed b0;
  fi_over : game_over b = game_over b0;
  fi_win : win b = win b0;
  fi_length : length (cells b) = length (cells b0);
  fi_frame : cell_frame <$> cells b = cell_frame <$> cells b0;
  fi_cells : ∀ p, inb b0 p →
    cell_at b p =
      if bool_decide (p ∈ visited) && openb b0 p
      then set_is_revealed true <$> cell_at b0 p else cell_at b0 p;
  fi_reached : ∀ p, p ∈ queue ∨ p ∈ visited →
    inb b0 p ∧ (p = t ∨ border b0 t p);
  fi_start : t ∈ visited ∨ t ∈ queue;
  fi_closed : ∀ z n, z ∈ visited → zerob b0 z = true →
    n ∈ neighbors b0 z.1 z.2 → n ∈ visited ∨ n ∈ queue;
  fi_count :
    revealed_count b = revealed_count b0 + Z.of_nat (newly_revealed_count b0 b);
  fi_safe :
    countb safe_revealed (cells b)
    = (countb safe_revealed (cells b0) + newly_revealed_count b0 b)%nat;
}.

Lemma flood_inv_well_formed b q v : flood_inv b q v → well_formed b.
Proof.
  intros H. unfold well_formed.
  by rewrite (fi_length _ _ _ H), (fi_cols _ _ _ H), (fi_rows _ _ _ H).
Qed.

Lemma newly_revealed_count_same b : newly_revealed_count b b = 0%nat.
Proof.
  unfold newly_revealed_count. induction (cells b) as [|c l IH]; [done|].
  simpl. rewrite countb_cons, IH. simpl. by destruct (is_revealed (state c)).
Qed.

Lemma flood_inv_start :
  inb b0 t → flood_inv b0 [t] ∅.
Proof.
  intros Ht. split; try done.
  - intros p [->%list_elem_of_singleton|Hp]; [auto|set_solver].
  - right. by apply list_elem_of_singleton.
  - rewrite newly_revealed_count_same. lia.
  - rewrite newly_revealed_count_same. lia.
Qed.

Lemma flood_inv_skip_visited b p q v :
  flood_inv b (p :: q) v → p ∈ v → flood_inv b q v.
Proof.
  intros [] Hp. split; try done.
  - intros p' Hp'. apply fi_reached0. set_solver.
  - destruct fi_start0 as [|[->|]%elem_of_cons]; auto.
  - intros z n Hz Hzero Hn.
    destruct (fi_closed0 z n Hz Hzero Hn) as [|[->|]%elem_of_cons]; auto.
Qed.

Lemma flood_inv_skip_closed b p q v :
  flood_inv b (p :: q) v → p ∉ v → openb b0 p = false →
  flood_inv b q ({[p]} ∪ v).
Proof.
  intros [] Hp Hclosed. split; try done.
  - intros p' Hp'. rewrite fi_cells0 by done.
    destruct (decide (p' = p)) as [->|Hne].
    + by rewrite Hclosed, !andb_false_r.
    + by rewrite (bool_decide_ext (p' ∈ {[p]} ∪ v) (p' ∈ v)) by set_solver.
  - intros p' Hp'. apply fi_reached0. set_solver.
  - destruct fi_start0 as [|[->|]%elem_of_cons]; set_solver.
  - intros z n [->%elem_of_singleton|Hz]%elem_of_union Hzero Hn.
    + apply zerob_openb in Hzero. congruence.
    + destruct (fi_closed0 z n Hz Hzero Hn) as [|[->|]%elem_of_cons];
        set_solver.
Qed.

Lemma flood_inv_open b p q v cell :
  flood_inv b (p :: q) v → p ∉ v →
  cell_at b0 p = Some cell → openb b0 p = true →
  flood_inv
    (set_revealed_count (revealed_count b + 1)
       (set_cells (alter (set_is_revealed true) (loc b p) (cells b)) b))
    (q ++ (if bool_decide (adjacent (state cell) = 0)
           then filter (λ n, n ∉ {[p]} ∪ v) (neighbors b p.1 p.2) else []))
    ({[p]} ∪ v).
Proof.
  intros Hinv Hp Hcell Hopen. pose proof Hinv as [].
  assert (inb b0 p) as Hinb by (apply fi_reached0; left; left).
  assert (cell_at b p = Some cell) as Hcellb.
  { rewrite fi_cells0 by done. by rewrite bool_decide_eq_false_2. }
  assert (is_revealed (state cell) = false ∧ is_mine (state cell) = false)
    as [Hrev Hmine].
  { rewrite (openb_cell _ _ _ Hcell) in Hopen.
    destruct (is_revealed (state cell)), (is_mine (state cell)),
      (is_flagged (state cell)); naive_solver. }
  assert (neighbors b p.1 p.2 = neighbors b0 p.1 p.2) as Hnb
    by by apply neighbors_same_dims.
  assert ((zip (cells b0) (cells b)) !! loc b p = Some (cell, cell)) as Hzip.
  { apply lookup_zip_with_Some. exists cell, cell. split_and!; [done| |done].
    by rewrite (loc_same_cols b b0). }
  split; simpl; try done.
  - by rewrite length_alter.
  - by rewrite fmap_alter_same.
  - intros p' Hp'. unfold cell_at at 1. simpl.
    rewrite (loc_same_cols _ b) by done.
    destruct (decide (p' = p)) as [->|Hne].
    + rewrite list_lookup_alter_eq, bool_decide_eq_true_2, Hopen by set_solver.
      simpl. fold (cell_at b p). by rewrite Hcellb, Hcell.
    + rewrite list_lookup_alter_ne.
      * fold (cell_at b p'). rewrite fi_cells0 by done.
        by rewrite (bool_decide_ext (p' ∈ {[p]} ∪ v) (p' ∈ v)) by set_solver.
      * rewrite !(loc_same_cols b b0) by done. intros Heq.
        by apply Hne, (loc_inj b0).
  - intros p' [[Hq|Hnew]%elem_of_app|Hv].
    + apply fi_reached0. set_solver.
    + case_bool_decide as Hadj; [|by apply elem_of_nil in Hnew].
      apply list_elem_of_filter in Hnew as [_ Hnew]. rewrite Hnb in Hnew.
      split; [by eapply neighbors_inb|]. right. exists p. split; [|done].
      assert (zerob b0 p = true) as Hzero.
      { rewrite (zerob_cell _ _ _ Hcell), Hopen. by apply bool_decide_eq_true. }
      destruct (fi_reached0 p) as [_ [->|(z & Hz & Hpz)]]; [by left; left| |].
      * by apply region_start.
      * by apply region_step with z.
    + apply fi_reached0. set_solver.
  - destruct fi_start0 as [|[->|]%elem_of_cons]; set_solver.
  - intros z n [->%elem_of_singleton|Hz]%elem_of_union Hzero Hn.
    + rewrite (zerob_cell _ _ _ Hcell) in Hzero.
      apply andb_true_iff in Hzero as [_ Hadj]. rewrite Hadj, Hnb.
      destruct (decide (n ∈ {[p]} ∪ v)) as [|Hnv]; [by left|right].
      apply elem_of_app. right. by apply list_elem_of_filter.
    + destruct (fi_closed0 z n Hz Hzero Hn) as [|[->|]%elem_of_cons];
        set_solver.
  - unfold newly_revealed_count at 1. simpl. rewrite zip_alter_r.
    erewrite countb_alter_gain; [| done | simpl.. ].
    + fold (newly_revealed_count b0 b). lia.
    + by rewrite Hrev.
    + by rewrite Hrev.
  - unfold newly_revealed_count at 1. simpl. rewrite zip_alter_r.
    erewrite (countb_alter_gain safe_revealed); [| done | unfold safe_revealed; simpl..].
    + erewrite countb_alter_gain; [| done | simpl.. ].
      * fold (newly_revealed_count b0 b). lia.
      * by rewrite Hrev.
      * by rewrite Hrev.
    + by rewrite Hrev.
    + by rewrite Hmine.
Qed.

(** The loop ends within its budget, in a state where the queue is
    empty and the invariant holds. *)
Lemma flood_fill_spec fuel b q v :
  flood_inv b q v →
  (8 * size (list_to_set (grid (cols b0) (rows b0)) ∖ v : gset pos) + length q
   ≤ fuel)%nat →
  ∃ b' v', flood_fill fuel b q v = Ok b' ∧ flood_inv b' [] v'.
Proof.
  revert b q v. induction fuel as [|fuel IH]; intros b q v Hinv Hfuel.
  { destruct q as [|[c r] q]; simpl in *; [eauto|lia]. }
  destruct q as [|[c r] q]; [simpl; eauto|].
  cbn [flood_fill]. cbn [length] in Hfuel. case_bool_decide as Hv.
  { apply IH; [by eapply flood_inv_skip_visited|lia]. }
  set (p := (c, r)) in *.
  assert (inb b0 p) as Hinb by (apply (fi_reached _ _ _ Hinv); left; left).
  assert (inb b p) as Hinb'.
  { eapply inb_same_dims; [apply (fi_cols _ _ _ Hinv)|apply (fi_rows _ _ _ Hinv)|done]. }
  destruct (cell_at_is_Some b0 Hwf0 p Hinb) as [cell Hcell].
  assert (cell_at b p = Some cell) as Hcellb.
  { rewrite (fi_cells _ _ _ Hinv) by done. by rewrite bool_decide_eq_false_2. }
  pose proof (flood_inv_well_formed _ _ _ Hinv) as Hwf.
  change (index b c r) with (index b p.1 p.2).
  rewrite (py_get_cell b Hwf p cell Hinb' Hcellb). simpl bind.
  assert (size (list_to_set (grid (cols b0) (rows b0)) ∖ ({[p]} ∪ v) : gset pos)
          < size (list_to_set (grid (cols b0) (rows b0)) ∖ v : gset pos))%nat
    as Hsize.
  { apply subset_size. apply inb_grid in Hinb.
    apply (elem_of_list_to_set (C:=gset pos)) in Hinb. set_solver. }
  pose proof (openb_cell _ _ _ Hcell) as Hopen.
  destruct (is_revealed (state cell) || is_flagged (state cell)) eqn:Hrf.
  { apply IH; [by apply flood_inv_skip_closed|lia]. }
  destruct (is_mine (state cell)) eqn:Hmine.
  { apply IH; [by apply flood_inv_skip_closed|lia]. }
  rewrite (py_update_cell b Hwf _ p Hinb'). simpl bind.
  pose proof (flood_inv_open b p q v cell Hinv Hv Hcell Hopen) as Hnext.
  case_bool_decide as Hadj.
  - apply IH; [done|]. rewrite length_app.
    rewrite (neighbors_same_dims _ b c r) by done.
    pose proof (length_filter (λ n, n ∉ {[p]} ∪ v) (neighbors b c r)).
    pose proof (neighbors_length b c r). lia.
  - rewrite app_nil_r in Hnext. apply IH; [done|lia].
Qed.

(** From the target, the loop ends in a state that the invariant
    describes with an empty queue. *)
Lemma flood_fill_total :
  inb b0 t →
  ∃ b' v', flood_fill (flood_fuel b0) b0 [t] ∅ = Ok b' ∧ flood_inv b' [] v'.
Proof.
  intros Ht. apply flood_fill_spec; [by apply flood_inv_start|].
  unfold flood_fuel. rewrite difference_empty_L, size_list_to_set by apply NoDup_grid.
  rewrite length_grid, Hwf0. simpl. lia.
Qed.

(** What the loop has done when it ends. *)
Record flood_post (b' : Board) : Prop := {
  fp_cols : cols b' = cols b0;
  fp_rows : rows b' = rows b0;
  fp_mines : num_mines b' = num_mines b0;
  fp_placed : _mines_placed b' = _mines_placed b0;
  fp_over : game_over b' = game_over b0;
  fp_win : win b' = win b0;
  fp_length : length (cells b') = length (cells b0);
  fp_frame : cell_frame <$> cells b' = cell_frame <$> cells b0;
  fp_newly : ∀ p, newly_revealed b0 b' p ↔ flooded b0 t p;
  fp_count :
    revealed_count b' = revealed_count b0 + Z.of_nat (newly_revealed_count b0 b');
  fp_safe :
    countb safe_revealed (cells b')
    = (countb safe_revealed (cells b0) + newly_revealed_count b0 b')%nat;
}.

Lemma flood_inv_region b' v' z :
  flood_inv b' [] v' → region b0 t z → z ∈ v'.
Proof.
  intros Hinv. induction 1 as [Hzero|z p Hz IH Hp Hzero].
  - destruct (fi_start _ _ _ Hinv) as [|?%elem_of_nil]; done.
  - destruct (fi_closed _ _ _ Hinv z p IH (region_zerob _ _ _ Hz) Hp)
      as [|?%elem_of_nil]; done.
Qed.

Lemma flood_inv_post b' v' : flood_inv b' [] v' → flood_post b'.
Proof.
  intros Hinv. pose proof Hinv as []. split; try done.
  intros p. split.
  - intros (Hinb & c0 & c1 & Hc0 & Hc1 & Hr0 & Hr1).
    rewrite fi_cells0, Hc0 in Hc1 by done.
    destruct (bool_decide (p ∈ v') && openb b0 p) eqn:Hcond;
      [|congruence].
    apply andb_true_iff in Hcond as [Hv%bool_decide_eq_true Hopen].
    split; [done|]. apply fi_reached0. by right.
  - intros [Hopen Hreach].
    assert (p ∈ v') as Hv.
    { destruct Hreach as [->|(z & Hz & Hp)].
      + destruct fi_start0 as [|?%elem_of_nil]; done.
      + pose proof (flood_inv_region b' v' z Hinv Hz) as Hzv.
        destruct (fi_closed0 z p Hzv (region_zerob _ _ _ Hz) Hp)
          as [|?%elem_of_nil]; done. }
    assert (inb b0 p) as Hinb by (apply fi_reached0; by right).
    destruct (cell_at_is_Some b0 Hwf0 p Hinb) as [c0 Hc0].
    split; [done|]. exists c0, (set_is_revealed true c0).
    rewrite fi_cells0, Hc0, bool_decide_eq_true_2, Hopen by done.
    split_and!; try done.
    rewrite (openb_cell _ _ _ Hc0) in Hopen.
    by destruct (is_revealed (state c0)).
Qed.

(** Called on a cell of the board, the loop of [reveal] returns. *)
Lemma flood_fill_post :
  inb b0 t →
  ∃ b', flood_fill (flood_fuel b0) b0 [t] ∅ = Ok b' ∧ flood_post b'.
Proof.
  intros Ht. destruct (flood_fill_total Ht) as (b' & v' & Hrun & Hinv).
  eauto using flood_inv_post.
Qed.

End Flood.

(** ** Mine placement *)

(** What [place_mines] leaves alone in a cell. *)
Definition cell_keep (c : Cell) : Z * Z * bool * bool :=
  (col c, row c, is_revealed (state c), is_flagged (state c)).

(** The first loop of [place_mines], without its bounds checks. *)
Definition mark_mines (b : Board) (ps : list pos) (cs : list Cell) : list Cell :=
  foldl (λ cs p, alter (set_is_mine true) (loc b p) cs) cs ps.

Lemma mark_mines_length b ps cs : length (mark_mines b ps cs) = length cs.
Proof.
  revert cs. induction ps as [|p ps IH]; intros cs; [done|].
  simpl. by rewrite IH, length_alter.
Qed.

Lemma mark_mines_keep b ps cs :
  cell_keep <$> mark_mines b ps cs = cell_keep <$> cs.
Proof.
  revert cs. induction ps as [|p ps IH]; intros cs; [done|].
  simpl. by rewrite IH, fmap_alter_same.
Qed.

Lemma mark_mines_lookup b ps cs k :
  mark_mines b ps cs !! k =
    if bool_decide (k ∈ loc b <$> ps) then set_is_mine true <$> cs !! k
    else cs !! k.
Proof.
  revert cs. induction ps as [|p ps IH]; intros cs.
  { case_bool_decide as H; [by apply elem_of_nil in H|done]. }
  rewrite fmap_cons. simpl. rewrite IH.
  destruct (decide (k = loc b p)) as [->|Hne].
  - rewrite list_lookup_alter_eq, (bool_decide_eq_true_2 (_ ∈ _ :: _)) by left.
    case_bool_decide; [|done]. by destruct (cs !! loc b p).
  - rewrite list_lookup_alter_ne by done.
    repeat case_bool_decide; set_solver.
Qed.

(** Marking distinct cells that hold no mine adds one mine per cell. *)
Lemma mark_mines_count b ps cs :
  NoDup (loc b <$> ps) →
  (∀ p, p ∈ ps → ∃ c, cs !! loc b p = Some c ∧ is_mine (state c) = false) →
  countb (λ c, is_mine (state c)) (mark_mines b ps cs)
  = (countb (λ c, is_mine (state c)) cs + length ps)%nat.
Proof.
  revert cs. induction ps as [|p ps IH]; intros cs Hnd Hcs; simpl; [lia|].
  rewrite fmap_cons in Hnd. apply NoDup_cons in Hnd as [Hp Hnd].
  destruct (Hcs p) as (c & Hc & Hmine); [left|].
  rewrite IH; [|done|].
  - rewrite (countb_alter_gain _ _ _ _ c) by done. lia.
  - intros q Hq. destruct (Hcs q) as (c' & Hc' & Hmine'); [by right|].
    exists c'. split; [|done]. rewrite list_lookup_alter_ne; [done|].
    intros Heq. apply Hp. rewrite Heq. by apply list_elem_of_fmap_2.
Qed.

Section Placement.

Variable b : Board.
Hypothesis Hwf : well_formed b.

Lemma mine_loop_runs ps cs :
  length cs = length (cells b) → Forall (inb b) ps →
  for_each (λ cs p, py_update (set_is_mine true) cs (index b p.1 p.2)) ps cs
  = Ok (mark_mines b ps cs).
Proof.
  intros Hlen Hps. revert cs Hlen.
  induction Hps as [|p ps Hp _ IH]; intros cs Hlen; [done|].
  simpl. rewrite py_update_inrange.
  - simpl. apply IH. by rewrite length_alter.
  - rewrite Hlen. by apply index_range.
Qed.

Lemma count_adjacent_mines_runs cs c r :
  length cs = length (cells b) →
  ∃ n, count_adjacent_mines b cs c r = Ok n.
Proof.
  intros Hlen. unfold count_adjacent_mines.
  destruct (for_each_invariant (λ _, True)
    (λ adjacent_mines p,
       ncell ←! py_get cs (index b p.1 p.2);
       Ok (if is_mine (state ncell) then adjacent_mines + 1 else adjacent_mines))
    (inb b) (neighbors b c r) 0) as (n & Hn & _); [| |done|eauto].
  - intros n p _ Hp. pose proof (index_range b Hwf p Hp) as Hidx.
    destruct (lookup_lt_is_Some_2 cs (Z.to_nat (index b p.1 p.2))) as [x Hx];
      [lia|].
    rewrite (py_get_inrange _ _ x) by (done || lia). simpl. eauto.
  - apply Forall_forall. intros p. apply neighbors_inb.
Qed.

Lemma adjacency_loop_runs cs :
  length cs = length (cells b) →
  ∃ cs', for_each
           (λ cs p,
              cell ←! py_get cs (index b p.1 p.2);
              if negb (is_mine (state cell)) then
                adjacent_mines ←! count_adjacent_mines b cs p.1 p.2;
                py_update (set_adjacent adjacent_mines) cs (index b p.1 p.2)
              else Ok cs)
           (grid (cols b) (rows b)) cs = Ok cs'
         ∧ length cs' = length (cells b)
         ∧ (λ c, (is_mine (state c), cell_keep c)) <$> cs'
           = (λ c, (is_mine (state c), cell_keep c)) <$> cs.
Proof.
  intros Hlen.
  apply (for_each_invariant
    (λ cs', length cs' = length (cells b)
            ∧ (λ c, (is_mine (state c), cell_keep c)) <$> cs'
              = (λ c, (is_mine (state c), cell_keep c)) <$> cs) _ (inb b));
    [| |done].
  - intros cs1 p [Hlen1 Hkeep] Hp. simpl.
    pose proof (index_range b Hwf p Hp) as Hidx.
    destruct (lookup_lt_is_Some_2 cs1 (Z.to_nat (index b p.1 p.2))) as [x Hx];
      [lia|].
    rewrite (py_get_inrange _ _ x) by (done || lia). simpl.
    destruct (is_mine (state x)); simpl; [eauto|].
    destruct (count_adjacent_mines_runs cs1 p.1 p.2 Hlen1) as [n ->]. simpl.
    rewrite py_update_inrange by lia. eexists. split; [done|].
    by rewrite length_alter, fmap_alter_same.
  - apply Forall_forall. intros p. apply inb_grid.
Qed.

Lemma count_adjacent_mines_zero cs c r :
  (∀ p, p ∈ neighbors b c r →
        ∃ x, cs !! loc b p = Some x ∧ is_mine (state x) = false) →
  count_adjacent_mines b cs c r = Ok 0.
Proof.
  intros Hsafe. unfold count_adjacent_mines.
  destruct (for_each_invariant (λ n, n = 0)
    (λ adjacent_mines p,
       ncell ←! py_get cs (index b p.1 p.2);
       Ok (if is_mine (state ncell) then adjacent_mines + 1 else adjacent_mines))
    (λ p, p ∈ neighbors b c r) (neighbors b c r) 0) as (n & Hn & ->);
    [|by apply Forall_forall|done|done].
  intros n p -> Hp. destruct (Hsafe p Hp) as (x & Hx & Hm).
  pose proof (index_range b Hwf p (neighbors_inb _ _ _ _ Hp)) as Hidx.
  rewrite (py_get_inrange _ _ x) by (done || lia). simpl. rewrite Hm. eauto.
Qed.

(** The second loop of [place_mines] leaves a zero count on an anchor
    that had one and whose neighbours hold no mine. *)
Lemma adjacency_loop_anchor cs t :
  length cs = length (cells b) → inb b t →
  (∃ x, cs !! loc b t = Some x ∧ adjacent (state x) = 0) →
  (∀ p, p ∈ neighbors b t.1 t.2 →
        ∃ x, cs !! loc b p = Some x ∧ is_mine (state x) = false) →
  ∃ cs', for_each
           (λ cs p,
              cell ←! py_get cs (index b p.1 p.2);
              if negb (is_mine (state cell)) then
                adjacent_mines ←! count_adjacent_mines b cs p.1 p.2;
                py_update (set_adjacent adjacent_mines) cs (index b p.1 p.2)
              else Ok cs)
           (grid (cols b) (rows b)) cs = Ok cs'
         ∧ ∃ x, cs' !! loc b t = Some x ∧ adjacent (state x) = 0.
Proof.
  intros Hlen Ht Hzero Hsafe.
  destruct (for_each_invariant
    (λ cs', length cs' = length (cells b)
            ∧ (λ c, is_mine (state c)) <$> cs' = (λ c, is_mine (state c)) <$> cs
            ∧ ∃ x, cs' !! loc b t = Some x ∧ adjacent (state x) = 0)
    (λ cs p,
       cell ←! py_get cs (index b p.1 p.2);
       if negb (is_mine (state cell)) then
         adjacent_mines ←! count_adjacent_mines b cs p.1 p.2;
         py_update (set_adjacent adjacent_mines) cs (index b p.1 p.2)
       else Ok cs)
    (inb b) (grid (cols b) (rows b)) cs) as (cs' & Hrun & _ & _ & Hanchor);
    [| |done|by eauto].
  - intros cs1 p (Hlen1 & Hmines & x0 & Hx0 & Hadj) Hp.
    pose proof (index_range b Hwf p Hp) as Hidx.
    destruct (lookup_lt_is_Some_2 cs1 (Z.to_nat (index b p.1 p.2))) as [x Hx];
      [lia|].
    rewrite (py_get_inrange _ _ x) by (done || lia). simpl.
    destruct (is_mine (state x)); simpl; [by eauto 10|].
    destruct (count_adjacent_mines_runs cs1 p.1 p.2 Hlen1) as [n Hn].
    rewrite Hn. simpl. rewrite py_update_inrange by lia.
    eexists. split; [done|].
    rewrite length_alter, fmap_alter_same by done. split; [done|].
    split; [done|]. fold (loc b p).
    destruct (decide (p = t)) as [->|Hne].
    + rewrite list_lookup_alter_eq, Hx0. simpl. eexists. split; [done|]. simpl.
      rewrite count_adjacent_mines_zero in Hn; [by injection Hn|].
      intros q Hq. destruct (Hsafe q Hq) as (y & Hy & Hm).
      apply (f_equal (λ l, l !! loc b q)) in Hmines.
      rewrite !list_lookup_fmap, Hy in Hmines.
      destruct (cs1 !! loc b q) as [y1|]; [|done].
      exists y1. split; [done|]. simpl in Hmines. congruence.
    + rewrite list_lookup_alter_ne; [by eauto|].
      intros Heq. by apply Hne, (loc_inj b).
  - apply Forall_forall. intros p. apply inb_grid.
Qed.

End Placement.

Lemma countb_fmap {A B} (f : B → bool) (g : A → B) (l : list A) :
  countb f (g <$> l) = countb (f ∘ g) l.
Proof.
  induction l as [|x l IH]; [done|].
  rewrite fmap_cons, !countb_cons, IH. done.
Qed.

Lemma size_list_to_set_le (l : list pos) :
  (size (list_to_set l : gset pos) ≤ length l)%nat.
Proof.
  induction l as [|x l IH].
  - change (list_to_set [] : gset pos) with (∅ : gset pos).
    by rewrite size_empty.
  - change (list_to_set (x :: l) : gset pos)
      with ({[x]} ∪ list_to_set l : gset pos).
    rewrite size_union_alt, size_singleton, length_cons.
    assert (list_to_set l ∖ {[x]} ⊆ (list_to_set l : gset pos)) as H
      by set_solver.
    apply subseteq_size in H. lia.
Qed.

(** Removing a set of at most [k] coordinates from a list without
    repetition removes at most [k] elements. *)
Lemma length_filter_not_in (F : gset pos) (l : list pos) :
  NoDup l → (length l ≤ length (filter (λ p, p ∉ F) l) + size F)%nat.
Proof.
  intros Hnd.
  assert (length (filter (λ p, p ∈ F) l) ≤ size F)%nat as Hin.
  { change (size F) with (length (elements F)). apply submseteq_length.
    apply NoDup_submseteq; [by apply NoDup_filter|].
    intros x [Hx _]%list_elem_of_filter. by apply elem_of_elements. }
  assert (length l = length (filter (λ p, p ∈ F) l)
                     + length (filter (λ p, p ∉ F) l))%nat as Hsplit.
  { clear. induction l as [|x l IH]; [done|].
    rewrite !filter_cons. destruct (decide (x ∈ F)).
    - rewrite decide_False by tauto. simpl. lia.
    - rewrite decide_True by tauto. simpl. lia. }
  lia.
Qed.

Section Shuffled.

Variable shuffle : list pos → list pos.
Hypothesis shuffle_perm : ∀ l, shuffle l ≡ₚ l.

(** The coordinates [place_mines] takes from the shuffled pool. *)
Definition forbidden_zone (b : Board) (sc sr : Z) : gset pos :=
  {[ (sc, sr) ]} ∪ list_to_set (neighbors b sc sr).

Definition mine_positions (b : Board) (sc sr : Z) : list pos :=
  py_slice_to
    (shuffle (filter (λ p, p ∉ forbidden_zone b sc sr) (grid (cols b) (rows b))))
    (num_mines b).

Lemma mine_positions_pool b sc sr p :
  p ∈ mine_positions b sc sr → inb b p ∧ p ∉ forbidden_zone b sc sr.
Proof.
  intros Hp. eapply elem_of_sublist in Hp; [|apply py_slice_to_sublist].
  rewrite shuffle_perm in Hp.
  apply list_elem_of_filter in Hp as [Hp Hgrid]. by rewrite inb_grid.
Qed.

Lemma mine_positions_NoDup b sc sr : NoDup (mine_positions b sc sr).
Proof.
  eapply sublist_NoDup; [|apply py_slice_to_sublist].
  rewrite shuffle_perm. apply NoDup_filter, NoDup_grid.
Qed.

Lemma mine_positions_locs_NoDup b sc sr :
  well_formed b → NoDup (loc b <$> mine_positions b sc sr).
Proof.
  intros Hwf. apply NoDup_fmap_2_strong; [|apply mine_positions_NoDup].
  intros p q [Hp _]%mine_positions_pool [Hq _]%mine_positions_pool.
  by apply loc_inj.
Qed.

(** The pool before the shuffle. *)
Definition pool (b : Board) (sc sr : Z) : list pos :=
  filter (λ p, p ∉ forbidden_zone b sc sr) (grid (cols b) (rows b)).

Lemma mine_positions_eq b sc sr :
  mine_positions b sc sr
  = py_slice_to (shuffle (pool b sc sr)) (num_mines b).
Proof. done. Qed.

(** The anchor and its neighbours take at most nine cells out of the pool. *)
Lemma pool_length b sc sr :
  0 < cols b →
  cols b * rows b - 9 ≤ Z.of_nat (length (pool b sc sr)).
Proof.
  intros Hcols.
  pose proof (length_filter_not_in (forbidden_zone b sc sr)
                (grid (cols b) (rows b)) (NoDup_grid _ _)) as Hpool.
  fold (pool b sc sr) in Hpool.
  assert (size (forbidden_zone b sc sr) ≤ 9)%nat as Hzone.
  { unfold forbidden_zone. rewrite size_union_alt, size_singleton.
    assert (list_to_set (neighbors b sc sr) ∖ {[(sc, sr)]}
            ⊆ (list_to_set (neighbors b sc sr) : gset pos)) as H1
      by set_solver.
    apply subseteq_size in H1.
    pose proof (size_list_to_set_le (neighbors b sc sr)).
    pose proof (neighbors_length b sc sr). lia. }
  rewrite length_grid in Hpool.
  destruct (decide (0 < rows b)) as [Hrows|Hrows]; [|nia].
  assert (Z.of_nat (Z.to_nat (rows b) * Z.to_nat (cols b)) = cols b * rows b)
    as Hsize by nia.
  lia.
Qed.

Lemma mine_positions_length b sc sr :
  0 ≤ num_mines b ≤ Z.of_nat (length (pool b sc sr)) →
  length (mine_positions b sc sr) = Z.to_nat (num_mines b).
Proof.
  intros Hn. rewrite mine_positions_eq.
  apply py_slice_to_length. by rewrite shuffle_perm.
Qed.

(** A mine count above the size of the pool takes the whole pool. *)
Lemma mine_positions_all b sc sr p :
  Z.of_nat (length (pool b sc sr)) ≤ num_mines b →
  p ∈ pool b sc sr → p ∈ mine_positions b sc sr.
Proof.
  intros Hn Hp. rewrite mine_positions_eq. unfold py_slice_to.
  rewrite bool_decide_eq_true_2 by lia.
  rewrite take_ge; [by rewrite shuffle_perm|].
  rewrite shuffle_perm. lia.
Qed.

(** No cell of the safe zone is marked. *)
Lemma zone_not_marked b sc sr p :
  inb b p → p ∈ forbidden_zone b sc sr →
  loc b p ∉ loc b <$> mine_positions b sc sr.
Proof.
  intros Hp Hzone (q & Hloc & Hq)%list_elem_of_fmap.
  apply mine_positions_pool in Hq as [Hq Hout].
  apply (loc_inj b) in Hloc; [|done..]. by subst.
Qed.

(** What [place_mines] has done when it returns. *)
Record placed (b : Board) (sc sr : Z) (b' : Board) : Prop := {
  pl_cols : cols b' = cols b;
  pl_rows : rows b' = rows b;
  pl_mines : num_mines b' = num_mines b;
  pl_placed : _mines_placed b' = true;
  pl_count : revealed_count b' = revealed_count b;
  pl_over : game_over b' = game_over b;
  pl_win : win b' = win b;
  pl_length : length (cells b') = length (cells b);
  pl_cells :
    (λ c, (is_mine (state c), cell_keep c)) <$> cells b'
    = (λ c, (is_mine (state c), cell_keep c))
        <$> mark_mines b (mine_positions b sc sr) (cells b);
  pl_anchor :
    inb b (sc, sr) →
    (∀ x, x ∈ cells b →
          is_mine (state x) = false ∧ adjacent (state x) = 0) →
    ∃ x', cell_at b' (sc, sr) = Some x' ∧ adjacent (state x') = 0;
}.

Lemma place_mines_runs b sc sr :
  well_formed b →
  ∃ b', place_mines shuffle b sc sr = Ok b' ∧ placed b sc sr b'.
Proof.
  intros Hwf. unfold place_mines.
  fold (forbidden_zone b sc sr). fold (mine_positions b sc sr).
  assert (Forall (inb b) (mine_positions b sc sr)) as Hps.
  { apply Forall_forall. by intros p [Hp _]%mine_positions_pool. }
  rewrite (mine_loop_runs b Hwf _ _ eq_refl Hps). simpl.
  destruct (adjacency_loop_runs b Hwf
              (mark_mines b (mine_positions b sc sr) (cells b)))
    as (cs & Hrun & Hlen & Hkeep); [apply mark_mines_length|].
  rewrite Hrun. simpl. eexists. split; [done|]. split; try done.
  (* the anchor of a board without mines keeps its zero count *)
  intros Hin Hfresh.
  destruct (adjacency_loop_anchor b Hwf
              (mark_mines b (mine_positions b sc sr) (cells b)) (sc, sr))
    as (cs' & Hrun' & Hanchor); [apply mark_mines_length|done| | |].
  - destruct (cell_at_is_Some b Hwf (sc, sr) Hin) as [x Hx].
    rewrite mark_mines_lookup. unfold cell_at in Hx. rewrite Hx.
    destruct (Hfresh x) as [_ Hadj]; [by eapply list_elem_of_lookup_2|].
    case_bool_decide; eexists; (split; [done|done]).
  - intros p Hp.
    assert (inb b p) as Hinb by by eapply neighbors_inb.
    destruct (cell_at_is_Some b Hwf p Hinb) as [x Hx].
    rewrite mark_mines_lookup, bool_decide_eq_false_2.
    + exists x. split; [done|]. apply Hfresh. by eapply list_elem_of_lookup_2.
    + apply zone_not_marked; [done|]. unfold forbidden_zone. set_solver.
  - rewrite Hrun in Hrun'. by injection Hrun' as <-.
Qed.

Lemma placed_well_formed b sc sr b' :
  well_formed b → placed b sc sr b' → well_formed b'.
Proof.
  intros Hwf []. unfold well_formed. by rewrite pl_length0, pl_cols0, pl_rows0.
Qed.

(** Cell by cell: everything but [adjacent] is kept, except that the
    chosen cells now hold a mine. *)
Lemma placed_lookup b sc sr b' k c1 :
  placed b sc sr b' → cells b' !! k = Some c1 →
  ∃ c0, cells b !! k = Some c0 ∧ cell_keep c1 = cell_keep c0
        ∧ is_mine (state c1)
          = bool_decide (k ∈ loc b <$> mine_positions b sc sr)
            || is_mine (state c0).
Proof.
  intros [] Hc1.
  apply (f_equal (λ l, l !! k)) in pl_cells0.
  rewrite !list_lookup_fmap, Hc1, mark_mines_lookup in pl_cells0.
  destruct (cells b !! k) as [c0|] eqn:Hc0;
    [|by case_bool_decide].
  exists c0. split; [done|].
  destruct (bool_decide (k ∈ loc b <$> mine_positions b sc sr));
    simpl in pl_cells0; apply (inj Some) in pl_cells0;
    apply pair_equal_spec in pl_cells0 as [Hm Hk]; by rewrite Hm, Hk.
Qed.

Lemma placed_lookup_inv b sc sr b' k c0 :
  placed b sc sr b' → cells b !! k = Some c0 →
  ∃ c1, cells b' !! k = Some c1.
Proof.
  intros [] Hc0. apply lookup_lt_is_Some. rewrite pl_length0.
  by eapply lookup_lt_Some.
Qed.

(** The anchor and its neighbours are outside the pool. *)
Lemma placed_safe_zone b sc sr b' p c0 c1 :
  well_formed b → placed b sc sr b' → inb b p →
  p ∈ forbidden_zone b sc sr →
  cell_at b p = Some c0 → cell_at b' p = Some c1 →
  is_mine (state c1) = is_mine (state c0).
Proof.
  intros Hwf Hpl Hp Hzone Hc0 Hc1. unfold cell_at in *.
  rewrite (loc_same_cols b' b) in Hc1 by apply Hpl.
  destruct (placed_lookup _ _ _ _ _ _ Hpl Hc1) as (c0' & Hc0' & _ & ->).
  assert (c0' = c0) as -> by congruence.
  rewrite bool_decide_eq_false_2; [done|].
  intros (q & Hloc & Hq)%list_elem_of_fmap.
  apply mine_positions_pool in Hq as [Hq Hout].
  apply (loc_inj b) in Hloc; [|done..]. by subst.
Qed.

(** On a board without mines, a valid mine count is met exactly. *)
Lemma placed_mine_count b sc sr b' :
  well_formed b → placed b sc sr b' →
  (∀ c, c ∈ cells b → is_mine (state c) = false) →
  0 ≤ num_mines b ≤ Z.of_nat (length (pool b sc sr)) →
  Z.of_nat (mine_count b') = num_mines b.
Proof.
  intros Hwf Hpl Hfresh Hn. unfold mine_count.
  change (λ c, is_mine (state c))
    with (fst ∘ (λ c, (is_mine (state c), cell_keep c))).
  rewrite <-countb_fmap, (pl_cells _ _ _ _ Hpl), countb_fmap.
  change (fst ∘ (λ c, (is_mine (state c), cell_keep c)))
    with (λ c, is_mine (state c)).
  rewrite mark_mines_count.
  - rewrite countb_all_false by done.
    rewrite mine_positions_length by done. lia.
  - by apply mine_positions_locs_NoDup.
  - intros p [Hp _]%mine_positions_pool.
    destruct (cell_at_is_Some b Hwf p Hp) as [c Hc]. exists c.
    split; [done|]. apply Hfresh. by eapply list_elem_of_lookup_2.
Qed.

(** ** The paths through [reveal] *)

(** The board once the first lines of [reveal] have placed the mines,
    if they had to. *)
Definition ready (b : Board) (c r : Z) (b1 : Board) : Prop :=
  if _mines_placed b then b1 = b else placed b c r b1.

(** The four ways [reveal] returns: the coordinate is outside the board;
    the target is revealed or flagged; the target holds a mine; the
    target is opened and the flood fill runs. *)
Inductive reveal_case (b : Board) (c r : Z) (b' : Board) : Prop :=
| reveal_outside :
    is_inbounds b c r = false → b' = b → reveal_case b c r b'
| reveal_ignored b1 cell :
    inb b (c, r) → ready b c r b1 → cell_at b1 (c, r) = Some cell →
    is_revealed (state cell) || is_flagged (state cell) = true →
    b' = b1 → reveal_case b c r b'
| reveal_mine b1 cell :
    inb b (c, r) → ready b c r b1 → cell_at b1 (c, r) = Some cell →
    is_revealed (state cell) || is_flagged (state cell) = false →
    is_mine (state cell) = true →
    b' = _reveal_all_mines (set_game_over true b1) → reveal_case b c r b'
| reveal_flood b1 cell b2 :
    inb b (c, r) → ready b c r b1 → cell_at b1 (c, r) = Some cell →
    is_revealed (state cell) || is_flagged (state cell) = false →
    is_mine (state cell) = false →
    flood_post b1 (c, r) b2 → b' = _check_win b2 → reveal_case b c r b'.

Lemma ready_well_formed b c r b1 :
  well_formed b → ready b c r b1 → well_formed b1.
Proof.
  unfold ready. destruct (_mines_placed b); [by intros ? ->|].
  apply placed_well_formed.
Qed.

Lemma ready_dims b c r b1 :
  ready b c r b1 → cols b1 = cols b ∧ rows b1 = rows b.
Proof.
  unfold ready. destruct (_mines_placed b); [by intros ->|].
  intros Hpl. split; apply Hpl.
Qed.

(** [reveal] returns on every well-formed board on which [place_mines]
    returns, along one of the four paths. *)
Lemma reveal_cases b c r :
  well_formed b →
  (_mines_placed b = false →
   ∃ b1, place_mines shuffle b c r = Ok b1 ∧ placed b c r b1) →
  ∃ b', reveal shuffle b c r = Ok b' ∧ reveal_case b c r b'.
Proof.
  intros Hwf Hplace. unfold reveal.
  destruct (is_inbounds b c r) eqn:Hin; simpl;
    [|eexists; split; [done|by apply reveal_outside]].
  assert (∃ b1, (if negb (_mines_placed b) then place_mines shuffle b c r
                 else Ok b) = Ok b1 ∧ ready b c r b1) as (b1 & -> & Hready).
  { unfold ready. destruct (_mines_placed b); simpl; [eauto|].
    destruct Hplace as (b1 & -> & Hpl); eauto. }
  simpl.
  pose proof (ready_well_formed _ _ _ _ Hwf Hready) as Hwf1.
  destruct (ready_dims _ _ _ _ Hready) as [Hcols Hrows].
  assert (inb b1 (c, r)) as Hin1 by by apply (inb_same_dims b1 b).
  destruct (cell_at_is_Some b1 Hwf1 (c, r) Hin1) as [cell Hcell].
  pose proof (py_get_cell b1 Hwf1 (c, r) cell Hin1 Hcell) as Hget.
  simpl in Hget. rewrite Hget. simpl.
  destruct (is_revealed (state cell) || is_flagged (state cell)) eqn:Hrf.
  { eexists. split; [done|]. by eapply reveal_ignored. }
  destruct (is_mine (state cell)) eqn:Hmine.
  { eexists. split; [done|]. by eapply reveal_mine. }
  destruct (flood_fill_post b1 (c, r) Hwf1 Hin1) as (b2 & -> & Hpost).
  simpl. eexists. split; [done|]. by eapply reveal_flood.
Qed.

(** ** The end-of-game helpers *)

Definition win_condition (b : Board) : bool :=
  bool_decide (revealed_count b = cols b * rows b - num_mines b)
  && negb (game_over b).

Definition complete (cell : Cell) : Cell :=
  if negb (is_revealed (state cell)) && negb (is_mine (state cell))
  then set_is_revealed true cell else cell.

Definition show_mine (cell : Cell) : Cell :=
  if is_mine (state cell) then set_is_revealed true cell else cell.

Lemma check_win_unfold b :
  _check_win b =
    if win_condition b then set_cells (complete <$> cells b) (set_win true b)
    else b.
Proof. done. Qed.

Lemma fmap_fmap_same {A B} (f : A → B) (g : A → A) (l : list A) :
  (∀ x, f (g x) = f x) → f <$> (g <$> l) = f <$> l.
Proof.
  intros Hg. rewrite <-list_fmap_compose. apply list_fmap_ext.
  intros _ x _. apply Hg.
Qed.

Lemma complete_frame cell : cell_frame (complete cell) = cell_frame cell.
Proof. unfold complete. by case_match. Qed.

Lemma show_mine_frame cell : cell_frame (show_mine cell) = cell_frame cell.
Proof. unfold show_mine. by case_match. Qed.

Lemma check_win_scalars b :
  cols (_check_win b) = cols b ∧ rows (_check_win b) = rows b
  ∧ num_mines (_check_win b) = num_mines b
  ∧ _mines_placed (_check_win b) = _mines_placed b
  ∧ revealed_count (_check_win b) = revealed_count b
  ∧ game_over (_check_win b) = game_over b
  ∧ length (cells (_check_win b)) = length (cells b)
  ∧ cell_frame <$> cells (_check_win b) = cell_frame <$> cells b.
Proof.
  rewrite check_win_unfold. destruct (win_condition b); simpl; [|done].
  rewrite length_fmap, fmap_fmap_same; [done|apply complete_frame].
Qed.

Lemma check_win_win b :
  win (_check_win b) = win b || win_condition b.
Proof.
  rewrite check_win_unfold. destruct (win_condition b); simpl.
  - by rewrite orb_true_r.
  - by rewrite orb_false_r.
Qed.

Lemma check_win_all_safe b :
  win_condition b = true → all_safe_revealed (_check_win b).
Proof.
  intros Hcond. rewrite check_win_unfold, Hcond. simpl.
  intros cell (c0 & -> & _)%list_elem_of_fmap. unfold complete.
  destruct (is_revealed (state c0)) eqn:Hrev, (is_mine (state c0)) eqn:Hmine;
    simpl; congruence.
Qed.

(** When every cell without a mine is revealed already, [_check_win]
    has no cell left to reveal. *)
Lemma check_win_idle b :
  all_safe_revealed b → cells (_check_win b) = cells b.
Proof.
  intros Hall. rewrite check_win_unfold. destruct (win_condition b); [|done].
  simpl. rewrite <-(list_fmap_id (cells b)) at 2. apply list_fmap_ext.
  intros _ cell Hcell%list_elem_of_lookup_2. unfold complete.
  destruct (is_mine (state cell)) eqn:Hmine.
  - by rewrite andb_false_r.
  - by rewrite (Hall cell Hcell Hmine).
Qed.

Lemma reveal_all_mines_scalars b :
  cols (_reveal_all_mines b) = cols b ∧ rows (_reveal_all_mines b) = rows b
  ∧ num_mines (_reveal_all_mines b) = num_mines b
  ∧ _mines_placed (_reveal_all_mines b) = _mines_placed b
  ∧ revealed_count (_reveal_all_mines b) = revealed_count b
  ∧ game_over (_reveal_all_mines b) = game_over b
  ∧ win (_reveal_all_mines b) = win b
  ∧ length (cells (_reveal_all_mines b)) = length (cells b)
  ∧ cell_frame <$> cells (_reveal_all_mines b) = cell_frame <$> cells b.
Proof.
  unfold _reveal_all_mines. simpl. split_and!; try done.
  - by rewrite length_fmap.
  - apply fmap_fmap_same. apply show_mine_frame.
Qed.

(** Past the placement, [reveal] changes [is_revealed] fields and the
    three counters and flags, and nothing else. *)
Lemma reveal_case_frame b c r b' :
  reveal_case b c r b' →
  (is_inbounds b c r = false ∧ b' = b)
  ∨ ∃ b1, inb b (c, r) ∧ ready b c r b1
          ∧ cols b' = cols b1 ∧ rows b' = rows b1
          ∧ num_mines b' = num_mines b1
          ∧ _mines_placed b' = _mines_placed b1
          ∧ length (cells b') = length (cells b1)
          ∧ cell_frame <$> cells b' = cell_frame <$> cells b1.
Proof.
  intros [Hout ->|b1 cell Hin Hready Hcell Hrf ->
          |b1 cell Hin Hready Hcell Hrf Hmine ->
          |b1 cell b2 Hin Hready Hcell Hrf Hmine Hpost ->].
  - by left.
  - right. exists b1. by eauto 10.
  - right. exists b1. split; [done|]. split; [done|].
    destruct (reveal_all_mines_scalars (set_game_over true b1))
      as (? & ? & ? & ? & _ & _ & _ & ? & ?). done.
  - right. exists b1. split; [done|]. split; [done|].
    destruct (check_win_scalars b2) as (-> & -> & -> & -> & _ & _ & -> & ->).
    by destruct Hpost.
Qed.

Lemma frame_lookup (l l' : list Cell) k x x' :
  cell_frame <$> l' = cell_frame <$> l →
  l !! k = Some x → l' !! k = Some x' → cell_frame x' = cell_frame x.
Proof.
  intros Heq Hx Hx'. apply (f_equal (λ l, l !! k)) in Heq.
  rewrite !list_lookup_fmap, Hx, Hx' in Heq. symmetry. by apply (inj Some).
Qed.

Lemma cell_frame_eq x x' :
  cell_frame x' = cell_frame x →
  col x' = col x ∧ row x' = row x
  ∧ is_mine (state x') = is_mine (state x)
  ∧ is_flagged (state x') = is_flagged (state x)
  ∧ adjacent (state x') = adjacent (state x).
Proof. unfold cell_frame. intros [= -> -> -> -> ->]. done. Qed.

(** * The claims *)

(** C10.  On a board whose mines are placed, [reveal] returns, and it
    leaves every cell's [is_mine], [adjacent] and [is_flagged] (and its
    coordinates) as they were, cell by cell; the list of cells keeps its
    length and the board keeps [cols], [rows], [num_mines] and
    [_mines_placed].  Only [is_revealed] fields and [revealed_count],
    [game_over], [win] are left free to change. *)
Theorem reveal_frame b c r :
  well_formed b → _mines_placed b = true →
  ∃ b', reveal shuffle b c r = Ok b'
        ∧ cols b' = cols b ∧ rows b' = rows b
        ∧ num_mines b' = num_mines b ∧ _mines_placed b' = true
        ∧ length (cells b') = length (cells b)
        ∧ ∀ k x x', cells b !! k = Some x → cells b' !! k = Some x' →
            is_mine (state x') = is_mine (state x)
            ∧ adjacent (state x') = adjacent (state x)
            ∧ is_flagged (state x') = is_flagged (state x)
            ∧ col x' = col x ∧ row x' = row x.
Proof.
  intros Hwf Hplaced.
  destruct (reveal_cases b c r Hwf) as (b' & Hrun & Hcase); [congruence|].
  exists b'. split; [done|].
  destruct (reveal_case_frame _ _ _ _ Hcase)
    as [[_ ->]|(b1 & _ & Hready & Hcols & Hrows & Hmines & Hpl & Hlen & Hframe)].
  { split_and!; try done. intros k x x' Hx Hx'. by simplify_eq. }
  unfold ready in Hready. rewrite Hplaced in Hready. subst b1.
  split_and!; try congruence.
  intros k x x' Hx Hx'.
  destruct (cell_frame_eq _ _ (frame_lookup _ _ _ _ _ Hframe Hx Hx'))
    as (? & ? & ? & ? & ?). done.
Qed.

(** C2.  On a board whose mines are placed, [reveal] on a cell of the
    board returns.  When the target holds a mine and is neither revealed
    nor flagged, [game_over] is set, every cell with a mine is revealed
    and is otherwise as before, every cell without a mine is as before,
    and [win] and [revealed_count] are as before.  When the target holds
    no mine, or is flagged, or is revealed, [game_over] is as before. *)
Theorem reveal_mine_loses b c r :
  well_formed b → _mines_placed b = true → is_inbounds b c r = true →
  ∃ cell b',
    cell_at b (c, r) = Some cell ∧ reveal shuffle b c r = Ok b'
    ∧ (is_mine (state cell) = true → is_revealed (state cell) = false →
       is_flagged (state cell) = false →
       game_over b' = true ∧ win b' = win b
       ∧ revealed_count b' = revealed_count b
       ∧ length (cells b') = length (cells b)
       ∧ ∀ k x, cells b !! k = Some x →
           ∃ x', cells b' !! k = Some x'
                 ∧ (is_mine (state x) = true →
                    is_revealed (state x') = true
                    ∧ cell_frame x' = cell_frame x)
                 ∧ (is_mine (state x) = false → x' = x))
    ∧ (is_mine (state cell) = false ∨ is_flagged (state cell) = true
       ∨ is_revealed (state cell) = true →
       game_over b' = game_over b).
Proof.
  intros Hwf Hplaced Hin.
  destruct (cell_at_is_Some b Hwf (c, r) Hin) as [cell Hcell].
  destruct (reveal_cases b c r Hwf) as (b' & Hrun & Hcase); [congruence|].
  exists cell, b'. split_and!; [done..| |].
  - intros Hmine Hrev Hflag.
    destruct Hcase as [Hout ->|b1 cell' _ Hready Hcell' Hrf ->
          |b1 cell' _ Hready Hcell' Hrf Hmine' ->
          |b1 cell' b2 _ Hready Hcell' Hrf Hmine' Hpost ->];
      [congruence|..]; unfold ready in Hready; rewrite Hplaced in Hready;
      subst b1; assert (cell' = cell) as -> by congruence.
    + by rewrite Hrev, Hflag in Hrf.
    + simpl. split_and!; [done..|by rewrite length_fmap|].
      intros k x Hx. rewrite list_lookup_fmap, Hx. simpl.
      eexists. split; [done|]. split; intros Hm; rewrite Hm; done.
    + congruence.
  - intros Hother.
    destruct Hcase as [Hout ->|b1 cell' _ Hready Hcell' Hrf ->
          |b1 cell' _ Hready Hcell' Hrf Hmine' ->
          |b1 cell' b2 _ Hready Hcell' Hrf Hmine' Hpost ->];
      [done|..]; unfold ready in Hready; rewrite Hplaced in Hready;
      subst b1; assert (cell' = cell) as -> by congruence.
    + done.
    + apply orb_false_iff in Hrf as [Hrev Hflag]. naive_solver congruence.
    + destruct (check_win_scalars b2) as (_ & _ & _ & _ & _ & -> & _).
      apply Hpost.
Qed.

(** *** The first reveal *)

Lemma Board_init_fresh ncols nrows mines cell :
  cell ∈ cells (Board_init ncols nrows mines) →
  state cell = mkCellState false false false 0.
Proof. simpl. by intros (p & -> & _)%list_elem_of_fmap. Qed.

(** The flood-fill path keeps the frame of the board. *)
Lemma flood_path_frame b1 t b2 :
  flood_post b1 t b2 →
  cols (_check_win b2) = cols b1 ∧ rows (_check_win b2) = rows b1
  ∧ num_mines (_check_win b2) = num_mines b1
  ∧ _mines_placed (_check_win b2) = _mines_placed b1
  ∧ game_over (_check_win b2) = game_over b1
  ∧ length (cells (_check_win b2)) = length (cells b1)
  ∧ cell_frame <$> cells (_check_win b2) = cell_frame <$> cells b1.
Proof.
  intros [].
  destruct (check_win_scalars b2) as (-> & -> & -> & -> & _ & -> & -> & ->).
  done.
Qed.

(** Two boards with the same frame have their mines in the same cells. *)
Lemma frame_same_mine b1 b' p c1 :
  cols b' = cols b1 → cell_frame <$> cells b' = cell_frame <$> cells b1 →
  cell_at b1 p = Some c1 →
  ∃ c', cell_at b' p = Some c' ∧ is_mine (state c') = is_mine (state c1).
Proof.
  intros Hcols Hframe Hc1. unfold cell_at in *.
  rewrite (loc_same_cols b' b1) by done.
  destruct (cells b' !! loc b1 p) as [c'|] eqn:Hc'.
  - exists c'. split; [done|].
    by destruct (cell_frame_eq _ _ (frame_lookup _ _ _ _ _ Hframe Hc1 Hc'))
      as (_ & _ & ? & _).
  - apply (f_equal (λ l, l !! loc b1 p)) in Hframe.
    by rewrite !list_lookup_fmap, Hc1, Hc' in Hframe.
Qed.

(** C3.  On a board just constructed with [0 < cols], [0 < rows] and
    [0 <= mines <= cols * rows - 9], [reveal] on a cell of the board
    returns with the mines placed, with no mine on the target nor on any
    of its neighbours, and with [game_over] still false: the first reveal
    does not hit a mine. *)
Theorem first_reveal_safe ncols nrows mines c r :
  0 < ncols → 0 < nrows → 0 ≤ mines ≤ ncols * nrows - 9 →
  is_inbounds (Board_init ncols nrows mines) c r = true →
  ∃ b', reveal shuffle (Board_init ncols nrows mines) c r = Ok b'
        ∧ _mines_placed b' = true ∧ game_over b' = false
        ∧ ∀ p, p = (c, r) ∨ p ∈ neighbors b' c r →
            ∃ cell, cell_at b' p = Some cell ∧ is_mine (state cell) = false.
Proof.
  intros _ _ _ Hin. set (b := Board_init ncols nrows mines) in *.
  pose proof (Board_init_well_formed ncols nrows mines) as Hwf. fold b in Hwf.
  destruct (reveal_cases b c r Hwf) as (b' & Hrun & Hcase);
    [intros _; by apply place_mines_runs|].
  exists b'. split; [done|].
  (* the safe zone of the board the placement returns *)
  assert (∀ b1, placed b c r b1 →
          ∀ p, p = (c, r) ∨ p ∈ neighbors b c r →
            ∃ c1, cell_at b1 p = Some c1 ∧ is_mine (state c1) = false)
    as Hzone.
  { intros b1 Hpl p Hp.
    assert (inb b p) as Hinb
      by (destruct Hp as [->|Hp]; [done|by eapply neighbors_inb]).
    assert (p ∈ forbidden_zone b c r) as Hforb
      by (unfold forbidden_zone; set_solver).
    destruct (cell_at_is_Some b Hwf p Hinb) as [c0 Hc0].
    destruct (cell_at_is_Some b1 (placed_well_formed _ _ _ _ Hwf Hpl) p)
      as [c1 Hc1].
    { eapply inb_same_dims; [apply Hpl|apply Hpl|done]. }
    exists c1. split; [done|].
    rewrite (placed_safe_zone b c r b1 p c0 c1) by done.
    apply list_elem_of_lookup_2 in Hc0.
    by rewrite (Board_init_fresh _ _ _ _ Hc0). }
  destruct Hcase as [Hout ->|b1 cell _ Hready Hcell Hrf ->
          |b1 cell _ Hready Hcell Hrf Hmine ->
          |b1 cell b2 _ Hready Hcell Hrf Hmine Hpost ->];
    [congruence|..]; unfold ready in Hready; simpl in Hready.
  - split_and!; [apply Hready|by rewrite (pl_over _ _ _ _ Hready)|].
    intros p Hp. apply (Hzone b1 Hready).
    by rewrite <-(neighbors_same_dims b1 b) by apply Hready.
  - destruct (Hzone b1 Hready (c, r)) as (c1 & Hc1 & Hsafe); [by left|].
    congruence.
  - destruct (flood_path_frame _ _ _ Hpost)
      as (Hcols & Hrows & _ & Hpl & Hover & _ & Hframe).
    split_and!.
    + rewrite Hpl. apply Hready.
    + by rewrite Hover, (pl_over _ _ _ _ Hready).
    + intros p Hp.
      destruct (Hzone b1 Hready p) as (c1 & Hc1 & Hsafe).
      { rewrite <-(neighbors_same_dims b1 b) by apply Hready.
        by rewrite <-(neighbors_same_dims (_check_win b2) b1). }
      destruct (frame_same_mine b1 (_check_win b2) p c1) as (c' & ? & ?);
        [done..|].
      exists c'. split; [done|congruence].
Qed.

(** *** Sequences of calls *)

Lemma frame_mine_map b b' :
  cell_frame <$> cells b' = cell_frame <$> cells b → mine_map b' = mine_map b.
Proof.
  intros Hframe. unfold mine_map.
  change (λ c, is_mine (state c)) with ((λ f : Z * Z * bool * bool * Z, f.1.1.2) ∘ cell_frame).
  by rewrite !list_fmap_compose, Hframe.
Qed.

Lemma mine_map_count b b' : mine_map b' = mine_map b → mine_count b' = mine_count b.
Proof.
  unfold mine_map, mine_count. intros Hmap.
  change (λ c, is_mine (state c)) with (id ∘ (λ c, is_mine (state c))).
  by rewrite <-!countb_fmap, Hmap.
Qed.

Lemma reveal_case_well_formed b c r b' :
  well_formed b → reveal_case b c r b' → well_formed b'.
Proof.
  intros Hwf Hcase.
  destruct (reveal_case_frame _ _ _ _ Hcase)
    as [[_ ->]|(b1 & _ & Hready & Hcols & Hrows & _ & _ & Hlen & _)]; [done|].
  pose proof (ready_well_formed _ _ _ _ Hwf Hready) as Hwf1.
  unfold well_formed. by rewrite Hlen, Hcols, Hrows.
Qed.

(** What one call does to the mines: nothing once they are placed;
    before that, nothing at all when it misses the board, and otherwise
    it leaves the mines where [place_mines] has put them. *)
Lemma step_mines b k :
  well_formed b →
  ∃ b', step shuffle b k = Ok b' ∧ well_formed b'
        ∧ cols b' = cols b ∧ rows b' = rows b ∧ num_mines b' = num_mines b
        ∧ (if _mines_placed b
           then _mines_placed b' = true ∧ mine_map b' = mine_map b
           else b' = b
                ∨ ∃ c r b1, inb b (c, r) ∧ placed b c r b1
                            ∧ _mines_placed b' = true
                            ∧ mine_map b' = mine_map b1).
Proof.
  intros Hwf. destruct k as [c r|c r]; simpl.
  2:{ exists b. split_and!; try done. destruct (_mines_placed b); auto. }
  destruct (reveal_cases b c r Hwf) as (b' & Hrun & Hcase);
    [intros _; by apply place_mines_runs|].
  exists b'. split; [done|]. split; [by eapply reveal_case_well_formed|].
  destruct (reveal_case_frame _ _ _ _ Hcase)
    as [[_ ->]|(b1 & Hin & Hready & Hcols & Hrows & Hmines & Hpl & Hlen & Hframe)].
  { split_and!; try done. destruct (_mines_placed b); auto. }
  apply frame_mine_map in Hframe. unfold ready in Hready.
  destruct (_mines_placed b) eqn:Hplaced.
  - subst b1. split_and!; congruence.
  - rewrite Hcols, Hrows, Hmines. split_and!; [apply Hready..|].
    right. exists c, r, b1. split_and!; [done..| |done].
    rewrite Hpl. apply Hready.
Qed.

Lemma run_invariant (I : Board → Prop) b ks :
  (∀ b k, I b → ∃ b', step shuffle b k = Ok b' ∧ I b') →
  I b → ∃ b', run shuffle b ks = Ok b' ∧ I b'.
Proof.
  intros Hstep Hb. unfold run.
  apply (for_each_invariant I _ (λ _, True)); [|by apply Forall_true|done].
  intros b1 k Hb1 _. by apply Hstep.
Qed.

(** C7.  On a board constructed with [0 <= mines <= cols * rows - 9]:
    [place_mines], anchored at a cell of the board, returns a board with
    exactly [mines] cells that hold a mine; every sequence of [reveal]
    and [toggle_flag] calls returns, and once it has placed the mines
    the board has exactly [mines] of them, in cells that no further
    sequence of calls changes. *)
Theorem mine_count_exact ncols nrows mines :
  0 ≤ mines ≤ ncols * nrows - 9 →
  (∀ c r, is_inbounds (Board_init ncols nrows mines) c r = true →
     ∃ b1, place_mines shuffle (Board_init ncols nrows mines) c r = Ok b1
           ∧ Z.of_nat (mine_count b1) = mines)
  ∧ ∀ ks,
     ∃ b, run shuffle (Board_init ncols nrows mines) ks = Ok b
          ∧ (_mines_placed b = true →
             Z.of_nat (mine_count b) = mines
             ∧ ∀ ks', ∃ b', run shuffle b ks' = Ok b'
                            ∧ mine_map b' = mine_map b).
Proof.
  intros Hmines. set (b0 := Board_init ncols nrows mines).
  pose proof (Board_init_well_formed ncols nrows mines) as Hwf0. fold b0 in Hwf0.
  assert (∀ c r b1, inb b0 (c, r) → placed b0 c r b1 →
          Z.of_nat (mine_count b1) = mines) as Hcount.
  { intros c r b1 [Hc _]%inb_iff Hpl.
    rewrite (placed_mine_count b0 c r b1); [done..| |].
    - intros cell Hcell. by rewrite (Board_init_fresh _ _ _ _ Hcell).
    - pose proof (pool_length b0 c r). simpl in *. lia. }
  split.
  { intros c r Hin. destruct (place_mines_runs b0 c r Hwf0) as (b1 & Hrun & Hpl).
    exists b1. split; [done|]. by eapply Hcount. }
  intros ks.
  destruct (run_invariant
    (λ b, well_formed b
          ∧ if _mines_placed b then Z.of_nat (mine_count b) = mines
            else b = b0) b0 ks) as (b & Hrun & Hwf & Hb); [|done|].
  { intros b k [Hwf Hb].
    destruct (step_mines b k Hwf) as (b' & Hstep & Hwf' & _ & _ & _ & Hm).
    exists b'. split; [done|]. split; [done|].
    destruct (_mines_placed b) eqn:Hplaced.
    - destruct Hm as [-> Hmap]. by rewrite (mine_map_count _ _ Hmap).
    - destruct Hm as [->|(c & r & b1 & Hin & Hpl & -> & Hmap)].
      + by rewrite Hplaced.
      + subst b. rewrite (mine_map_count _ _ Hmap). by eapply Hcount. }
  exists b. split; [done|]. intros Hplaced. rewrite Hplaced in Hb.
  split; [done|]. intros ks'.
  destruct (run_invariant
    (λ b', well_formed b' ∧ _mines_placed b' = true
           ∧ mine_map b' = mine_map b) b ks') as (b' & Hrun' & _ & _ & Hmap);
    [|done|by eauto].
  intros b1 k (Hwf1 & Hpl1 & Hmap1).
  destruct (step_mines b1 k Hwf1) as (b' & Hstep & Hwf' & _ & _ & _ & Hm).
  rewrite Hpl1 in Hm. destruct Hm as [Hpl' Hmap'].
  exists b'. split_and!; [done..|congruence].
Qed.

(** *** The win *)

(** The placement reveals nothing and removes no mine. *)
Lemma ready_lookup b c r b1 k c1 :
  ready b c r b1 → cells b1 !! k = Some c1 →
  ∃ c0, cells b !! k = Some c0
        ∧ is_revealed (state c1) = is_revealed (state c0)
        ∧ (is_mine (state c0) = true → is_mine (state c1) = true).
Proof.
  unfold ready. destruct (_mines_placed b).
  - intros -> Hc1. by exists c1.
  - intros Hpl Hc1.
    destruct (placed_lookup _ _ _ _ _ _ Hpl Hc1) as (c0 & Hc0 & Hkeep & Hmine).
    exists c0. split; [done|]. split.
    + unfold cell_keep in Hkeep. by injection Hkeep.
    + intros Hm. by rewrite Hmine, Hm, orb_true_r.
Qed.

Lemma ready_all_safe b c r b1 :
  ready b c r b1 → all_safe_revealed b → all_safe_revealed b1.
Proof.
  intros Hready Hall c1 (k & Hc1)%list_elem_of_lookup_1 Hmine.
  destruct (ready_lookup _ _ _ _ _ _ Hready Hc1) as (c0 & Hc0 & -> & Hmono).
  apply Hall; [by eapply list_elem_of_lookup_2|].
  destruct (is_mine (state c0)); [|done]. rewrite Hmono in Hmine; done.
Qed.

Lemma ready_flags b c r b1 :
  ready b c r b1 → win b1 = win b ∧ game_over b1 = game_over b.
Proof.
  unfold ready. destruct (_mines_placed b); [by intros ->|].
  intros Hpl. split; apply Hpl.
Qed.

(** C1.  On a well-formed board that, if its [win] flag is up, shows
    every cell without a mine (as every board built by the constructor
    and the methods does), [reveal] returns; and when the call has
    revealed a cell without a mine, [win] is set afterwards if and only if
    [revealed_count] equals [cols * rows - num_mines] and [game_over] is
    false, and when [win] is set every cell without a mine is revealed. *)
Theorem win_iff b c r :
  well_formed b → won_complete b →
  ∃ b', reveal shuffle b c r = Ok b'
        ∧ (reveals_safe_cell b b' →
           (win b' = true ↔
            revealed_count b' = cols b' * rows b' - num_mines b'
            ∧ game_over b' = false)
           ∧ (win b' = true → all_safe_revealed b')).
Proof.
  intros Hwf Hwon.
  destruct (reveal_cases b c r Hwf) as (b' & Hrun & Hcase);
    [intros _; by apply place_mines_runs|].
  exists b'. split; [done|].
  intros (k & c0 & c1 & Hc0 & Hc1 & Hr0 & Hr1 & Hm1).
  destruct Hcase as [Hout ->|b1 cell _ Hready Hcell Hrf ->
          |b1 cell _ Hready Hcell Hrf Hmine ->
          |b1 cell b2 _ Hready Hcell Hrf Hmine Hpost ->].
  - congruence.
  - destruct (ready_lookup _ _ _ _ _ _ Hready Hc1) as (c0' & ? & ? & _).
    congruence.
  - simpl in Hc1. rewrite list_lookup_fmap in Hc1.
    destruct (cells b1 !! k) as [x|] eqn:Hx; [|done].
    destruct (ready_lookup _ _ _ _ _ _ Hready Hx) as (c0' & ? & Hrx & _).
    assert (c0' = c0) as -> by congruence.
    injection Hc1 as <-.
    destruct (is_mine (state x)) eqn:Hmx; simpl in *; congruence.
  - (* the target is hidden and holds no mine, so the game is not won *)
    assert (win b2 = false) as Hwin2.
    { destruct (ready_flags _ _ _ _ Hready) as [Hw _].
      rewrite (fp_win _ _ _ Hpost), Hw.
      destruct (win b) eqn:Hwin; [|done].
      pose proof (ready_all_safe _ _ _ _ Hready (Hwon Hwin)) as Hall.
      apply orb_false_iff in Hrf as [Hrev _].
      rewrite (Hall cell) in Hrev; [done| |done].
      by eapply list_elem_of_lookup_2. }
    assert (win (_check_win b2) = win_condition b2) as Hwin'
      by by rewrite check_win_win, Hwin2.
    destruct (check_win_scalars b2) as (-> & -> & -> & _ & -> & -> & _).
    rewrite Hwin'. split.
    + unfold win_condition.
      rewrite andb_true_iff, bool_decide_eq_true, negb_true_iff. done.
    + apply check_win_all_safe.
Qed.

(** *** The flood fill, seen from [reveal] *)

Lemma region_target_zero b t z : region b t z → zerob b t = true.
Proof. by induction 1. Qed.

(** From a target with a non-zero count the fill opens the target only. *)
Lemma flooded_nonzero b t p :
  openb b t = true → zerob b t = false → flooded b t p ↔ p = t.
Proof.
  intros Hopen Hzero. unfold flooded, border. split.
  - intros [_ [->|(z & Hz%region_target_zero & _)]]; [done|congruence].
  - intros ->. auto.
Qed.

(** From a target with a zero count it opens the region and the hidden
    cells without flag or mine next to it. *)
Lemma flooded_zero b t p :
  zerob b t = true →
  flooded b t p ↔ region b t p ∨ (border b t p ∧ openb b p = true).
Proof.
  intros Hzero. unfold flooded. split.
  - intros [Hopen [->|Hborder]]; [left; by apply region_start|by right].
  - intros [Hreg|[Hborder Hopen]]; [|by auto].
    split; [by apply zerob_openb, region_zerob with t|].
    destruct Hreg as [|z p Hz Hp _]; [by left|right]. by exists z.
Qed.

(** When the counters agree with the cells and the win condition
    holds, no cell without a mine is hidden. *)
Lemma counters_full b :
  well_formed b → 0 ≤ cols b → 0 ≤ rows b → counters_agree b →
  win_condition b = true → all_safe_revealed b.
Proof.
  intros Hwf Hcols Hrows [Hrc Hnm] [Hcond _]%andb_true_iff.
  apply bool_decide_eq_true in Hcond.
  pose proof (countb_complement (λ c, is_mine (state c)) (cells b)) as Hsplit.
  pose proof (countb_le_length safe_revealed (cells b)) as Hle.
  fold (mine_count b) in Hsplit. rewrite Hwf in Hsplit, Hle.
  assert (Z.of_nat (Z.to_nat (rows b) * Z.to_nat (cols b)) = cols b * rows b)
    as Hsize by nia.
  assert (0 ≤ num_mines b) as Hpos by lia. specialize (Hnm Hpos).
  assert (countb (λ c, is_revealed (state c) && negb (is_mine (state c)))
            (cells b)
          = countb (λ c, negb (is_mine (state c))) (cells b)) as Heq.
  { fold safe_revealed in Hrc. unfold safe_revealed in Hrc, Hle. lia. }
  intros cell Hcell Hmine.
  apply (countb_full (λ c, is_revealed (state c))
           (λ c, negb (is_mine (state c))) _ Heq cell Hcell).
  by rewrite Hmine.
Qed.

(** After a flood fill on a board whose counters agree with its cells,
    they still agree, and [_check_win] finds no cell left to reveal. *)
Lemma flood_path_counters b1 t b2 :
  well_formed b1 → inb b1 t → counters_agree b1 → flood_post b1 t b2 →
  counters_agree (_check_win b2) ∧ cells (_check_win b2) = cells b2.
Proof.
  intros Hwf Hin Hagree Hpost.
  assert (well_formed b2) as Hwf2.
  { unfold well_formed.
    by rewrite (fp_length _ _ _ Hpost), (fp_cols _ _ _ Hpost), (fp_rows _ _ _ Hpost). }
  assert (counters_agree b2) as Hagree2.
  { destruct Hagree as [Hrc Hnm]. split.
    - rewrite (fp_count _ _ _ Hpost), (fp_safe _ _ _ Hpost), Hrc. lia.
    - rewrite (fp_mines _ _ _ Hpost).
      by rewrite (mine_map_count b1 b2) by apply frame_mine_map, Hpost. }
  assert (cells (_check_win b2) = cells b2) as Hcells.
  { destruct (win_condition b2) eqn:Hcond.
    - apply check_win_idle, counters_full; [done| | |done..];
        apply inb_iff in Hin;
        rewrite ?(fp_cols _ _ _ Hpost), ?(fp_rows _ _ _ Hpost); lia.
    - by rewrite check_win_unfold, Hcond. }
  split; [|done]. destruct Hagree2 as [Hrc Hnm].
  unfold counters_agree, mine_count. rewrite Hcells.
  by destruct (check_win_scalars b2) as (_ & _ & -> & _ & -> & _).
Qed.

(** C4, as amended.  On a well-formed board whose counters agree with
    its cells and whose mines are placed, [reveal] on a hidden cell of the
    board without flag or mine returns.  When the target's count is not
    zero, the target is the one cell newly revealed.  When it is zero,
    the cells newly revealed are exactly the cells of the target's
    connected region of hidden zero-count cells without flag or mine,
    and the hidden cells without flag or mine next to that region.
    [revealed_count] grows by the number of cells newly revealed. *)
Theorem flood_fill_exact b c r cell :
  well_formed b → counters_agree b → _mines_placed b = true →
  is_inbounds b c r = true → cell_at b (c, r) = Some cell →
  is_revealed (state cell) = false → is_flagged (state cell) = false →
  is_mine (state cell) = false →
  ∃ b', reveal shuffle b c r = Ok b'
        ∧ (adjacent (state cell) ≠ 0 →
           ∀ p, newly_revealed b b' p ↔ p = (c, r))
        ∧ (adjacent (state cell) = 0 →
           ∀ p, newly_revealed b b' p ↔
                region b (c, r) p ∨ (border b (c, r) p ∧ openb b p = true))
        ∧ revealed_count b' =
            revealed_count b + Z.of_nat (newly_revealed_count b b').
Proof.
  intros Hwf Hagree Hplaced Hin Hcell Hrev Hflag Hmine.
  destruct (reveal_cases b c r Hwf) as (b' & Hrun & Hcase); [congruence|].
  exists b'. split; [done|].
  assert (openb b (c, r) = true) as Hopen.
  { by rewrite (openb_cell _ _ _ Hcell), Hrev, Hflag, Hmine. }
  destruct Hcase as [Hout ->|b1 cell' _ Hready Hcell' Hrf ->
          |b1 cell' _ Hready Hcell' Hrf Hmine' ->
          |b1 cell' b2 _ Hready Hcell' Hrf Hmine' Hpost ->];
    [congruence|..]; unfold ready in Hready; rewrite Hplaced in Hready;
    subst b1; assert (cell' = cell) as -> by congruence;
    [by rewrite Hrev, Hflag in Hrf|congruence|].
  (* [_check_win] finds no cell left to reveal *)
  destruct (flood_path_counters b (c, r) b2 Hwf Hin Hagree Hpost)
    as [_ Hcells].
  assert (∀ p, newly_revealed b (_check_win b2) p ↔ flooded b (c, r) p)
    as Hnewly.
  { intros p. rewrite <-(fp_newly _ _ _ Hpost). unfold newly_revealed, cell_at.
    rewrite Hcells, (loc_same_cols (_check_win b2) b2); [done|].
    apply check_win_scalars. }
  split_and!.
  - intros Hadj p. rewrite Hnewly. apply flooded_nonzero; [done|].
    rewrite (zerob_cell _ _ _ Hcell), Hopen. by apply bool_decide_eq_false.
  - intros Hadj p. rewrite Hnewly. apply flooded_zero.
    rewrite (zerob_cell _ _ _ Hcell), Hopen. by apply bool_decide_eq_true.
  - unfold newly_revealed_count. rewrite Hcells.
    destruct (check_win_scalars b2) as (_ & _ & _ & _ & -> & _).
    apply Hpost.
Qed.

(** *** What every reachable board satisfies *)

Lemma show_mine_all_safe b :
  all_safe_revealed b → all_safe_revealed (_reveal_all_mines b).
Proof.
  intros Hall cell (x & -> & Hx)%list_elem_of_fmap Hmine.
  destruct (is_mine (state x)) eqn:Hmx; [done|]. by apply Hall.
Qed.

Lemma show_mine_counters b :
  counters_agree b → counters_agree (_reveal_all_mines b).
Proof.
  intros [Hrc Hnm]. unfold counters_agree, mine_count, _reveal_all_mines.
  simpl. rewrite !countb_fmap_same; [done| |].
  - intros x. destruct (is_mine (state x)) eqn:Hmx; simpl; congruence.
  - intros x. unfold safe_revealed.
    destruct (is_mine (state x)) eqn:Hmx; simpl; rewrite Hmx; [|done].
    by rewrite andb_false_r.
Qed.

(** The first placement on a board just constructed leaves the
    counters in agreement with the cells, when the pool has room for
    the mines. *)
Lemma placed_counters ncols nrows mines c r b1 :
  mines ≤ Z.of_nat (length (pool (Board_init ncols nrows mines) c r)) →
  placed (Board_init ncols nrows mines) c r b1 → counters_agree b1.
Proof.
  intros Hmines Hpl. split.
  - rewrite (pl_count _ _ _ _ Hpl), countb_all_false; [done|].
    intros c1 (k & Hc1)%list_elem_of_lookup_1.
    destruct (placed_lookup _ _ _ _ _ _ Hpl Hc1) as (c0 & Hc0 & Hkeep & _).
    apply list_elem_of_lookup_2, Board_init_fresh in Hc0.
    unfold safe_revealed. unfold cell_keep in Hkeep.
    injection Hkeep as _ _ -> _. by rewrite Hc0.
  - rewrite (pl_mines _ _ _ _ Hpl). intros Hpos.
    rewrite (placed_mine_count _ _ _ _ (Board_init_well_formed _ _ _) Hpl);
      [done| |done].
    intros cell Hcell. by rewrite (Board_init_fresh _ _ _ _ Hcell).
Qed.

Lemma reveal_case_won_complete b c r b' :
  reveal_case b c r b' → won_complete b → won_complete b'.
Proof.
  intros Hcase Hwon.
  assert (∀ b1, ready b c r b1 → won_complete b1) as Hready1.
  { intros b1 Hready Hwin. destruct (ready_flags _ _ _ _ Hready) as [Hw _].
    eapply ready_all_safe; [done|]. apply Hwon. congruence. }
  destruct Hcase as [Hout ->|b1 cell _ Hready Hcell Hrf ->
          |b1 cell _ Hready Hcell Hrf Hmine ->
          |b1 cell b2 _ Hready Hcell Hrf Hmine Hpost ->]; [done|by auto|..].
  - intros Hwin. apply show_mine_all_safe. by apply (Hready1 b1).
  - intros Hwin. rewrite check_win_win in Hwin.
    destruct (win_condition b2) eqn:Hcond; [by apply check_win_all_safe|].
    rewrite orb_false_r, (fp_win _ _ _ Hpost) in Hwin.
    apply orb_false_iff in Hrf as [Hrev _].
    rewrite (Hready1 b1 Hready Hwin cell) in Hrev; [done| |done].
    by eapply list_elem_of_lookup_2.
Qed.

Lemma reveal_case_counters b c r b' :
  well_formed b → reveal_case b c r b' →
  (∀ b1, inb b (c, r) → ready b c r b1 → counters_agree b1) →
  is_inbounds b c r = true → counters_agree b'.
Proof.
  intros Hwf Hcase Hready1 Hin.
  destruct Hcase as [Hout ->|b2 cell _ Hready Hcell Hrf ->
          |b2 cell _ Hready Hcell Hrf Hmine ->
          |b2 cell b3 _ Hready Hcell Hrf Hmine Hpost ->];
    [congruence|by auto|..].
  - apply (show_mine_counters (set_game_over true b2)).
    by apply (Hready1 b2).
  - eapply flood_path_counters; [by eapply ready_well_formed| |by auto|done].
    destruct (ready_dims _ _ _ _ Hready). by apply (inb_same_dims b2 b).
Qed.

Lemma reveal_case_all_safe b c r b' :
  reveal_case b c r b' → all_safe_revealed b → all_safe_revealed b'.
Proof.
  intros Hcase Hall.
  destruct Hcase as [Hout ->|b1 cell _ Hready Hcell Hrf ->
          |b1 cell _ Hready Hcell Hrf Hmine ->
          |b1 cell b2 _ Hready Hcell Hrf Hmine Hpost ->]; [done|..];
    pose proof (ready_all_safe _ _ _ _ Hready Hall) as Hall1; [done|..].
  - by apply (show_mine_all_safe (set_game_over true b1)).
  - apply orb_false_iff in Hrf as [Hrev _].
    rewrite (Hall1 cell) in Hrev; [done| |done].
    by eapply list_elem_of_lookup_2.
Qed.

(** When the mine count exceeds the pool, every cell outside the safe
    zone gets a mine, and the first reveal opens the whole safe zone:
    no cell without a mine is left hidden. *)
Lemma first_reveal_fills ncols nrows mines c r b' :
  reveal_case (Board_init ncols nrows mines) c r b' →
  inb (Board_init ncols nrows mines) (c, r) →
  Z.of_nat (length (pool (Board_init ncols nrows mines) c r)) ≤ mines →
  all_safe_revealed b'.
Proof.
  set (b0 := Board_init ncols nrows mines). intros Hcase Hin Hmines.
  pose proof (Board_init_well_formed ncols nrows mines) as Hwf0. fold b0 in Hwf0.
  assert (∀ b1, ready b0 c r b1 → placed b0 c r b1) as Hplaced by done.
  (* the cells of the board the placement returns *)
  assert (∀ b1 p, placed b0 c r b1 → inb b0 p →
          ∃ c1, cell_at b1 p = Some c1
                ∧ is_revealed (state c1) = false
                ∧ is_flagged (state c1) = false
                ∧ is_mine (state c1)
                  = bool_decide (p ∉ forbidden_zone b0 c r)) as Hcells.
  { intros b1 p Hpl Hp.
    destruct (cell_at_is_Some b1 (placed_well_formed _ _ _ _ Hwf0 Hpl) p)
      as [c1 Hc1].
    { eapply inb_same_dims; [apply Hpl|apply Hpl|done]. }
    exists c1. split; [done|]. unfold cell_at in Hc1.
    rewrite (loc_same_cols b1 b0) in Hc1 by apply Hpl.
    destruct (placed_lookup _ _ _ _ _ _ Hpl Hc1) as (c0 & Hc0 & Hkeep & Hm).
    apply list_elem_of_lookup_2, Board_init_fresh in Hc0.
    unfold cell_keep in Hkeep. injection Hkeep as _ _ -> ->.
    rewrite Hm, Hc0. simpl. split_and!; [done..|]. rewrite orb_false_r.
    destruct (decide (p ∈ forbidden_zone b0 c r)) as [Hzone|Hzone].
    - rewrite (bool_decide_eq_false_2 (_ ∉ _)) by tauto.
      apply bool_decide_eq_false. by apply zone_not_marked.
    - rewrite (bool_decide_eq_true_2 (_ ∉ _)) by done.
      apply bool_decide_eq_true. apply list_elem_of_fmap_2.
      apply mine_positions_all; [done|].
      apply list_elem_of_filter. split; [done|by apply inb_grid]. }
  assert ((c, r) ∈ forbidden_zone b0 c r) as Hanchor
    by (unfold forbidden_zone; set_solver).
  destruct Hcase as [Hout ->|b1 cell _ Hready Hcell Hrf ->
          |b1 cell _ Hready Hcell Hrf Hmine ->
          |b1 cell b2 _ Hready Hcell Hrf Hmine Hpost ->];
    [unfold inb in Hin; simpl in Hin; congruence|..];
    apply Hplaced in Hready;
    destruct (Hcells b1 (c, r) Hready Hin) as (c1 & Hc1 & Hr1 & Hf1 & Hm1);
    assert (c1 = cell) as -> by congruence;
    rewrite (bool_decide_eq_false_2 (_ ∉ _)) in Hm1 by tauto.
  - by rewrite Hr1, Hf1 in Hrf.
  - congruence.
  - (* the flood fill from the anchor *)
    assert (cols b1 = cols b0 ∧ rows b1 = rows b0) as [Hcols1 Hrows1]
      by (split; apply Hready).
    assert (zerob b1 (c, r) = true) as Hzero.
    { rewrite (zerob_cell _ _ _ Hcell), (openb_cell _ _ _ Hcell), Hr1, Hf1, Hm1.
      destruct (pl_anchor _ _ _ _ Hready Hin) as (x' & Hx' & Hadj).
      - intros x Hx. by rewrite (Board_init_fresh _ _ _ _ Hx).
      - assert (x' = cell) as -> by congruence. by apply bool_decide_eq_true. }
    assert (all_safe_revealed b2) as Hall2.
    { intros cell2 (k & Hk)%list_elem_of_lookup_1 Hsafe.
      destruct (loc_surj b0 k Hwf0) as (p & Hp & Hloc).
      { apply lookup_lt_Some in Hk.
        by rewrite (fp_length _ _ _ Hpost), (pl_length _ _ _ _ Hready) in Hk. }
      destruct (Hcells b1 p Hready Hp) as (cp & Hcp & Hrp & Hfp & Hmp).
      assert (loc b1 p = k) as Hloc1 by by rewrite (loc_same_cols b1 b0).
      assert (loc b2 p = k) as Hloc2
        by (rewrite (loc_same_cols b2 b1); [done|apply Hpost]).
      destruct (decide (p ∈ forbidden_zone b0 c r)) as [Hzone|Hzone].
      - rewrite (bool_decide_eq_false_2 (_ ∉ _)) in Hmp by tauto.
        assert (flooded b1 (c, r) p) as Hflood.
        { split; [by rewrite (openb_cell _ _ _ Hcp), Hrp, Hfp, Hmp|].
          unfold forbidden_zone in Hzone.
          apply elem_of_union in Hzone as [->%elem_of_singleton|Hnb];
            [by left|right].
          exists (c, r). split; [by apply region_start|].
          apply elem_of_list_to_set in Hnb. simpl.
          by rewrite (neighbors_same_dims b1 b0). }
        apply (fp_newly _ _ _ Hpost) in Hflood
          as (_ & x0 & x1 & _ & Hx1 & _ & Hshown).
        unfold cell_at in Hx1. rewrite Hloc2 in Hx1. congruence.
      - rewrite (bool_decide_eq_true_2 (_ ∉ _)) in Hmp by done.
        unfold cell_at in Hcp. rewrite Hloc1 in Hcp.
        destruct (cell_frame_eq _ _
          (frame_lookup _ _ _ _ _ (fp_frame _ _ _ Hpost) Hcp Hk))
          as (_ & _ & Hm & _). congruence. }
    unfold all_safe_revealed. by rewrite (check_win_idle b2 Hall2).
Qed.

(** Every sequence of calls on a board just constructed, whatever the
    arguments of the constructor, returns, in a well-formed board that
    shows every cell without a mine if it is won and, once the mines are
    placed, whose counters agree with its cells unless no cell without a
    mine is hidden any more. *)
Lemma run_invariants ncols nrows mines ks :
  ∃ b, run shuffle (Board_init ncols nrows mines) ks = Ok b
       ∧ well_formed b ∧ won_complete b
       ∧ (_mines_placed b = true →
          counters_agree b ∨ all_safe_revealed b).
Proof.
  destruct (run_invariant
    (λ b, well_formed b ∧ won_complete b
          ∧ if _mines_placed b then counters_agree b ∨ all_safe_revealed b
            else b = Board_init ncols nrows mines)
    (Board_init ncols nrows mines) ks) as (b & Hrun & Hwf & Hwon & Hagree).
  - intros b [c r|c r] (Hwf & Hwon & Hagree); simpl;
      [|by exists b].
    destruct (reveal_cases b c r Hwf) as (b' & Hrun & Hcase);
      [intros _; by apply place_mines_runs|].
    exists b'. split; [done|].
    split; [by eapply reveal_case_well_formed|].
    split; [by eapply reveal_case_won_complete|].
    destruct (reveal_case_frame _ _ _ _ Hcase)
      as [[_ ->]|(b1 & Hin & Hready & _ & _ & _ & Hpl & _)]; [done|].
    assert (_mines_placed b' = true) as ->.
    { rewrite Hpl. unfold ready in Hready.
      destruct (_mines_placed b) eqn:Hp; [by subst|apply Hready]. }
    destruct (_mines_placed b) eqn:Hplaced.
    + destruct Hagree as [Hagree|Hall];
        [left|right; by eapply reveal_case_all_safe].
      eapply (reveal_case_counters b c r b'); [done..| |done].
      intros b2 _ Hready2. unfold ready in Hready2.
      rewrite Hplaced in Hready2. by subst.
    + subst b.
      destruct (decide
        (mines ≤ Z.of_nat (length (pool (Board_init ncols nrows mines) c r))))
        as [Hroom|Hfull].
      * left. eapply (reveal_case_counters _ c r b'); [done..| |done].
        intros b2 _ Hready2. by eapply placed_counters.
      * right. eapply first_reveal_fills; [done..|lia].
  - split_and!; [apply Board_init_well_formed|done|done].
  - exists b. split_and!; [done..|].
    intros Hplaced. by rewrite Hplaced in Hagree.
Qed.

(** *** Win and loss *)

Lemma flood_fill_flags fuel b q v b' :
  flood_fill fuel b q v = Ok b' →
  win b' = win b ∧ game_over b' = game_over b.
Proof.
  revert b q v. induction fuel as [|fuel IH]; intros b [|[c r] q] v Hrun;
    simpl in Hrun; simplify_eq; try done.
  case_bool_decide; [by apply IH in Hrun|].
  apply bind_Ok in Hrun as (cell & _ & Hrun).
  destruct (is_revealed (state cell) || is_flagged (state cell));
    [by apply IH in Hrun|].
  destruct (is_mine (state cell)); [by apply IH in Hrun|].
  apply bind_Ok in Hrun as (cs & _ & Hrun).
  case_bool_decide; by apply IH in Hrun.
Qed.

Lemma place_mines_flags b c r b' :
  place_mines shuffle b c r = Ok b' →
  win b' = win b ∧ game_over b' = game_over b.
Proof.
  unfold place_mines. intros Hrun.
  apply bind_Ok in Hrun as (cs1 & _ & Hrun).
  apply bind_Ok in Hrun as (cs2 & _ & Hrun). by simplify_eq.
Qed.

(** A call on a board that is not won does not return a board that is
    both won and lost. *)
Lemma reveal_flags b c r b' :
  reveal shuffle b c r = Ok b' → win b = false →
  ¬ (win b' = true ∧ game_over b' = true).
Proof.
  unfold reveal. intros Hrun Hwin.
  destruct (is_inbounds b c r); simpl in Hrun; [|simplify_eq; intros [? _]; congruence].
  apply bind_Ok in Hrun as (b1 & Hplace & Hrun).
  assert (win b1 = false) as Hwin1.
  { destruct (_mines_placed b); simpl in Hplace; [by simplify_eq|].
    apply place_mines_flags in Hplace as [-> _]. done. }
  apply bind_Ok in Hrun as (cell & _ & Hrun).
  destruct (is_revealed (state cell) || is_flagged (state cell));
    [simplify_eq; intros [? _]; congruence|].
  destruct (is_mine (state cell));
    [simplify_eq; simpl; intros [? _]; congruence|].
  apply bind_Ok in Hrun as (b2 & Hflood & Hrun).
  apply flood_fill_flags in Hflood as [Hwin2 _]. simplify_eq.
  rewrite check_win_win, Hwin2, Hwin1. simpl.
  destruct (check_win_scalars b2) as (_ & _ & _ & _ & _ & -> & _).
  unfold win_condition. intros [[_ Hover]%andb_true_iff Hover'].
  by rewrite Hover' in Hover.
Qed.

(** C6, as amended.  From a board just constructed, as long as every
    call is issued on a board whose [win] flag is false, no board is
    reached with [win] and [game_over] both true. *)
Theorem win_loss_exclusive ncols nrows mines b :
  plays shuffle (Board_init ncols nrows mines) b →
  ¬ (win b = true ∧ game_over b = true).
Proof.
  induction 1 as [|b k b' _ _ Hwin Hstep]; [by intros [? _]|].
  destruct k as [c r|c r]; simpl in Hstep.
  - by eapply reveal_flags.
  - unfold toggle_flag in Hstep. simplify_eq. rewrite Hwin. by intros [? _].
Qed.

End Shuffled.

(** *** Construction *)

(** C5, as amended.  The constructor checks nothing: for all integers
    [cols], [rows] and [mines] it returns a board, with these three
    fields, [max rows 0 * max cols 0] default cells, no mines placed and
    both flags false. *)
Theorem Board_new_unchecked ncols nrows mines :
  ∃ b, Board_new ncols nrows mines = Ok b
       ∧ cols b = ncols ∧ rows b = nrows ∧ num_mines b = mines
       ∧ length (cells b) = (Z.to_nat nrows * Z.to_nat ncols)%nat
       ∧ (∀ cell, cell ∈ cells b → state cell = mkCellState false false false 0)
       ∧ _mines_placed b = false ∧ revealed_count b = 0
       ∧ game_over b = false ∧ win b = false.
Proof.
  exists (Board_init ncols nrows mines). split_and!; try done.
  - apply Board_init_well_formed.
  - intros cell. apply Board_init_fresh.
Qed.

(** C5 fails on the code: a 1x1 board with no mine violates
    [mines <= cols * rows - 9] and is constructed all the same. *)
Lemma Board_new_1x1_accepted :
  ¬ (0 ≤ 0 ≤ 1 * 1 - 9)
  ∧ Board_new 1 1 0 ≠ Raise InvalidConfiguration
  ∧ Board_new 1 1 0 = Ok (Board_init 1 1 0).
Proof. split_and!; [lia|done|done]. Qed.

(** *** Flags *)

(** C8 on the code: [toggle_flag] on a hidden cell of a fresh 3x3 board
    returns the board as it was, the cell still without a flag. *)
Theorem toggle_flag_inert :
  ∃ cell, cell_at (Board_init 3 3 0) (0, 0) = Some cell
          ∧ is_revealed (state cell) = false ∧ is_flagged (state cell) = false
          ∧ ∃ b', toggle_flag (Board_init 3 3 0) 0 0 = Ok b'
                  ∧ cell_at b' (0, 0) = Some cell.
Proof. eexists. split_and!; [done..|]. eexists. by split. Qed.

(** C9 on the code: [flagged_count] on a fresh 3x3 board returns [None],
    not the number 0 of its flagged cells; the board is as it was. *)
Theorem flagged_count_None :
  flagged_count (Board_init 3 3 0) = Ok (Board_init 3 3 0, PyNone)
  ∧ countb (λ c, is_flagged (state c)) (cells (Board_init 3 3 0)) = 0%nat
  ∧ PyNone ≠ PyInt 0.
Proof. split_and!; done. Qed.

(** * The claims at concrete boards *)

(** Decide a closed proposition by evaluation. *)
Ltac by_evaluation :=
  match goal with
  | |- ?P => apply (bool_decide_unpack P); vm_compute; exact I
  end.

Lemma id_shuffles (l : list pos) : id l ≡ₚ l.
Proof. done. Qed.

Lemma reverse_shuffles (l : list pos) : reverse l ≡ₚ l.
Proof. apply reverse_Permutation. Qed.

Lemma row_board_reached : run id (Board_init 10 1 1) [Reveal 0 0] = Ok row_board.
Proof. vm_compute. reflexivity. Qed.

Lemma row_board_well_formed : well_formed row_board.
Proof. reflexivity. Qed.

Lemma row_board_counters : counters_agree row_board.
Proof. split; reflexivity. Qed.

(** C10 at [reveal(5, 0)] on the row board. *)
Lemma reveal_frame_witness :
  well_formed row_board ∧ _mines_placed row_board = true
  ∧ ∃ b', reveal id row_board 5 0 = Ok b'
          ∧ cols b' = 10 ∧ rows b' = 1 ∧ num_mines b' = 1
          ∧ _mines_placed b' = true.
Proof.
  split; [reflexivity|]. split; [reflexivity|].
  destruct (reveal_frame id row_board 5 0) as (b' & H1 & H2 & H3 & H4 & H5 & _);
    [reflexivity..|].
  exists b'. auto.
Defined.

(** C2 at [reveal(2, 0)], the mine of the row board. *)
Lemma reveal_mine_loses_witness :
  well_formed row_board ∧ _mines_placed row_board = true
  ∧ is_inbounds row_board 2 0 = true
  ∧ ∃ b', reveal id row_board 2 0 = Ok b' ∧ game_over b' = true.
Proof.
  split; [reflexivity|]. split; [reflexivity|]. split; [reflexivity|].
  destruct (reveal_mine_loses id row_board 2 0) as (cell & b' & H1 & H2 & H3 & _);
    [reflexivity..|].
  exists b'. split; [exact H2|].
  vm_compute in H1. injection H1 as <-. apply H3; reflexivity.
Defined.

(** C3 at the first call [reveal(0, 0)] on [Board(10, 1, 1)]. *)
Lemma first_reveal_safe_witness :
  0 < 10 ∧ 0 < 1 ∧ 0 ≤ 1 ≤ 10 * 1 - 9
  ∧ is_inbounds (Board_init 10 1 1) 0 0 = true
  ∧ ∃ b', reveal id (Board_init 10 1 1) 0 0 = Ok b'
          ∧ _mines_placed b' = true ∧ game_over b' = false
          ∧ ∀ p, p = (0, 0) ∨ p ∈ neighbors b' 0 0 →
              ∃ cell, cell_at b' p = Some cell ∧ is_mine (state cell) = false.
Proof.
  split; [lia|]. split; [lia|]. split; [lia|]. split; [reflexivity|].
  apply (first_reveal_safe id id_shuffles 10 1 1 0 0); [lia..|reflexivity].
Defined.

(** C7 at [Board(10, 1, 1)]. *)
Lemma mine_count_exact_witness :
  0 ≤ 1 ≤ 10 * 1 - 9
  ∧ ∀ ks, ∃ b, run id (Board_init 10 1 1) ks = Ok b
               ∧ (_mines_placed b = true →
                  Z.of_nat (mine_count b) = 1
                  ∧ ∀ ks', ∃ b', run id b ks' = Ok b'
                                 ∧ mine_map b' = mine_map b).
Proof.
  split; [lia|]. apply (mine_count_exact id id_shuffles 10 1 1). lia.
Defined.

(** C1 at [reveal(1, 1)] on a fresh [Board(3, 3, 0)], which wins. *)
Lemma win_iff_witness :
  well_formed (Board_init 3 3 0) ∧ won_complete (Board_init 3 3 0)
  ∧ ∃ b', reveal id (Board_init 3 3 0) 1 1 = Ok b'
          ∧ (reveals_safe_cell (Board_init 3 3 0) b' →
             (win b' = true ↔
              revealed_count b' = cols b' * rows b' - num_mines b'
              ∧ game_over b' = false)
             ∧ (win b' = true → all_safe_revealed b')).
Proof.
  split; [reflexivity|]. split; [intros H; discriminate H|].
  apply (win_iff id id_shuffles (Board_init 3 3 0) 1 1);
    [reflexivity|intros H; discriminate H].
Defined.

(** C4, as amended, at [reveal(5, 0)] on the row board. *)
Lemma flood_fill_exact_witness :
  well_formed row_board ∧ counters_agree row_board
  ∧ _mines_placed row_board = true ∧ is_inbounds row_board 5 0 = true
  ∧ cell_at row_board (5, 0) = Some (mkCell 5 0 (hidden 0))
  ∧ ∃ b', reveal id row_board 5 0 = Ok b'
          ∧ (∀ p, newly_revealed row_board b' p ↔
                  region row_board (5, 0) p
                  ∨ (border row_board (5, 0) p ∧ openb row_board p = true))
          ∧ revealed_count b' =
              revealed_count row_board
              + Z.of_nat (newly_revealed_count row_board b').
Proof.
  split; [reflexivity|]. split; [split; reflexivity|].
  split; [reflexivity|]. split; [reflexivity|]. split; [reflexivity|].
  destruct (flood_fill_exact id row_board 5 0 (mkCell 5 0 (hidden 0)))
    as (b' & H1 & _ & H2 & H3);
    [reflexivity|split; reflexivity|reflexivity..|].
  exists b'. split; [exact H1|]. split; [apply H2; reflexivity|exact H3].
Defined.

(** C6, as amended, at the row board, reached by one call. *)
Lemma win_loss_exclusive_witness :
  plays id (Board_init 10 1 1) row_board
  ∧ ¬ (win row_board = true ∧ game_over row_board = true).
Proof.
  assert (plays id (Board_init 10 1 1) row_board) as H.
  { apply (plays_call id _ (Board_init 10 1 1) (Reveal 0 0));
      [apply plays_start|reflexivity|vm_compute; reflexivity]. }
  split; [exact H|]. exact (win_loss_exclusive id 10 1 1 row_board H).
Defined.

(** C6 fails on the code: on [Board(10, 1, 1)], with the pool left in
    order, [reveal(0, 0)] and [reveal(4, 0)] win the game, and
    [reveal(2, 0)] then hits the mine: both flags are up. *)
Lemma win_then_loss :
  ∃ b, run id (Board_init 10 1 1) [Reveal 0 0; Reveal 4 0; Reveal 2 0] = Ok b
       ∧ win b = true ∧ game_over b = true.
Proof. eexists. split; [vm_compute; reflexivity|]. split; reflexivity. Qed.

(** C4 fails on the code as stated: on [Board(10, 1, 1)], with the pool
    left in order, after [reveal(0, 0)] and [reveal(3, 0)] the call
    [reveal(5, 0)] floods the zero-count region (4,0)..(9,0); the cell
    (3,0) is next to it, without mine or flag, but it was revealed
    before, so it is not newly revealed. *)
Lemma flood_skips_revealed_border :
  ∃ b b', run id (Board_init 10 1 1) [Reveal 0 0; Reveal 3 0] = Ok b
          ∧ _mines_placed b = true ∧ is_inbounds b 5 0 = true
          ∧ cell_at b (5, 0) = Some (mkCell 5 0 (hidden 0))
          ∧ reveal id b 5 0 = Ok b'
          ∧ ¬ (∀ p, newly_revealed b b' p ↔
                    plain_region b (5, 0) p ∨ plain_border b (5, 0) p).
Proof.
  eexists. eexists. split; [vm_compute; reflexivity|].
  split; [reflexivity|]. split; [reflexivity|]. split; [reflexivity|].
  split; [vm_compute; reflexivity|].
  intros Hclaim. destruct (Hclaim (3, 0)) as [_ Hnew].
  destruct Hnew as (_ & c0 & c1 & Hc0 & _ & Hr0 & _).
  - right. exists (4, 0). split_and!; [|by_evaluation|reflexivity].
    apply plain_region_step with (5, 0);
      [by apply plain_region_start|by_evaluation|reflexivity].
  - vm_compute in Hc0. injection Hc0 as <-. discriminate Hr0.
Qed.

(** Why C4 asks that the counters agree with the cells: on the row board
    with [revealed_count] set to 8 by hand, [reveal(3, 0)] on a cell
    whose count is 1 brings the counter to 9, [_check_win] declares the
    win and reveals the six hidden cells (4,0)..(9,0) as well.  No
    sequence of calls builds such a board ([run_invariants]). *)
Lemma stale_counter_completes :
  ∃ b', reveal id (set_revealed_count 8 row_board) 3 0 = Ok b'
        ∧ win b' = true
        ∧ newly_revealed (set_revealed_count 8 row_board) b' (9, 0).
Proof.
  eexists. split; [vm_compute; reflexivity|]. split; [reflexivity|].
  split; [reflexivity|]. eexists _, _. split_and!; reflexivity.
Qed.

(** * Further properties of the board *)

(** ** What a call that returns has done, read off [reveal] *)

Lemma py_update_Ok {A} (f : A → A) (l l' : list A) i :
  py_update f l i = Ok l' → ∃ k, l' = alter f k l.
Proof.
  unfold py_update. intros (k & _ & Hk)%bind_Ok. exists k. by injection Hk.
Qed.

Lemma py_get_Ok {A} (l : list A) i x :
  py_get l i = Ok x → ∃ k, l !! k = Some x.
Proof.
  unfold py_get. intros (k & _ & Hk)%bind_Ok. exists k.
  destruct (l !! k); by simplify_eq.
Qed.

(** A loop whose steps all stay inside a reflexive and transitive
    relation ends inside it. *)
Lemma for_each_related {A S} (R : S → S → Prop) (body : S → A → result S)
    xs s s' :
  (∀ s, R s s) → (∀ s1 s2 s3, R s1 s2 → R s2 s3 → R s1 s3) →
  (∀ s x s', body s x = Ok s' → R s s') →
  for_each body xs s = Ok s' → R s s'.
Proof.
  intros Hrefl Htrans Hbody. revert s.
  induction xs as [|x xs IH]; intros s Hrun; simpl in Hrun.
  - injection Hrun as ->. apply Hrefl.
  - apply bind_Ok in Hrun as (s1 & Hstep & Hrun). eauto.
Qed.

(** Between two lists of cells: each cell keeps everything but
    [is_revealed], and a cell whose [is_revealed] differs was hidden,
    holds no mine, and is now revealed. *)
Definition opens_safe (l l' : list Cell) : Prop :=
  length l' = length l
  ∧ ∀ k x x', l !! k = Some x → l' !! k = Some x' →
      cell_frame x' = cell_frame x
      ∧ (is_revealed (state x') = is_revealed (state x)
         ∨ (is_revealed (state x) = false ∧ is_revealed (state x') = true
            ∧ is_mine (state x) = false)).

Lemma opens_safe_refl l : opens_safe l l.
Proof. split; [done|]. intros k x x' Hx Hx'. simplify_eq. auto. Qed.

Lemma opens_safe_trans l1 l2 l3 :
  opens_safe l1 l2 → opens_safe l2 l3 → opens_safe l1 l3.
Proof.
  intros [Hlen12 H12] [Hlen23 H23]. split; [congruence|].
  intros k x1 x3 Hx1 Hx3.
  destruct (lookup_lt_is_Some_2 l2 k) as [x2 Hx2].
  { rewrite Hlen12. by eapply lookup_lt_Some. }
  destruct (H12 k x1 x2 Hx1 Hx2) as [Hf12 Hr12].
  destruct (H23 k x2 x3 Hx2 Hx3) as [Hf23 Hr23].
  split; [congruence|].
  destruct (cell_frame_eq _ _ Hf12) as (_ & _ & Hm & _).
  destruct Hr12 as [Hr12|(? & ? & ?)], Hr23 as [Hr23|(? & ? & ?)];
    try (left; congruence); right; split_and!; congruence.
Qed.

Lemma opens_safe_alter l k x :
  l !! k = Some x → is_mine (state x) = false →
  opens_safe l (alter (set_is_revealed true) k l).
Proof.
  intros Hx Hmine. split; [apply length_alter|].
  intros j y y' Hy Hy'. destruct (decide (k = j)) as [->|Hne].
  - rewrite list_lookup_alter_eq, Hy in Hy'. simplify_eq/=.
    split; [done|]. destruct (is_revealed (state x)) eqn:Hr; auto.
  - rewrite list_lookup_alter_ne in Hy' by done. simplify_eq. auto.
Qed.

Lemma flood_fill_opens_safe fuel b q v b' :
  flood_fill fuel b q v = Ok b' →
  opens_safe (cells b) (cells b') ∧ revealed_count b ≤ revealed_count b'.
Proof.
  revert b q v. induction fuel as [|fuel IH]; intros b [|[c r] q] v Hrun;
    simpl in Hrun; simplify_eq; try (split; [apply opens_safe_refl|lia]).
  case_bool_decide; [by apply IH in Hrun|].
  apply bind_Ok in Hrun as (cell & Hget & Hrun).
  destruct (is_revealed (state cell) || is_flagged (state cell));
    [by apply IH in Hrun|].
  destruct (is_mine (state cell)) eqn:Hmine; [by apply IH in Hrun|].
  apply bind_Ok in Hrun as (cs & Hupd & Hrun).
  assert (opens_safe (cells b) cs) as Hstep.
  { unfold py_get, py_update in *.
    destruct (py_index (cells b) (index b c r)) as [k|]; simpl in *; [|done].
    injection Hupd as <-.
    destruct (cells b !! k) as [x|] eqn:Hx; [|done]. injection Hget as ->.
    by eapply opens_safe_alter. }
  assert (∀ q', flood_fill fuel
            (set_revealed_count (revealed_count b + 1) (set_cells cs b)) q'
            ({[(c, r)]} ∪ v) = Ok b' →
          opens_safe (cells b) (cells b')
          ∧ revealed_count b ≤ revealed_count b') as Hnext.
  { intros q' [Hopen Hcount]%IH. simpl in *.
    split; [by eapply opens_safe_trans|lia]. }
  case_bool_decide; by apply Hnext in Hrun.
Qed.

Lemma check_win_opens_safe b : opens_safe (cells b) (cells (_check_win b)).
Proof.
  rewrite check_win_unfold. destruct (win_condition b); [|apply opens_safe_refl].
  simpl. split; [apply length_fmap|]. intros k x x' Hx Hx'.
  rewrite list_lookup_fmap, Hx in Hx'. simplify_eq/=.
  split; [apply complete_frame|]. unfold complete.
  destruct (is_revealed (state x)) eqn:Hr, (is_mine (state x)) eqn:Hm;
    simpl; auto.
Qed.

(** Between two lists of cells: coordinates, [is_revealed] and
    [is_flagged] are kept, and no mine is removed. *)
Definition adds_mines (l l' : list Cell) : Prop :=
  length l' = length l
  ∧ ∀ k x x', l !! k = Some x → l' !! k = Some x' →
      cell_keep x' = cell_keep x
      ∧ (is_mine (state x) = true → is_mine (state x') = true).

Lemma adds_mines_refl l : adds_mines l l.
Proof. split; [done|]. intros k x x' Hx Hx'. by simplify_eq. Qed.

Lemma adds_mines_trans l1 l2 l3 :
  adds_mines l1 l2 → adds_mines l2 l3 → adds_mines l1 l3.
Proof.
  intros [Hlen12 H12] [Hlen23 H23]. split; [congruence|].
  intros k x1 x3 Hx1 Hx3.
  destruct (lookup_lt_is_Some_2 l2 k) as [x2 Hx2].
  { rewrite Hlen12. by eapply lookup_lt_Some. }
  destruct (H12 k x1 x2 Hx1 Hx2) as [Hk12 Hm12].
  destruct (H23 k x2 x3 Hx2 Hx3) as [Hk23 Hm23].
  split; [congruence|auto].
Qed.

Lemma adds_mines_alter (f : Cell → Cell) l k :
  (∀ x, cell_keep (f x) = cell_keep x
        ∧ (is_mine (state x) = true → is_mine (state (f x)) = true)) →
  adds_mines l (alter f k l).
Proof.
  intros Hf. split; [apply length_alter|].
  intros j y y' Hy Hy'. destruct (decide (k = j)) as [->|Hne].
  - rewrite list_lookup_alter_eq, Hy in Hy'. simplify_eq/=. apply Hf.
  - rewrite list_lookup_alter_ne in Hy' by done. by simplify_eq.
Qed.

Section More.

Variable shuffle : list pos → list pos.

(** The first lines of [reveal]: the placement, if it is due. *)
Definition prepared (b : Board) (c r : Z) (b1 : Board) : Prop :=
  (if negb (_mines_placed b) then place_mines shuffle b c r else Ok b) = Ok b1.

(** The four ways [reveal] returns, with the calls it has made. *)
Inductive reveal_trace (b : Board) (c r : Z) (b' : Board) : Prop :=
| trace_outside :
    is_inbounds b c r = false → b' = b → reveal_trace b c r b'
| trace_ignored b1 cell :
    is_inbounds b c r = true → prepared b c r b1 →
    py_get (cells b1) (index b1 c r) = Ok cell →
    is_revealed (state cell) || is_flagged (state cell) = true →
    b' = b1 → reveal_trace b c r b'
| trace_mine b1 cell :
    is_inbounds b c r = true → prepared b c r b1 →
    py_get (cells b1) (index b1 c r) = Ok cell →
    is_revealed (state cell) || is_flagged (state cell) = false →
    is_mine (state cell) = true →
    b' = _reveal_all_mines (set_game_over true b1) → reveal_trace b c r b'
| trace_flood b1 cell b2 :
    is_inbounds b c r = true → prepared b c r b1 →
    py_get (cells b1) (index b1 c r) = Ok cell →
    is_revealed (state cell) || is_flagged (state cell) = false →
    is_mine (state cell) = false →
    flood_fill (flood_fuel b1) b1 [(c, r)] ∅ = Ok b2 →
    b' = _check_win b2 → reveal_trace b c r b'.

Lemma reveal_Ok_trace b c r b' :
  reveal shuffle b c r = Ok b' → reveal_trace b c r b'.
Proof.
  unfold reveal. intros Hrun.
  destruct (is_inbounds b c r) eqn:Hin; simpl in Hrun;
    [|apply trace_outside; congruence].
  apply bind_Ok in Hrun as (b1 & Hprep & Hrun).
  apply bind_Ok in Hrun as (cell & Hget & Hrun).
  destruct (is_revealed (state cell) || is_flagged (state cell)) eqn:Hrf.
  { eapply trace_ignored; [done..|congruence]. }
  destruct (is_mine (state cell)) eqn:Hmine.
  { eapply trace_mine; [done..|congruence]. }
  apply bind_Ok in Hrun as (b2 & Hflood & Hrun).
  eapply trace_flood; [done..|congruence].
Qed.

(** [place_mines], when it returns, has touched [is_mine] and [adjacent]
    fields only, and has removed no mine. *)
Lemma place_mines_Ok b c r b1 :
  place_mines shuffle b c r = Ok b1 →
  cols b1 = cols b ∧ rows b1 = rows b ∧ num_mines b1 = num_mines b
  ∧ _mines_placed b1 = true ∧ revealed_count b1 = revealed_count b
  ∧ game_over b1 = game_over b ∧ win b1 = win b
  ∧ adds_mines (cells b) (cells b1).
Proof.
  unfold place_mines. intros Hrun.
  apply bind_Ok in Hrun as (cs1 & Hmark & Hrun).
  apply bind_Ok in Hrun as (cs2 & Hadj & Hrun). simplify_eq. simpl.
  split_and!; try done.
  apply adds_mines_trans with cs1.
  - eapply (for_each_related adds_mines); [apply adds_mines_refl
      |apply adds_mines_trans| |done].
    intros cs p cs' (k & ->)%py_update_Ok. by apply adds_mines_alter.
  - eapply (for_each_related adds_mines); [apply adds_mines_refl
      |apply adds_mines_trans| |done].
    intros cs p cs' Hbody. simpl in Hbody.
    apply bind_Ok in Hbody as (cell & _ & Hbody).
    destruct (is_mine (state cell)); simpl in Hbody;
      [simplify_eq; apply adds_mines_refl|].
    apply bind_Ok in Hbody as (n & _ & (k & ->)%py_update_Ok).
    by apply adds_mines_alter.
Qed.

Lemma prepared_Ok b c r b1 :
  prepared b c r b1 →
  cols b1 = cols b ∧ rows b1 = rows b ∧ num_mines b1 = num_mines b
  ∧ revealed_count b1 = revealed_count b
  ∧ game_over b1 = game_over b ∧ win b1 = win b
  ∧ adds_mines (cells b) (cells b1).
Proof.
  unfold prepared. destruct (_mines_placed b); simpl.
  - intros [= <-]. split_and!; try done. apply adds_mines_refl.
  - intros (? & ? & ? & _ & ? & ? & ? & ?)%place_mines_Ok. done.
Qed.

Hypothesis shuffle_perm : ∀ l, shuffle l ≡ₚ l.

Lemma reveal_returns b c r :
  well_formed b → ∃ b', reveal shuffle b c r = Ok b' ∧ well_formed b'.
Proof.
  intros Hwf.
  destruct (reveal_cases shuffle b c r Hwf) as (b' & Hrun & Hcase);
    [intros _; by apply place_mines_runs|].
  exists b'. split; [done|]. by eapply reveal_case_well_formed.
Qed.

Lemma step_returns b k :
  well_formed b → ∃ b', step shuffle b k = Ok b' ∧ well_formed b'.
Proof.
  intros Hwf. destruct k as [c r|c r]; simpl; [by apply reveal_returns|].
  by exists b.
Qed.

(** ** Cells stay revealed *)

(** Between two lists of cells: no revealed cell is hidden again. *)
Definition keeps_shown (l l' : list Cell) : Prop :=
  length l' = length l
  ∧ ∀ k x x', l !! k = Some x → l' !! k = Some x' →
      is_revealed (state x) = true → is_revealed (state x') = true.

Lemma keeps_shown_refl l : keeps_shown l l.
Proof. split; [done|]. intros k x x' Hx Hx'. by simplify_eq. Qed.

Lemma keeps_shown_trans l1 l2 l3 :
  keeps_shown l1 l2 → keeps_shown l2 l3 → keeps_shown l1 l3.
Proof.
  intros [Hlen12 H12] [Hlen23 H23]. split; [congruence|].
  intros k x1 x3 Hx1 Hx3 Hr.
  destruct (lookup_lt_is_Some_2 l2 k) as [x2 Hx2].
  { rewrite Hlen12. by eapply lookup_lt_Some. }
  eauto.
Qed.

Lemma adds_mines_keeps_shown l l' : adds_mines l l' → keeps_shown l l'.
Proof.
  intros [Hlen H]. split; [done|]. intros k x x' Hx Hx' Hr.
  destruct (H k x x' Hx Hx') as [Hkeep _]. unfold cell_keep in Hkeep.
  injection Hkeep as _ _ -> _. done.
Qed.

Lemma opens_safe_keeps_shown l l' : opens_safe l l' → keeps_shown l l'.
Proof.
  intros [Hlen H]. split; [done|]. intros k x x' Hx Hx' Hr.
  destruct (H k x x' Hx Hx') as [_ [->|(? & ? & _)]]; congruence.
Qed.

Lemma show_mines_keeps_shown b :
  keeps_shown (cells b) (cells (_reveal_all_mines b)).
Proof.
  split; [apply length_fmap|]. intros k x x' Hx Hx' Hr. simpl in Hx'.
  rewrite list_lookup_fmap, Hx in Hx'. simplify_eq/=.
  by destruct (is_mine (state x)).
Qed.

Lemma reveal_trace_keeps_shown b c r b' :
  reveal_trace b c r b' →
  revealed_count b ≤ revealed_count b' ∧ keeps_shown (cells b) (cells b').
Proof.
  intros [Hout ->|b1 cell _ Hprep _ _ ->|b1 cell _ Hprep _ _ _ ->
          |b1 cell b2 _ Hprep _ _ _ Hflood ->];
    [split; [lia|apply keeps_shown_refl]|..];
    apply prepared_Ok in Hprep as (_ & _ & _ & Hrc & _ & _ & Hadd);
    apply adds_mines_keeps_shown in Hadd.
  - split; [lia|done].
  - split; [simpl; lia|]. eapply keeps_shown_trans; [done|].
    apply (show_mines_keeps_shown (set_game_over true b1)).
  - apply flood_fill_opens_safe in Hflood as [Hopen Hcount].
    destruct (check_win_scalars b2) as (_ & _ & _ & _ & -> & _).
    split; [lia|]. eapply keeps_shown_trans; [done|].
    eapply keeps_shown_trans; apply opens_safe_keeps_shown;
      [done|apply check_win_opens_safe].
Qed.

(** X1.  Every sequence of calls on a well-formed board returns; it
    never lowers [revealed_count] and never hides a revealed cell. *)
Theorem run_never_hides b ks :
  well_formed b →
  ∃ b', run shuffle b ks = Ok b'
        ∧ revealed_count b ≤ revealed_count b'
        ∧ length (cells b') = length (cells b)
        ∧ ∀ k x x', cells b !! k = Some x → cells b' !! k = Some x' →
            is_revealed (state x) = true → is_revealed (state x') = true.
Proof.
  intros Hwf.
  destruct (run_invariant shuffle
    (λ b', well_formed b' ∧ revealed_count b ≤ revealed_count b'
           ∧ keeps_shown (cells b) (cells b')) b ks)
    as (b' & Hrun & _ & Hcount & Hlen & Hshown).
  - intros b1 k (Hwf1 & Hcount & Hshown).
    destruct (step_returns b1 k Hwf1) as (b2 & Hstep & Hwf2).
    exists b2. split; [done|]. split; [done|].
    destruct k as [c r|c r]; simpl in Hstep.
    + apply reveal_Ok_trace, reveal_trace_keeps_shown in Hstep as [? ?].
      split; [lia|by eapply keeps_shown_trans].
    + unfold toggle_flag in Hstep. by simplify_eq.
  - split_and!; [done|lia|apply keeps_shown_refl].
  - by exists b'.
Qed.

(** ** The flags are latched *)

Lemma reveal_trace_flags b c r b' :
  reveal_trace b c r b' →
  (win b = true → win b' = true)
  ∧ (game_over b = true → game_over b' = true ∧ win b' = win b).
Proof.
  intros [Hout ->|b1 cell _ Hprep _ _ ->|b1 cell _ Hprep _ _ _ ->
          |b1 cell b2 _ Hprep _ _ _ Hflood ->]; [done|..];
    apply prepared_Ok in Hprep as (_ & _ & _ & _ & Hover & Hwin & _).
  - rewrite Hover, Hwin. done.
  - simpl. rewrite Hwin. done.
  - apply flood_fill_flags in Hflood as [Hwin2 Hover2].
    destruct (check_win_scalars b2) as (_ & _ & _ & _ & _ & -> & _).
    rewrite check_win_win, Hwin2, Hover2, Hwin, Hover. split.
    + by intros ->.
    + intros Hlost. split; [done|]. unfold win_condition.
      by rewrite Hover2, Hover, Hlost, andb_false_r, orb_false_r.
Qed.

(** X2.  Every sequence of calls on a well-formed board returns; a
    board that is won stays won, and a board that is lost stays lost
    and keeps its [win] flag: a lost game is never won afterwards. *)
Theorem run_flags_latched b ks :
  well_formed b →
  ∃ b', run shuffle b ks = Ok b'
        ∧ (win b = true → win b' = true)
        ∧ (game_over b = true → game_over b' = true ∧ win b' = win b).
Proof.
  intros Hwf.
  destruct (run_invariant shuffle
    (λ b', well_formed b' ∧ (win b = true → win b' = true)
           ∧ (game_over b = true → game_over b' = true ∧ win b' = win b))
    b ks) as (b' & Hrun & _ & Hwin & Hover).
  - intros b1 k (Hwf1 & Hwin & Hover).
    destruct (step_returns b1 k Hwf1) as (b2 & Hstep & Hwf2).
    exists b2. split; [done|]. split; [done|].
    destruct k as [c r|c r]; simpl in Hstep.
    + apply reveal_Ok_trace, reveal_trace_flags in Hstep as [Hw Ho].
      split; [by auto|]. intros Hlost.
      destruct (Hover Hlost) as [Ho1 Hw1]. destruct (Ho Ho1) as [? ?].
      split; [done|congruence].
    + unfold toggle_flag in Hstep. by simplify_eq.
  - done.
  - by exists b'.
Qed.

(** ** Mines are shown by a loss only *)

(** X3.  [reveal] on a well-formed board returns; if [game_over] is
    false afterwards, the call has revealed no mine: every cell that
    holds a mine afterwards is revealed only if it was before. *)
Theorem reveal_shows_no_mine b c r :
  well_formed b →
  ∃ b', reveal shuffle b c r = Ok b'
        ∧ (game_over b' = false →
           ∀ k x x', cells b !! k = Some x → cells b' !! k = Some x' →
             is_mine (state x') = true →
             is_revealed (state x') = is_revealed (state x)).
Proof.
  intros Hwf. destruct (reveal_returns b c r Hwf) as (b' & Hrun & _).
  exists b'. split; [done|]. intros Hover k x x' Hx Hx' Hmine.
  apply reveal_Ok_trace in Hrun
    as [Hout ->|b1 cell _ Hprep _ _ ->|b1 cell _ Hprep _ _ _ ->
       |b1 cell b2 _ Hprep _ _ _ Hflood ->];
    [congruence|..];
    apply prepared_Ok in Hprep as (_ & _ & _ & _ & _ & _ & [Hlen Hadd]).
  - destruct (Hadd k x x' Hx Hx') as [Hkeep _].
    unfold cell_keep in Hkeep. by injection Hkeep.
  - done.
  - apply flood_fill_opens_safe in Hflood as [Hopen _].
    pose proof (opens_safe_trans _ _ _ Hopen (check_win_opens_safe b2))
      as [Hlen' Hsafe].
    destruct (lookup_lt_is_Some_2 (cells b1) k) as [x1 Hx1].
    { rewrite Hlen. by eapply lookup_lt_Some. }
    destruct (Hadd k x x1 Hx Hx1) as [Hkeep _].
    unfold cell_keep in Hkeep. injection Hkeep as _ _ Hr _.
    destruct (Hsafe k x1 x' Hx1 Hx') as [Hframe [Hsame|(_ & _ & Hm)]];
      [congruence|].
    destruct (cell_frame_eq _ _ Hframe) as (_ & _ & Hm' & _). congruence.
Qed.

End More.

(** ** Coordinates, list positions and neighbours *)

(** X4.  On a well-formed board, [index] maps the coordinates of the
    board one-to-one onto the positions of the list of cells. *)
Theorem index_bijection b :
  well_formed b →
  (∀ c r, is_inbounds b c r = true →
          0 ≤ index b c r < Z.of_nat (length (cells b)))
  ∧ (∀ c r c' r', is_inbounds b c r = true → is_inbounds b c' r' = true →
                  index b c r = index b c' r' → c = c' ∧ r = r')
  ∧ (∀ i, 0 ≤ i < Z.of_nat (length (cells b)) →
          ∃ c r, is_inbounds b c r = true ∧ index b c r = i).
Proof.
  intros Hwf. split_and!.
  - intros c r Hin. apply (index_range b Hwf (c, r) Hin).
  - intros c r c' r' Hin Hin' Heq.
    assert ((c, r) = (c', r')) as [= -> ->]; [|done].
    apply (loc_inj b); [done..|]. unfold loc. simpl. by rewrite Heq.
  - intros i Hi. destruct (loc_surj b (Z.to_nat i) Hwf) as ([c r] & Hin & Hloc);
      [lia|].
    exists c, r. split; [done|].
    pose proof (index_range b Hwf (c, r) Hin). unfold loc in Hloc.
    simpl in *. lia.
Qed.

Lemma row_bind (l : list Z) (m : Z) :
  (c ← l; [(c, m)]) = (λ c, (c, m)) <$> l.
Proof. induction l as [|x l IH]; [done|]. rewrite bind_cons, IH. done. Qed.

Lemma rows_lookup ncols (n : nat) m c r :
  0 ≤ c < ncols → 0 ≤ r < Z.of_nat n →
  (r' ← seqZ m (Z.of_nat n); c' ← seqZ 0 ncols; [(c', r')])
    !! Z.to_nat (r * ncols + c) = Some (c, m + r).
Proof.
  revert m r. induction n as [|n IH]; intros m r Hc Hr; [lia|].
  rewrite (seqZ_cons m) by lia. rewrite bind_cons, row_bind.
  replace (Z.pred (Z.of_nat (S n))) with (Z.of_nat n) by lia.
  destruct (decide (r = 0)) as [->|Hne].
  - rewrite lookup_app_l by (rewrite length_fmap, length_seqZ; lia).
    rewrite list_lookup_fmap, lookup_seqZ_lt by lia. simpl.
    do 3 f_equal; lia.
  - rewrite lookup_app_r by (rewrite length_fmap, length_seqZ; nia).
    rewrite length_fmap, length_seqZ.
    replace (Z.to_nat (r * ncols + c) - Z.to_nat ncols)%nat
      with (Z.to_nat ((r - 1) * ncols + c)) by nia.
    rewrite IH by lia. do 2 f_equal. lia.
Qed.

Lemma grid_lookup ncols nrows c r :
  0 ≤ c < ncols → 0 ≤ r < nrows →
  grid ncols nrows !! Z.to_nat (r * ncols + c) = Some (c, r).
Proof.
  intros Hc Hr. unfold grid, range.
  replace nrows with (Z.of_nat (Z.to_nat nrows)) by lia.
  rewrite rows_lookup by lia. done.
Qed.

(** X5.  The constructor stores the cell of each coordinate at the list
    position [index] gives: on a new board, [cells[index(c, r)]] is the
    default cell [Cell(c, r)]. *)
Theorem Board_init_layout ncols nrows mines c r :
  is_inbounds (Board_init ncols nrows mines) c r = true →
  py_get (cells (Board_init ncols nrows mines))
         (index (Board_init ncols nrows mines) c r)
  = Ok (Cell_init c r).
Proof.
  intros Hin. apply (inb_iff _ (c, r)) in Hin as [Hc Hr]. simpl in *.
  apply py_get_inrange; [unfold index; simpl; nia|].
  unfold index. simpl. by rewrite list_lookup_fmap, grid_lookup.
Qed.

Lemma elem_of_deltas (d : pos) :
  d ∈ deltas ↔ -1 ≤ d.1 ≤ 1 ∧ -1 ≤ d.2 ≤ 1 ∧ d ≠ (0, 0).
Proof.
  destruct d as [dc dr]. unfold deltas. simpl. split.
  - rewrite !elem_of_cons, elem_of_nil.
    intros H. repeat destruct H as [H|H]; try done;
      injection H as -> ->; split_and!; (lia || done).
  - intros (Hc & Hr & Hne).
    assert (dc = -1 ∨ dc = 0 ∨ dc = 1) as Hdc by lia.
    assert (dr = -1 ∨ dr = 0 ∨ dr = 1) as Hdr by lia.
    destruct Hdc as [-> | [-> | ->]], Hdr as [-> | [-> | ->]];
      try done; rewrite !elem_of_cons; tauto.
Qed.

Lemma elem_of_neighbors b c r (p : pos) :
  p ∈ neighbors b c r ↔
    is_inbounds b p.1 p.2 = true ∧ p ≠ (c, r)
    ∧ -1 ≤ p.1 - c ≤ 1 ∧ -1 ≤ p.2 - r ≤ 1.
Proof.
  unfold neighbors.
  rewrite list_elem_of_filter, list_elem_of_fmap. split.
  - intros [Hin (d & -> & (Hc & Hr & Hne)%elem_of_deltas)].
    simpl in *. split_and!; [done| |lia..].
    intros [= H1 H2]. apply Hne. destruct d. f_equal; simpl in *; lia.
  - intros (Hin & Hne & Hc & Hr). split; [done|].
    exists (p.1 - c, p.2 - r). split.
    + destruct p. simpl. f_equal; lia.
    + apply elem_of_deltas. simpl. split_and!; [lia..|].
      intros [= H1 H2]. apply Hne. destruct p. f_equal; simpl in *; lia.
Qed.

(** X6.  [neighbors(c, r)] lists, without repetition, exactly the
    coordinates of the board other than [(c, r)] that are at most one
    column and one row away from it; there are at most eight. *)
Theorem neighbors_spec b c r :
  NoDup (neighbors b c r) ∧ (length (neighbors b c r) ≤ 8)%nat
  ∧ ∀ p, p ∈ neighbors b c r ↔
         is_inbounds b p.1 p.2 = true ∧ p ≠ (c, r)
         ∧ -1 ≤ p.1 - c ≤ 1 ∧ -1 ≤ p.2 - r ≤ 1.
Proof.
  split_and!; [|apply neighbors_length|apply elem_of_neighbors].
  unfold neighbors. apply NoDup_filter, NoDup_fmap_2_strong.
  - intros [a1 a2] [b1 b2] _ _ [= H1 H2]. simpl in *. f_equal; lia.
  - unfold deltas. by_evaluation.
Qed.

(** X7.  Being a neighbour is symmetric between coordinates of the board. *)
Theorem neighbors_sym b c r c' r' :
  is_inbounds b c r = true →
  (c', r') ∈ neighbors b c r → (c, r) ∈ neighbors b c' r'.
Proof.
  intros Hin Hnb.
  apply elem_of_neighbors in Hnb as (Hin' & Hne & Hc & Hr).
  apply elem_of_neighbors. simpl in *.
  split_and!; [done| |lia..]. intros [= H1 H2]. apply Hne. f_equal; lia.
Qed.

(** ** Adjacency counts *)

(** Whether the cell at [q] holds a mine, and the number of neighbours
    of [p] that do. *)
Definition mine_at (b : Board) (q : pos) : bool :=
  match cell_at b q with
  | Some x => is_mine (state x)
  | None => false
  end.

Definition mines_around (b : Board) (p : pos) : nat :=
  countb (mine_at b) (neighbors b p.1 p.2).

(** Every cell without a mine carries the number of mines around it. *)
Definition adjacency_right (b : Board) : Prop :=
  ∀ p x, inb b p → cell_at b p = Some x → is_mine (state x) = false →
         adjacent (state x) = Z.of_nat (mines_around b p).

Lemma countb_ext {A} (f g : A → bool) (l : list A) :
  (∀ x, x ∈ l → f x = g x) → countb f l = countb g l.
Proof.
  induction l as [|x l IH]; intros Hfg; [done|].
  rewrite !countb_cons, Hfg, IH; [done| |left].
  intros y Hy. apply Hfg. by right.
Qed.

(** A loop whose invariant speaks of the elements already visited. *)
Lemma for_each_prefix {A S} (I : list A → S → Prop) (P : A → Prop)
    (body : S → A → result S) xs s :
  I [] s →
  (∀ seen x s, I seen s → P x → ∃ s', body s x = Ok s' ∧ I (seen ++ [x]) s') →
  Forall P xs → ∃ s', for_each body xs s = Ok s' ∧ I xs s'.
Proof.
  intros Hstart Hbody Hxs.
  assert (∀ seen s, I seen s →
          ∃ s', for_each body xs s = Ok s' ∧ I (seen ++ xs) s') as Hgen.
  { induction Hxs as [|x xs Hx _ IH]; intros seen s1 Hs1; simpl.
    - exists s1. by rewrite app_nil_r.
    - destruct (Hbody seen x s1 Hs1 Hx) as (s2 & -> & Hs2). simpl.
      destruct (IH (seen ++ [x]) s2 Hs2) as (s3 & Hrun & Hs3).
      exists s3. split; [done|]. by rewrite <-app_assoc in Hs3. }
  by apply (Hgen []).
Qed.

Section Adjacency.

Variable b : Board.
Hypothesis Hwf : well_formed b.

(** Whether the cell of [cs] stored for [q] holds a mine. *)
Definition mine_in (cs : list Cell) (q : pos) : bool :=
  match cs !! loc b q with
  | Some x => is_mine (state x)
  | None => false
  end.

Lemma count_adjacent_mines_value cs c r :
  length cs = length (cells b) →
  count_adjacent_mines b cs c r
  = Ok (Z.of_nat (countb (mine_in cs) (neighbors b c r))).
Proof.
  intros Hlen. unfold count_adjacent_mines.
  assert (∀ l acc, Forall (inb b) l →
    for_each
      (λ adjacent_mines p,
         ncell ←! py_get cs (index b p.1 p.2);
         Ok (if is_mine (state ncell) then adjacent_mines + 1
             else adjacent_mines)) l acc
    = Ok (acc + Z.of_nat (countb (mine_in cs) l))) as Hgen.
  { intros l acc Hl. revert acc.
    induction Hl as [|p l Hp _ IH]; intros acc; simpl.
    - f_equal. rewrite countb_nil. lia.
    - pose proof (index_range b Hwf p Hp) as Hidx.
      destruct (lookup_lt_is_Some_2 cs (loc b p)) as [x Hx];
        [unfold loc; lia|].
      rewrite (py_get_inrange _ _ x) by (done || lia). simpl.
      rewrite IH, countb_cons. unfold mine_in at 2. rewrite Hx.
      f_equal. destruct (is_mine (state x)); lia. }
  rewrite Hgen; [done|]. apply Forall_forall. intros p. apply neighbors_inb.
Qed.

(** The second loop of [place_mines] returns; it keeps the mines where
    they are and gives every cell without a mine the number of mines
    around it. *)
Lemma adjacency_loop_counts cs :
  length cs = length (cells b) →
  ∃ cs', for_each
           (λ cs p,
              cell ←! py_get cs (index b p.1 p.2);
              if negb (is_mine (state cell)) then
                adjacent_mines ←! count_adjacent_mines b cs p.1 p.2;
                py_update (set_adjacent adjacent_mines) cs (index b p.1 p.2)
              else Ok cs)
           (grid (cols b) (rows b)) cs = Ok cs'
         ∧ length cs' = length cs
         ∧ (∀ q, mine_in cs' q = mine_in cs q)
         ∧ ∀ p x, inb b p → cs' !! loc b p = Some x →
             is_mine (state x) = false →
             adjacent (state x)
             = Z.of_nat (countb (mine_in cs) (neighbors b p.1 p.2)).
Proof.
  intros Hlen.
  destruct (for_each_prefix
    (λ seen cs1,
       length cs1 = length cs
       ∧ (∀ q, mine_in cs1 q = mine_in cs q)
       ∧ ∀ p x, inb b p → p ∈ seen → cs1 !! loc b p = Some x →
           is_mine (state x) = false →
           adjacent (state x)
           = Z.of_nat (countb (mine_in cs) (neighbors b p.1 p.2)))
    (inb b)
    (λ cs p,
       cell ←! py_get cs (index b p.1 p.2);
       if negb (is_mine (state cell)) then
         adjacent_mines ←! count_adjacent_mines b cs p.1 p.2;
         py_update (set_adjacent adjacent_mines) cs (index b p.1 p.2)
       else Ok cs)
    (grid (cols b) (rows b)) cs) as (cs' & Hrun & Hlen' & Hmines & Hadj).
  - split_and!; [done..|]. intros p x _ Hp. by apply elem_of_nil in Hp.
  - intros seen p0 cs1 (Hlen1 & Hmines1 & Hadj1) Hp0.
    pose proof (index_range b Hwf p0 Hp0) as Hidx.
    destruct (lookup_lt_is_Some_2 cs1 (loc b p0)) as [x0 Hx0];
      [unfold loc; lia|].
    rewrite (py_get_inrange _ _ x0) by (done || lia). simpl.
    destruct (is_mine (state x0)) eqn:Hm0; simpl.
    + exists cs1. split; [done|]. split_and!; [done..|].
      intros p x Hp [Hseen | ->%list_elem_of_singleton]%elem_of_app Hx Hm;
        [by eauto|congruence].
    + rewrite count_adjacent_mines_value by congruence. simpl.
      rewrite py_update_inrange by lia. fold (loc b p0).
      eexists. split; [done|]. split_and!.
      * by rewrite length_alter.
      * intros q. rewrite <-Hmines1. unfold mine_in.
        destruct (decide (loc b p0 = loc b q)) as [Heq|Hne].
        -- rewrite <-Heq, list_lookup_alter_eq. by destruct (cs1 !! loc b p0).
        -- by rewrite list_lookup_alter_ne.
      * intros p x Hp Hseen Hx Hm.
        destruct (decide (loc b p0 = loc b p)) as [Heq|Hne].
        -- apply (loc_inj b) in Heq as ->; [|done..].
           rewrite list_lookup_alter_eq, Hx0 in Hx. simplify_eq/=.
           f_equal. apply countb_ext. by intros q _.
        -- rewrite list_lookup_alter_ne in Hx by done.
           apply elem_of_app in Hseen as [Hseen | ->%list_elem_of_singleton];
             [by eauto|done].
  - apply Forall_forall. intros p. apply inb_grid.
  - exists cs'. split_and!; [done..|].
    intros p x Hp. apply Hadj; [done|by apply inb_grid].
Qed.

End Adjacency.

Lemma flood_fill_dims fuel b q v b' :
  flood_fill fuel b q v = Ok b' →
  cols b' = cols b ∧ rows b' = rows b ∧ num_mines b' = num_mines b
  ∧ _mines_placed b' = _mines_placed b.
Proof.
  revert b q v. induction fuel as [|fuel IH]; intros b [|[c r] q] v Hrun;
    simpl in Hrun; simplify_eq; try done.
  case_bool_decide; [by apply IH in Hrun|].
  apply bind_Ok in Hrun as (cell & _ & Hrun).
  destruct (is_revealed (state cell) || is_flagged (state cell));
    [by apply IH in Hrun|].
  destruct (is_mine (state cell)); [by apply IH in Hrun|].
  apply bind_Ok in Hrun as (cs & _ & Hrun).
  case_bool_decide; by apply IH in Hrun.
Qed.

(** Boards of the same size whose cells have the same frame agree on
    the adjacency counts. *)
Lemma adjacency_right_frame b b' :
  cols b' = cols b → rows b' = rows b →
  length (cells b') = length (cells b) →
  (∀ k x x', cells b !! k = Some x → cells b' !! k = Some x' →
             cell_frame x' = cell_frame x) →
  adjacency_right b → adjacency_right b'.
Proof.
  intros Hcols Hrows Hlen Hframe Hright p x' Hp Hx' Hmine.
  unfold cell_at in Hx'. rewrite (loc_same_cols b' b) in Hx' by done.
  destruct (lookup_lt_is_Some_2 (cells b) (loc b p)) as [x Hx].
  { rewrite <-Hlen. by eapply lookup_lt_Some. }
  destruct (cell_frame_eq _ _ (Hframe _ _ _ Hx Hx')) as (_ & _ & Hm & _ & ->).
  rewrite (Hright p x); [|by apply (inb_same_dims b b')|done|congruence].
  f_equal. unfold mines_around.
  rewrite (neighbors_same_dims b' b) by done.
  apply countb_ext. intros q _. unfold mine_at, cell_at.
  rewrite (loc_same_cols b' b) by done.
  destruct (cells b !! loc b q) as [y|] eqn:Hy,
           (cells b' !! loc b q) as [y'|] eqn:Hy'; try done.
  - by destruct (cell_frame_eq _ _ (Hframe _ _ _ Hy Hy')) as (_ & _ & ? & _).
  - apply lookup_lt_Some in Hy. apply lookup_ge_None in Hy'. lia.
  - apply lookup_lt_Some in Hy'. apply lookup_ge_None in Hy. lia.
Qed.

Section Counts.

Variable shuffle : list pos → list pos.
Hypothesis shuffle_perm : ∀ l, shuffle l ≡ₚ l.

Lemma place_mines_counts b sc sr :
  well_formed b →
  ∃ b', place_mines shuffle b sc sr = Ok b' ∧ adjacency_right b'.
Proof.
  intros Hwf. unfold place_mines.
  fold (forbidden_zone b sc sr). fold (mine_positions shuffle b sc sr).
  assert (Forall (inb b) (mine_positions shuffle b sc sr)) as Hps.
  { apply Forall_forall. by intros p [Hp _]%mine_positions_pool. }
  rewrite (mine_loop_runs b Hwf _ _ eq_refl Hps). simpl.
  destruct (adjacency_loop_counts b Hwf
              (mark_mines b (mine_positions shuffle b sc sr) (cells b)))
    as (cs & Hrun & Hlen & Hmines & Hadj); [apply mark_mines_length|].
  rewrite Hrun. simpl. eexists. split; [done|].
  intros p cell Hin Hcell Hmine.
  rewrite (Hadj p cell Hin Hcell Hmine). f_equal.
  apply countb_ext. intros q _. by rewrite <-Hmines.
Qed.

(** X8.  On a well-formed board [place_mines] returns, and afterwards
    every cell of the board without a mine has for [adjacent] the number
    of its neighbours that hold a mine, a number between 0 and 8. *)
Theorem place_mines_adjacency b sc sr :
  well_formed b →
  ∃ b', place_mines shuffle b sc sr = Ok b'
        ∧ ∀ c r cell, is_inbounds b' c r = true →
            cell_at b' (c, r) = Some cell → is_mine (state cell) = false →
            adjacent (state cell) = Z.of_nat (mines_around b' (c, r))
            ∧ 0 ≤ adjacent (state cell) ≤ 8.
Proof.
  intros Hwf. destruct (place_mines_counts b sc sr Hwf) as (b' & Hrun & Hadj).
  exists b'. split; [done|]. intros c r cell Hin Hcell Hmine.
  rewrite (Hadj (c, r) cell Hin Hcell Hmine). split; [done|].
  unfold mines_around.
  pose proof (countb_le_length (mine_at b') (neighbors b' c r)).
  pose proof (neighbors_length b' c r). simpl in *. lia.
Qed.

Lemma place_mines_adjacency_right b sc sr b' :
  well_formed b → place_mines shuffle b sc sr = Ok b' → adjacency_right b'.
Proof.
  intros Hwf Hrun.
  destruct (place_mines_counts b sc sr Hwf) as (b1 & Hrun1 & Hadj).
  by assert (b1 = b') as <- by congruence.
Qed.

Lemma reveal_trace_adjacency b c r b' :
  well_formed b → reveal_trace shuffle b c r b' →
  (_mines_placed b = true → adjacency_right b) →
  _mines_placed b' = true → adjacency_right b'.
Proof.
  intros Hwf Htrace Hright Hplaced.
  assert (∀ b1, prepared shuffle b c r b1 → adjacency_right b1) as Hprep1.
  { intros b1. unfold prepared. destruct (_mines_placed b); simpl.
    - intros [= <-]. by apply Hright.
    - by apply place_mines_adjacency_right. }
  destruct Htrace as [Hout ->|b1 cell _ Hprep _ _ ->|b1 cell _ Hprep _ _ _ ->
          |b1 cell b2 _ Hprep _ _ _ Hflood ->]; [by auto|by auto|..].
  - destruct (reveal_all_mines_scalars (set_game_over true b1))
      as (Hc & Hr & _ & _ & _ & _ & _ & Hlen & _).
    eapply (adjacency_right_frame b1); [done..| |by auto].
    intros k x x' Hx Hx'. simpl in Hx'.
    rewrite list_lookup_fmap, Hx in Hx'. simplify_eq/=. apply show_mine_frame.
  - destruct (flood_fill_dims _ _ _ _ _ Hflood) as (Hc & Hr & _).
    apply flood_fill_opens_safe in Hflood as [Hopen _].
    pose proof (opens_safe_trans _ _ _ Hopen (check_win_opens_safe b2))
      as [Hlen Hsafe].
    destruct (check_win_scalars b2) as (Hc' & Hr' & _).
    eapply (adjacency_right_frame b1); [congruence..| |by auto].
    intros k x x' Hx Hx'. by destruct (Hsafe k x x' Hx Hx').
Qed.

(** X9.  On every board a sequence of calls builds from a new board,
    once the mines are placed, every cell of the board without a mine
    has for [adjacent] the number of its neighbours that hold a mine. *)
Theorem run_adjacency ncols nrows mines ks :
  ∃ b, run shuffle (Board_init ncols nrows mines) ks = Ok b
       ∧ (_mines_placed b = true →
          ∀ c r cell, is_inbounds b c r = true →
            cell_at b (c, r) = Some cell → is_mine (state cell) = false →
            adjacent (state cell) = Z.of_nat (mines_around b (c, r))).
Proof.
  destruct (run_invariant shuffle
    (λ b, well_formed b ∧ (_mines_placed b = true → adjacency_right b))
    (Board_init ncols nrows mines) ks) as (b & Hrun & _ & Hright).
  - intros b k [Hwf Hright].
    destruct (step_returns shuffle shuffle_perm b k Hwf) as (b' & Hstep & Hwf').
    exists b'. split; [done|]. split; [done|].
    destruct k as [c r|c r]; simpl in Hstep.
    + apply reveal_Ok_trace in Hstep.
      by apply (reveal_trace_adjacency b c r b').
    + unfold toggle_flag in Hstep. by simplify_eq.
  - split; [apply Board_init_well_formed|done].
  - exists b. split; [done|]. intros Hplaced c r cell Hin Hcell Hmine.
    by apply (Hright Hplaced (c, r)).
Qed.

(** ** Cells keep their coordinates *)

Lemma reveal_trace_coords b c r b' :
  reveal_trace shuffle b c r b' →
  cols b' = cols b ∧ rows b' = rows b
  ∧ length (cells b') = length (cells b)
  ∧ ∀ k x x', cells b !! k = Some x → cells b' !! k = Some x' →
      col x' = col x ∧ row x' = row x.
Proof.
  intros Htrace.
  assert (∀ b1, prepared shuffle b c r b1 →
    cols b1 = cols b ∧ rows b1 = rows b
    ∧ length (cells b1) = length (cells b)
    ∧ ∀ k x x', cells b !! k = Some x → cells b1 !! k = Some x' →
        col x' = col x ∧ row x' = row x) as Hprep1.
  { intros b1 (Hc & Hr & _ & _ & _ & _ & Hlen & Hadd)%prepared_Ok.
    split_and!; [done..|]. intros k x x' Hx Hx'.
    destruct (Hadd k x x' Hx Hx') as [Hkeep _]. unfold cell_keep in Hkeep.
    by injection Hkeep. }
  destruct Htrace as [Hout ->|b1 cell _ Hprep _ _ ->|b1 cell _ Hprep _ _ _ ->
          |b1 cell b2 _ Hprep _ _ _ Hflood ->];
    [split_and!; try done; intros k x x' Hx Hx'; by simplify_eq
    |by auto|..];
    destruct (Hprep1 b1 Hprep) as (Hc1 & Hr1 & Hlen1 & Hxy1).
  - simpl. split_and!; [done..|by rewrite length_fmap|].
    intros k x x' Hx Hx'. rewrite list_lookup_fmap in Hx'.
    destruct (cells b1 !! k) as [x1|] eqn:Hx1; [|done]. simplify_eq/=.
    destruct (Hxy1 k x x1 Hx Hx1) as [<- <-].
    by destruct (cell_frame_eq _ _ (show_mine_frame x1)) as (? & ? & _).
  - destruct (flood_fill_dims _ _ _ _ _ Hflood) as (Hc & Hr & _).
    apply flood_fill_opens_safe in Hflood as [Hopen _].
    pose proof (opens_safe_trans _ _ _ Hopen (check_win_opens_safe b2))
      as [Hlen Hsafe].
    destruct (check_win_scalars b2) as (Hc' & Hr' & _).
    split_and!; [congruence..|]. intros k x x' Hx Hx'.
    destruct (lookup_lt_is_Some_2 (cells b1) k) as [x1 Hx1].
    { rewrite Hlen1. by eapply lookup_lt_Some. }
    destruct (Hxy1 k x x1 Hx Hx1) as [<- <-].
    destruct (Hsafe k x1 x' Hx1 Hx') as [Hframe _].
    by destruct (cell_frame_eq _ _ Hframe) as (? & ? & _).
Qed.

(** X10.  On every board a sequence of calls builds from a new board,
    the cell stored at [index(c, r)] carries the coordinates [c] and
    [r] in its fields [col] and [row]. *)
Theorem run_coordinates ncols nrows mines ks :
  ∃ b, run shuffle (Board_init ncols nrows mines) ks = Ok b
       ∧ ∀ c r, is_inbounds b c r = true →
           ∃ cell, py_get (cells b) (index b c r) = Ok cell
                   ∧ col cell = c ∧ row cell = r.
Proof.
  set (b0 := Board_init ncols nrows mines).
  destruct (run_invariant shuffle
    (λ b, well_formed b ∧ cols b = ncols ∧ rows b = nrows
          ∧ length (cells b) = length (cells b0)
          ∧ ∀ k x x', cells b0 !! k = Some x → cells b !! k = Some x' →
              col x' = col x ∧ row x' = row x) b0 ks)
    as (b & Hrun & Hwf & Hc & Hr & Hlen & Hxy).
  - intros b k (Hwf & Hc & Hr & Hlen & Hxy).
    destruct (step_returns shuffle shuffle_perm b k Hwf) as (b' & Hstep & Hwf').
    exists b'. split; [done|]. split; [done|].
    destruct k as [c r|c r]; simpl in Hstep.
    + apply reveal_Ok_trace, reveal_trace_coords in Hstep
        as (Hc' & Hr' & Hlen' & Hxy').
      split_and!; [congruence..|]. intros k x x' Hx Hx'.
      destruct (lookup_lt_is_Some_2 (cells b) k) as [x1 Hx1].
      { rewrite Hlen. by eapply lookup_lt_Some. }
      destruct (Hxy k x x1 Hx Hx1) as [<- <-]. by apply (Hxy' k).
    + unfold toggle_flag in Hstep. by simplify_eq.
  - split_and!; [apply Board_init_well_formed|done..|].
    intros k x x' Hx Hx'. by simplify_eq.
  - exists b. split; [done|]. intros c r Hin.
    destruct (cell_at_is_Some b Hwf (c, r) Hin) as [cell Hcell].
    exists cell. split; [by apply (py_get_cell b Hwf (c, r))|].
    apply (inb_iff b (c, r)) in Hin as [Hcb Hrb]. simpl in *.
    apply (Hxy (loc b (c, r)) (Cell_init c r)); [|done].
    unfold loc, index. simpl. rewrite Hc, list_lookup_fmap, grid_lookup by lia.
    done.
Qed.

(** ** Calls that change nothing *)

Lemma reveal_ignored_eq b c r cell :
  well_formed b → is_inbounds b c r = true → _mines_placed b = true →
  cell_at b (c, r) = Some cell →
  is_revealed (state cell) || is_flagged (state cell) = true →
  reveal shuffle b c r = Ok b.
Proof.
  intros Hwf Hin Hplaced Hcell Hrf. unfold reveal.
  rewrite Hin, Hplaced. simpl.
  pose proof (py_get_cell b Hwf (c, r) cell Hin Hcell) as Hget.
  simpl in Hget. rewrite Hget. simpl. by rewrite Hrf.
Qed.

(** X11.  [reveal] leaves the board exactly as it is when the coordinate
    is outside the board, and, on a well-formed board whose mines are
    placed, when the target is already revealed or carries a flag. *)
Theorem reveal_noop b c r :
  (is_inbounds b c r = false → reveal shuffle b c r = Ok b)
  ∧ (well_formed b → _mines_placed b = true →
     ∀ cell, is_inbounds b c r = true → cell_at b (c, r) = Some cell →
       is_revealed (state cell) = true ∨ is_flagged (state cell) = true →
       reveal shuffle b c r = Ok b).
Proof.
  split.
  - intros Hout. unfold reveal. by rewrite Hout.
  - intros Hwf Hplaced cell Hin Hcell Hrf.
    apply (reveal_ignored_eq b c r cell); [done..|].
    apply orb_true_iff. done.
Qed.

Lemma ready_placed b c r b1 : ready shuffle b c r b1 → _mines_placed b1 = true.
Proof.
  unfold ready. destruct (_mines_placed b) eqn:Hp; [by intros ->|].
  intros Hpl. apply Hpl.
Qed.

(** X12.  Revealing the same coordinate twice is revealing it once: on
    a well-formed board [reveal] returns, and calling it again with the
    same coordinate returns the same board. *)
Theorem reveal_idempotent b c r :
  well_formed b →
  ∃ b', reveal shuffle b c r = Ok b' ∧ reveal shuffle b' c r = Ok b'.
Proof.
  intros Hwf.
  destruct (reveal_cases shuffle b c r Hwf) as (b' & Hrun & Hcase);
    [intros _; by apply place_mines_runs|].
  exists b'. split; [done|].
  pose proof (reveal_case_well_formed _ _ _ _ _ Hwf Hcase) as Hwf'.
  destruct (reveal_case_frame _ _ _ _ _ Hcase)
    as [[_ ->]|(b1 & Hin & Hready & Hcols & Hrows & _ & Hpl & Hlen & _)];
    [done|].
  destruct (ready_dims _ _ _ _ _ Hready) as [Hc1 Hr1].
  assert (is_inbounds b' c r = true) as Hin'.
  { apply (inb_same_dims b' b (c, r)); [congruence..|done]. }
  assert (_mines_placed b' = true) as Hplaced'.
  { rewrite Hpl. by eapply ready_placed. }
  destruct (cell_at_is_Some b' Hwf' (c, r) Hin') as [cell' Hcell'].
  apply (reveal_ignored_eq b' c r cell'); [done..|].
  destruct Hcase as [Hout ->|b2 cell _ _ Hcell Hrf ->
          |b2 cell _ _ Hcell Hrf Hmine ->
          |b2 cell b3 _ _ Hcell Hrf Hmine Hpost ->].
  - unfold inb in Hin. simpl in Hin. congruence.
  - congruence.
  - unfold cell_at in *. simpl in Hcell'.
    change (loc (_reveal_all_mines (set_game_over true b2)) (c, r))
      with (loc b2 (c, r)) in Hcell'.
    rewrite list_lookup_fmap, Hcell in Hcell'. simplify_eq/=.
    by rewrite Hmine.
  - assert (flooded b2 (c, r) (c, r)) as Hflood.
    { split; [|by left]. by rewrite (openb_cell _ _ _ Hcell), Hrf, Hmine. }
    apply (fp_newly _ _ _ Hpost) in Hflood as (_ & x0 & x1 & _ & Hx1 & _ & Hshown).
    destruct (opens_safe_keeps_shown _ _ (check_win_opens_safe b3))
      as [_ Hkeep].
    unfold cell_at in *.
    rewrite (loc_same_cols (_check_win b3) b3) in Hcell'
      by apply check_win_scalars.
    by rewrite (Hkeep _ _ _ Hx1 Hcell' Hshown).
Qed.

(** ** What the placement leaves alone *)

(** X13.  On a well-formed board [place_mines] returns with
    [_mines_placed] set; it keeps the size of the board, [num_mines],
    [revealed_count], [game_over] and [win]; it keeps every cell's
    coordinates, [is_revealed] and [is_flagged]; it removes no mine, and
    it adds none on the anchor or on a neighbour of the anchor. *)
Theorem place_mines_frame b sc sr :
  well_formed b →
  ∃ b', place_mines shuffle b sc sr = Ok b'
        ∧ _mines_placed b' = true
        ∧ cols b' = cols b ∧ rows b' = rows b ∧ num_mines b' = num_mines b
        ∧ revealed_count b' = revealed_count b
        ∧ game_over b' = game_over b ∧ win b' = win b
        ∧ length (cells b') = length (cells b)
        ∧ (∀ k x x', cells b !! k = Some x → cells b' !! k = Some x' →
             col x' = col x ∧ row x' = row x
             ∧ is_revealed (state x') = is_revealed (state x)
             ∧ is_flagged (state x') = is_flagged (state x)
             ∧ (is_mine (state x) = true → is_mine (state x') = true))
        ∧ ∀ p x x', p = (sc, sr) ∨ p ∈ neighbors b sc sr →
            is_inbounds b p.1 p.2 = true →
            cell_at b p = Some x → cell_at b' p = Some x' →
            is_mine (state x') = is_mine (state x).
Proof.
  intros Hwf.
  destruct (place_mines_runs shuffle shuffle_perm b sc sr Hwf)
    as (b' & Hrun & Hpl).
  exists b'. split; [done|].
  destruct (place_mines_Ok shuffle _ _ _ _ Hrun)
    as (Hc & Hr & Hn & Hp & Hrc & Hover & Hwin & Hlen & Hadd).
  split_and!; [done..| |].
  - intros k x x' Hx Hx'. destruct (Hadd k x x' Hx Hx') as [Hkeep Hmine].
    unfold cell_keep in Hkeep. injection Hkeep as -> -> -> ->. done.
  - intros p x x' Hp' Hin Hx Hx'.
    apply (placed_safe_zone shuffle shuffle_perm b sc sr b' p x x');
      [done..| |done|done].
    unfold forbidden_zone. set_solver.
Qed.

(** ** Mine counts outside the valid range *)

Lemma py_slice_to_length_gen {A} (l : list A) n :
  Z.of_nat (length (py_slice_to l n))
  = if bool_decide (0 ≤ n) then Z.min n (Z.of_nat (length l))
    else Z.max 0 (Z.of_nat (length l) + n).
Proof.
  unfold py_slice_to. case_bool_decide; rewrite length_take; lia.
Qed.

(** X14.  On a new board [place_mines] returns, and the number of mines
    it places is: [mines] when [0 <= mines] and the pool (the
    coordinates of the board outside the safe zone) has that many cells;
    the size of the pool when [mines] exceeds it; and, when [mines] is
    negative, the size of the pool plus [mines] (the slice
    [pool[:mines]]), or none when that is negative too. *)
Theorem place_mines_count ncols nrows mines sc sr :
  ∃ b1, place_mines shuffle (Board_init ncols nrows mines) sc sr = Ok b1
        ∧ Z.of_nat (mine_count b1)
          = let room :=
              Z.of_nat (length (pool (Board_init ncols nrows mines) sc sr)) in
            if bool_decide (0 ≤ mines) then Z.min mines room
            else Z.max 0 (room + mines).
Proof.
  set (b0 := Board_init ncols nrows mines).
  pose proof (Board_init_well_formed ncols nrows mines) as Hwf. fold b0 in Hwf.
  destruct (place_mines_runs shuffle shuffle_perm b0 sc sr Hwf)
    as (b1 & Hrun & Hpl).
  exists b1. split; [done|]. unfold mine_count.
  change (λ c, is_mine (state c))
    with (fst ∘ (λ c, (is_mine (state c), cell_keep c))).
  rewrite <-countb_fmap, (pl_cells _ _ _ _ _ Hpl), countb_fmap.
  change (fst ∘ (λ c, (is_mine (state c), cell_keep c)))
    with (λ c, is_mine (state c)).
  rewrite mark_mines_count.
  - rewrite countb_all_false.
    + rewrite Nat.add_0_l, mine_positions_eq, py_slice_to_length_gen.
      by rewrite (Permutation_length (shuffle_perm (pool b0 sc sr))).
    + intros cell Hcell. by rewrite (Board_init_fresh _ _ _ _ Hcell).
  - by apply mine_positions_locs_NoDup.
  - intros p [Hp _]%mine_positions_pool; [|done].
    destruct (cell_at_is_Some b0 Hwf p Hp) as [x Hx]. exists x.
    split; [done|]. apply list_elem_of_lookup_2 in Hx.
    by rewrite (Board_init_fresh _ _ _ _ Hx).
Qed.

(** ** The first reveal opens the safe zone *)

(** X15.  On a new board, [reveal] on a cell of the board returns with
    the target and every neighbour of the target revealed, whatever the
    mine count. *)
Theorem first_reveal_opens_zone ncols nrows mines c r :
  is_inbounds (Board_init ncols nrows mines) c r = true →
  ∃ b', reveal shuffle (Board_init ncols nrows mines) c r = Ok b'
        ∧ ∀ p, p = (c, r) ∨ p ∈ neighbors b' c r →
            ∃ cell, cell_at b' p = Some cell
                    ∧ is_revealed (state cell) = true
                    ∧ is_mine (state cell) = false.
Proof.
  set (b0 := Board_init ncols nrows mines). intros Hin.
  pose proof (Board_init_well_formed ncols nrows mines) as Hwf0. fold b0 in Hwf0.
  destruct (reveal_cases shuffle b0 c r Hwf0) as (b' & Hrun & Hcase);
    [intros _; by apply place_mines_runs|].
  exists b'. split; [done|].
  (* the safe zone of the board the placement returns *)
  assert (∀ b1 p, placed shuffle b0 c r b1 →
          p = (c, r) ∨ p ∈ neighbors b0 c r →
          ∃ c1, cell_at b1 p = Some c1 ∧ openb b1 p = true) as Hzone.
  { intros b1 p Hpl Hp.
    assert (inb b0 p) as Hinb
      by (destruct Hp as [->|Hp]; [done|by eapply neighbors_inb]).
    destruct (cell_at_is_Some b1 (placed_well_formed _ _ _ _ _ Hwf0 Hpl) p)
      as [c1 Hc1].
    { eapply inb_same_dims; [apply Hpl|apply Hpl|done]. }
    exists c1. split; [done|]. rewrite (openb_cell _ _ _ Hc1).
    unfold cell_at in Hc1. rewrite (loc_same_cols b1 b0) in Hc1 by apply Hpl.
    destruct (placed_lookup _ _ _ _ _ _ _ Hpl Hc1) as (c0 & Hc0 & Hkeep & Hm).
    apply list_elem_of_lookup_2, Board_init_fresh in Hc0.
    unfold cell_keep in Hkeep. injection Hkeep as _ _ -> ->.
    rewrite Hm, Hc0, bool_decide_eq_false_2; [done|].
    apply zone_not_marked; [done..|]. unfold forbidden_zone. set_solver. }
  destruct Hcase as [Hout ->|b1 cell _ Hready Hcell Hrf ->
          |b1 cell _ Hready Hcell Hrf Hmine ->
          |b1 cell b2 _ Hready Hcell Hrf Hmine Hpost ->];
    [congruence|..]; unfold ready in Hready; simpl in Hready;
    pose proof (Hzone b1 (c, r) Hready (or_introl eq_refl))
      as (c1 & Hc1 & Hopen1);
    assert (c1 = cell) as -> by congruence;
    rewrite (openb_cell _ _ _ Hcell) in Hopen1.
  - by rewrite Hrf in Hopen1.
  - by rewrite Hmine, andb_false_r in Hopen1.
  - assert (cols b1 = cols b0 ∧ rows b1 = rows b0) as [Hcols1 Hrows1]
      by (split; apply Hready).
    assert (zerob b1 (c, r) = true) as Hzero.
    { rewrite (zerob_cell _ _ _ Hcell), (openb_cell _ _ _ Hcell), Hopen1.
      destruct (pl_anchor _ _ _ _ _ Hready Hin) as (x' & Hx' & Hadj).
      - intros x Hx. by rewrite (Board_init_fresh _ _ _ _ Hx).
      - assert (x' = cell) as -> by congruence. by apply bool_decide_eq_true. }
    destruct (flood_path_frame _ _ _ Hpost)
      as (Hcols & Hrows & _ & _ & _ & Hlen & Hframe).
    intros p Hp.
    assert (p = (c, r) ∨ p ∈ neighbors b0 c r) as Hp0.
    { destruct Hp as [->|Hp]; [by left|right].
      by rewrite <-(neighbors_same_dims (_check_win b2) b0) by congruence. }
    destruct (Hzone b1 p Hready Hp0) as (cp & Hcp & Hopenp).
    assert (flooded b1 (c, r) p) as Hflood.
    { split; [done|]. destruct Hp0 as [->|Hnb]; [by left|right].
      exists (c, r). split; [by apply region_start|]. simpl.
      by rewrite (neighbors_same_dims b1 b0). }
    apply (fp_newly _ _ _ Hpost) in Hflood
      as (Hinb & x0 & x1 & _ & Hx1 & _ & Hshown).
    destruct (frame_same_mine b1 (_check_win b2) p cp) as (c' & Hc' & Hm');
      [done..|].
    exists c'. split; [done|].
    destruct (opens_safe_keeps_shown _ _ (check_win_opens_safe b2))
      as [_ Hkeep].
    unfold cell_at in Hx1, Hc'.
    rewrite (loc_same_cols (_check_win b2) b2) in Hc'
      by apply check_win_scalars.
    split; [by apply (Hkeep _ _ _ Hx1 Hc')|].
    rewrite Hm'. rewrite (openb_cell _ _ _ Hcp) in Hopenp.
    by destruct (is_mine (state cp)); [rewrite andb_false_r in Hopenp|].
Qed.

(** ** The counters of a validly constructed board *)

Lemma countb_le {A} (f g : A → bool) (l : list A) :
  (∀ x, f x = true → g x = true) → (countb f l ≤ countb g l)%nat.
Proof.
  intros Hfg. induction l as [|x l IH]; [done|]. rewrite !countb_cons.
  destruct (f x) eqn:Hf; [rewrite (Hfg x Hf)|destruct (g x)]; simpl; lia.
Qed.

Lemma counters_bound b :
  well_formed b → 0 < cols b → 0 < rows b → counters_agree b →
  0 ≤ num_mines b →
  0 ≤ revealed_count b ≤ cols b * rows b - num_mines b.
Proof.
  intros Hwf Hcols Hrows [Hrc Hnm] Hpos. specialize (Hnm Hpos).
  pose proof (countb_complement (λ c, is_mine (state c)) (cells b)) as Hsplit.
  fold (mine_count b) in Hsplit. rewrite Hwf in Hsplit.
  pose proof (countb_le safe_revealed (λ c, negb (is_mine (state c)))
                (cells b)) as Hle.
  assert (countb safe_revealed (cells b)
          ≤ countb (λ c, negb (is_mine (state c))) (cells b))%nat as Hle'.
  { apply Hle. unfold safe_revealed. by intros x [_ ?]%andb_true_iff. }
  nia.
Qed.

(** X16.  On a board constructed with [0 <= mines <= cols * rows - 9],
    every sequence of calls returns a board on which [revealed_count] is
    the number of revealed cells without a mine, never above
    [cols * rows - mines]; [win] is set only when the counter has
    reached that number, and as long as [game_over] is false it is set
    as soon as it has. *)
Theorem run_counters ncols nrows mines ks :
  0 ≤ mines ≤ ncols * nrows - 9 →
  ∃ b, run shuffle (Board_init ncols nrows mines) ks = Ok b
       ∧ revealed_count b = Z.of_nat (countb safe_revealed (cells b))
       ∧ 0 ≤ revealed_count b ≤ ncols * nrows - mines
       ∧ (win b = true → revealed_count b = ncols * nrows - mines)
       ∧ (revealed_count b = ncols * nrows - mines → game_over b = false →
          win b = true).
Proof.
  intros Hmines. set (b0 := Board_init ncols nrows mines).
  destruct (run_invariant shuffle
    (λ b, well_formed b ∧ cols b = ncols ∧ rows b = nrows
          ∧ num_mines b = mines
          ∧ (if _mines_placed b
             then counters_agree b ∧ 0 < ncols ∧ 0 < nrows else b = b0)
          ∧ (win b = true → revealed_count b = ncols * nrows - mines)
          ∧ (revealed_count b = ncols * nrows - mines →
             game_over b = false → win b = true)) b0 ks)
    as (b & Hrun & Hwf & Hc & Hr & Hn & Hagree & Hw1 & Hw2).
  - intros b [c r|c r] (Hwf & Hc & Hr & Hn & Hagree & Hw1 & Hw2); simpl;
      [|by exists b].
    destruct (reveal_cases shuffle b c r Hwf) as (b' & Hrun & Hcase);
      [intros _; by apply place_mines_runs|].
    exists b'. split; [done|].
    pose proof (reveal_case_well_formed _ _ _ _ _ Hwf Hcase) as Hwf'.
    destruct (reveal_case_frame _ _ _ _ _ Hcase)
      as [[Hout ->]|(b1 & Hin & Hready & Hc' & Hr' & Hn' & Hpl & _)];
      [done|].
    destruct (ready_dims _ _ _ _ _ Hready) as [Hc1 Hr1].
    assert (num_mines b1 = num_mines b) as Hn1.
    { unfold ready in Hready. destruct (_mines_placed b); [by subst|].
      apply Hready. }
    assert (0 < ncols ∧ 0 < nrows) as [Hcpos Hrpos].
    { apply inb_iff in Hin. simpl in Hin. lia. }
    assert (counters_agree b') as Hagree'.
    { apply (reveal_case_counters shuffle b c r b'); [done..| |done].
      intros b2 _ Hready2. unfold ready in Hready2.
      destruct (_mines_placed b); [subst; apply Hagree|]. subst b.
      apply (placed_counters shuffle shuffle_perm ncols nrows mines c r);
        [|done].
      pose proof (pool_length shuffle shuffle_perm b0 c r) as Hroom.
      simpl in *. specialize (Hroom Hcpos). unfold b0 in Hroom.
      lia. }
    assert (revealed_count b' ≤ ncols * nrows - mines) as Hbound.
    { pose proof (counters_bound b' Hwf'). rewrite Hc', Hr', Hn', Hc1, Hr1,
        Hn1, Hc, Hr, Hn in H.
      specialize (H Hcpos Hrpos Hagree' (proj1 Hmines)). lia. }
    split_and!; [done|congruence..| | |].
    { rewrite Hpl, (ready_placed _ _ _ _ Hready). done. }
    all: apply reveal_Ok_trace in Hrun
      as [Hout ->|b2 cell _ Hprep _ _ ->|b2 cell _ Hprep _ _ _ ->
         |b2 cell b3 _ Hprep _ _ _ Hflood ->];
      [done|..];
      apply prepared_Ok in Hprep
        as (Hpc & Hpr & Hpn & Hprc & Hpover & Hpwin & _).
    + rewrite Hprc, Hpwin. done.
    + simpl. rewrite Hprc, Hpwin. done.
    + destruct (flood_fill_dims _ _ _ _ _ Hflood) as (Hfc & Hfr & Hfn & _).
      destruct (flood_fill_flags _ _ _ _ _ Hflood) as [Hfwin Hfover].
      apply flood_fill_opens_safe in Hflood as [_ Hfrc].
      destruct (check_win_scalars b3) as (_ & _ & _ & _ & Hrc3 & _).
      rewrite check_win_win, Hrc3 in *.
      destruct (win_condition b3) eqn:Hcond.
      * intros _. apply andb_true_iff in Hcond as [Hcond _].
        apply bool_decide_eq_true in Hcond. rewrite Hcond. congruence.
      * rewrite orb_false_r, Hfwin, Hpwin. intros Hwon.
        specialize (Hw1 Hwon). lia.
    + rewrite Hprc, Hpwin, Hpover. done.
    + simpl. done.
    + destruct (flood_fill_dims _ _ _ _ _ Hflood) as (Hfc & Hfr & Hfn & _).
      destruct (flood_fill_flags _ _ _ _ _ Hflood) as [Hfwin Hfover].
      destruct (check_win_scalars b3) as (_ & _ & _ & _ & Hrc3 & Hover3 & _).
      rewrite check_win_win, Hrc3, Hover3. intros Hfull Hlive.
      apply orb_true_iff. right. unfold win_condition.
      rewrite Hlive. rewrite bool_decide_eq_true_2; [done|]. congruence.
  - split_and!; [apply Board_init_well_formed|done..|simpl; lia].
  - exists b. split; [done|].
    destruct (_mines_placed b) eqn:Hplaced.
    + destruct Hagree as (Hagree & Hcpos & Hrpos).
      pose proof (counters_bound b Hwf) as Hbound.
      rewrite Hc, Hr, Hn in Hbound.
      specialize (Hbound Hcpos Hrpos Hagree (proj1 Hmines)).
      split_and!; [apply Hagree|lia|lia|done..].
    + subst b. simpl. split_and!; [|lia|lia|done..].
      rewrite countb_all_false; [done|].
      intros x Hx. unfold safe_revealed.
      by rewrite (Board_init_fresh ncols nrows mines _ Hx).
Qed.

(** ** A board without mines *)

Lemma countb_all_true {A} (f : A → bool) l :
  (∀ x, x ∈ l → f x = true) → countb f l = length l.
Proof.
  induction l as [|y l IH]; intros H; [done|].
  rewrite countb_cons, H, IH; [done| |left]. intros x Hx. apply H. by right.
Qed.

(** Where every cell is a zero-count cell, the region of a target is the
    whole board: a column walk, then a row walk, leads from the target
    to any coordinate. *)
Lemma region_everything b (t p : pos) :
  (∀ q, inb b q → zerob b q = true) → inb b t → inb b p → region b t p.
Proof.
  intros Hzero Ht Hp. destruct t as [c r], p as [c' r'].
  apply inb_iff in Ht as Ht'. apply inb_iff in Hp as Hp'. simpl in *.
  assert (∀ z q, region b (c, r) z → inb b q → q ≠ z →
            -1 ≤ q.1 - z.1 ≤ 1 → -1 ≤ q.2 - z.2 ≤ 1 →
            region b (c, r) q) as Hstep.
  { intros z q Hz Hq Hne Hc Hr. apply (region_step b (c, r) z q Hz).
    - apply elem_of_neighbors. by destruct z.
    - by apply Hzero. }
  assert (∀ (n : nat) c1, Z.abs (c1 - c) = Z.of_nat n → 0 ≤ c1 < cols b →
            region b (c, r) (c1, r)) as Hrow.
  { induction n as [|n IH]; intros c1 Hn Hc1.
    - assert (c1 = c) as -> by lia. apply region_start. by apply Hzero.
    - set (c2 := if bool_decide (c < c1) then c1 - 1 else c1 + 1).
      assert (Z.abs (c2 - c) = Z.of_nat n ∧ 0 ≤ c2 < cols b
              ∧ c2 ≠ c1 ∧ -1 ≤ c1 - c2 ≤ 1) as (Hn2 & Hc2 & Hne & Hnear)
        by (unfold c2; case_bool_decide; lia).
      apply (Hstep (c2, r)); simpl; [by apply IH| |congruence|lia..].
      apply inb_iff. simpl. lia. }
  assert (∀ (n : nat) r1, Z.abs (r1 - r) = Z.of_nat n → 0 ≤ r1 < rows b →
            region b (c, r) (c', r1)) as Hcol.
  { induction n as [|n IH]; intros r1 Hn Hr1.
    - assert (r1 = r) as -> by lia.
      apply (Hrow (Z.to_nat (Z.abs (c' - c)))); lia.
    - set (r2 := if bool_decide (r < r1) then r1 - 1 else r1 + 1).
      assert (Z.abs (r2 - r) = Z.of_nat n ∧ 0 ≤ r2 < rows b
              ∧ r2 ≠ r1 ∧ -1 ≤ r1 - r2 ≤ 1) as (Hn2 & Hr2 & Hne & Hnear)
        by (unfold r2; case_bool_decide; lia).
      apply (Hstep (c', r2)); simpl; [by apply IH| |congruence|lia..].
      apply inb_iff. simpl. lia. }
  apply (Hcol (Z.to_nat (Z.abs (r' - r)))); lia.
Qed.

(** X17.  On a board constructed without mines, the first [reveal] of a
    coordinate of the board opens every cell and wins the game:
    [revealed_count] is [cols * rows], [win] is set and [game_over]
    is not. *)
Theorem no_mines_first_reveal_wins ncols nrows c r :
  is_inbounds (Board_init ncols nrows 0) c r = true →
  ∃ b', reveal shuffle (Board_init ncols nrows 0) c r = Ok b'
        ∧ win b' = true ∧ game_over b' = false
        ∧ revealed_count b' = ncols * nrows
        ∧ length (cells b') = length (cells (Board_init ncols nrows 0))
        ∧ ∀ cell, cell ∈ cells b' →
            is_revealed (state cell) = true ∧ is_mine (state cell) = false.
Proof.
  set (b0 := Board_init ncols nrows 0). intros Hin.
  pose proof (Board_init_well_formed ncols nrows 0) as Hwf0. fold b0 in Hwf0.
  destruct (reveal_cases shuffle b0 c r Hwf0) as (b' & Hrun & _);
    [intros _; by apply place_mines_runs|].
  exists b'. split; [done|].
  assert (0 < ncols ∧ 0 < nrows) as [Hcpos Hrpos].
  { apply (inb_iff b0 (c, r)) in Hin. simpl in Hin. lia. }
  (* the board the placement returns *)
  assert (∀ b1, prepared shuffle b0 c r b1 →
            well_formed b1 ∧ placed shuffle b0 c r b1
            ∧ (∀ k x, cells b1 !! k = Some x →
                 is_mine (state x) = false ∧ is_revealed (state x) = false
                 ∧ is_flagged (state x) = false)
            ∧ (∀ q, inb b1 q → zerob b1 q = true)) as Hprepared.
  { intros b1 Hprep. unfold prepared in Hprep. simpl in Hprep.
    destruct (place_mines_runs shuffle shuffle_perm b0 c r Hwf0)
      as (b1' & Hpm & Hpl).
    assert (b1' = b1) as -> by congruence.
    pose proof (placed_well_formed _ _ _ _ _ Hwf0 Hpl) as Hwf1.
    assert (mine_positions shuffle b0 c r = []) as Hnone.
    { unfold mine_positions, py_slice_to. simpl.
      done. }
    assert (∀ k x, cells b1 !! k = Some x →
              is_mine (state x) = false ∧ is_revealed (state x) = false
              ∧ is_flagged (state x) = false) as Hfresh.
    { intros k x Hx.
      destruct (placed_lookup _ _ _ _ _ _ _ Hpl Hx) as (c0 & Hc0 & Hkeep & Hm).
      apply list_elem_of_lookup_2 in Hc0.
      apply (Board_init_fresh ncols nrows 0) in Hc0.
      unfold cell_keep in Hkeep. injection Hkeep as _ _ -> ->.
      by rewrite Hm, Hnone, Hc0. }
    split_and!; [done..|].
    intros q Hq. destruct (cell_at_is_Some b1 Hwf1 q Hq) as [x Hx].
    rewrite (zerob_cell _ _ _ Hx), (openb_cell _ _ _ Hx).
    destruct (Hfresh _ _ Hx) as (Hm & Hr & Hf). rewrite Hm, Hr, Hf. simpl.
    apply bool_decide_eq_true.
    rewrite (place_mines_adjacency_right b0 c r b1 Hwf0 Hpm q x Hq Hx Hm).
    unfold mines_around. rewrite countb_all_false; [done|].
    intros q' _. unfold mine_at.
    destruct (cell_at b1 q') as [y|] eqn:Hy; [|done].
    by destruct (Hfresh _ _ Hy). }
  apply reveal_Ok_trace in Hrun
    as [Hout ->|b1 cell _ Hprep Hcell Hrf ->|b1 cell _ Hprep Hcell Hrf Hmine ->
       |b1 cell b2 _ Hprep Hcell Hrf _ Hflood ->];
    [congruence|..];
    destruct (Hprepared b1 Hprep) as (Hwf1 & Hpl & Hfresh & Hzero);
    assert (inb b1 (c, r)) as Hin1
      by (eapply inb_same_dims; [apply Hpl|apply Hpl|done]);
    destruct (cell_at_is_Some b1 Hwf1 (c, r) Hin1) as [x Hx];
    pose proof (py_get_cell b1 Hwf1 (c, r) x Hin1 Hx) as Hget;
    simpl in Hget; assert (x = cell) as -> by congruence;
    destruct (Hfresh _ _ Hx) as (Hm & Hr & Hf).
  - by rewrite Hr, Hf in Hrf.
  - congruence.
  - destruct (flood_fill_post b1 (c, r) Hwf1 Hin1) as (b2' & Hflood' & Hpost).
    assert (b2' = b2) as -> by congruence.
    apply flood_fill_opens_safe in Hflood as [[_ Hopens] _].
    assert (∀ k x2, cells b2 !! k = Some x2 →
              is_revealed (state x2) = true ∧ is_mine (state x2) = false)
      as Hall.
    { intros k x2 Hx2.
      destruct (loc_surj b1 k Hwf1) as (p & Hp & Hloc).
      { rewrite <-(fp_length _ _ _ Hpost). by eapply lookup_lt_Some. }
      assert (flooded b1 (c, r) p) as Hfl.
      { apply flooded_zero; [by apply Hzero|].
        left. by apply region_everything. }
      apply (fp_newly _ _ _ Hpost) in Hfl
        as (_ & x0 & x1 & Hx0 & Hx1 & _ & Hshown).
      unfold cell_at in Hx0, Hx1.
      rewrite (loc_same_cols b2 b1) in Hx1 by apply Hpost.
      rewrite Hloc in Hx0, Hx1. assert (x1 = x2) as -> by congruence.
      split; [done|].
      destruct (Hopens k x0 x2 Hx0 Hx2) as [Hframe _].
      unfold cell_frame in Hframe. injection Hframe as _ _ -> _ _.
      by destruct (Hfresh _ _ Hx0). }
    assert (newly_revealed_count b1 b2 = length (cells b1)) as Hcount.
    { unfold newly_revealed_count. rewrite countb_all_true.
      - rewrite length_zip_with, (fp_length _ _ _ Hpost). lia.
      - intros [x1 x2] (k & Hk)%list_elem_of_lookup_1.
        apply lookup_zip_with_Some in Hk as (y1 & y2 & [= <- <-] & Hy1 & Hy2).
        simpl. destruct (Hfresh _ _ Hy1) as (_ & -> & _).
        by destruct (Hall _ _ Hy2) as [-> _]. }
    assert (revealed_count b2 = ncols * nrows) as Hrc.
    { rewrite (fp_count _ _ _ Hpost), Hcount, (pl_count _ _ _ _ _ Hpl), Hwf1,
        (pl_cols _ _ _ _ _ Hpl), (pl_rows _ _ _ _ _ Hpl). simpl. nia. }
    assert (win_condition b2 = true) as Hcond.
    { unfold win_condition.
      rewrite (fp_over _ _ _ Hpost), (pl_over _ _ _ _ _ Hpl). simpl.
      rewrite andb_true_r. apply bool_decide_eq_true.
      rewrite Hrc, (fp_cols _ _ _ Hpost), (fp_rows _ _ _ Hpost),
        (fp_mines _ _ _ Hpost), (pl_cols _ _ _ _ _ Hpl),
        (pl_rows _ _ _ _ _ Hpl), (pl_mines _ _ _ _ _ Hpl). simpl. lia. }
    destruct (check_win_scalars b2) as (_ & _ & _ & _ & -> & -> & -> & _).
    rewrite check_win_win, Hcond, orb_true_r.
    rewrite check_win_idle by (intros y (k & Hy)%list_elem_of_lookup_1 _;
                               by destruct (Hall _ _ Hy)).
    split_and!; [done| |done| |].
    + by rewrite (fp_over _ _ _ Hpost), (pl_over _ _ _ _ _ Hpl).
    + by rewrite (fp_length _ _ _ Hpost), (pl_length _ _ _ _ _ Hpl).
    + intros y (k & Hy)%list_elem_of_lookup_1. by apply (Hall k).
Qed.

(** ** A finished game *)

Lemma countb_pos {A} (f : A → bool) l x :
  x ∈ l → f x = true → (1 ≤ countb f l)%nat.
Proof.
  intros Hx Hf. induction l as [|y l IH]; [by apply elem_of_nil in Hx|].
  rewrite countb_cons. apply elem_of_cons in Hx as [<-|Hx].
  - rewrite Hf. lia.
  - specialize (IH Hx). destruct (f y); lia.
Qed.

(** X18.  [reveal] does not look at [game_over]: on a board whose game
    is over, revealing a hidden cell without flag and without mine still
    opens it and raises [revealed_count]; [game_over] stays set and
    [win] is left as it was. *)
Theorem reveal_after_game_over b c r cell :
  well_formed b → _mines_placed b = true → game_over b = true →
  is_inbounds b c r = true → cell_at b (c, r) = Some cell →
  is_revealed (state cell) = false → is_flagged (state cell) = false →
  is_mine (state cell) = false →
  ∃ b' cell', reveal shuffle b c r = Ok b'
              ∧ cell_at b' (c, r) = Some cell'
              ∧ is_revealed (state cell') = true
              ∧ revealed_count b < revealed_count b'
              ∧ game_over b' = true ∧ win b' = win b.
Proof.
  intros Hwf Hplaced Hover Hin Hcell Hr Hf Hm.
  destruct (reveal_cases shuffle b c r Hwf) as (b' & Hrun & Hcase);
    [congruence|].
  destruct Hcase as [Hout ->|b1 cell1 _ Hready Hcell1 Hrf ->
          |b1 cell1 _ Hready Hcell1 Hrf Hmine ->
          |b1 cell1 b2 _ Hready Hcell1 Hrf Hmine Hpost ->];
    [congruence|..]; unfold ready in Hready; rewrite Hplaced in Hready;
    subst b1; assert (cell1 = cell) as -> by congruence.
  - by rewrite Hr, Hf in Hrf.
  - congruence.
  - assert (flooded b (c, r) (c, r)) as Hfl.
    { split; [|by left]. by rewrite (openb_cell _ _ _ Hcell), Hr, Hf, Hm. }
    apply (fp_newly _ _ _ Hpost) in Hfl
      as (_ & x0 & x1 & Hx0 & Hx1 & Hhid & Hshown).
    assert (_check_win b2 = b2) as Hidle.
    { rewrite check_win_unfold. unfold win_condition.
      by rewrite (fp_over _ _ _ Hpost), Hover, andb_false_r. }
    rewrite Hidle in Hrun. exists b2, x1. split_and!; [done..| | |].
    + rewrite (fp_count _ _ _ Hpost).
      assert (1 ≤ newly_revealed_count b b2)%nat; [|lia].
      unfold cell_at in Hx0, Hx1.
      rewrite (loc_same_cols b2 b) in Hx1 by apply Hpost.
      apply (countb_pos _ _ (x0, x1)); [|simpl; by rewrite Hhid, Hshown].
      apply (list_elem_of_lookup_2 _ (loc b (c, r))).
      apply lookup_zip_with_Some. by exists x0, x1.
    + by rewrite (fp_over _ _ _ Hpost).
    + apply Hpost.
Qed.

End Counts.

(** ** The further properties at concrete boards *)

(** X1 at two calls on the row board. *)
Lemma run_never_hides_witness :
  well_formed row_board
  ∧ ∃ b', run id row_board [Reveal 5 0; Reveal 2 0] = Ok b'
          ∧ revealed_count row_board ≤ revealed_count b'
          ∧ length (cells b') = length (cells row_board).
Proof.
  split; [reflexivity|].
  destruct (run_never_hides id id_shuffles row_board [Reveal 5 0; Reveal 2 0])
    as (b' & H1 & H2 & H3 & _); [reflexivity|].
  exists b'. auto.
Defined.

(** X2 at the row board once its mine has been hit. *)
Lemma run_flags_latched_witness :
  well_formed (set_game_over true row_board)
  ∧ ∃ b', run id (set_game_over true row_board) [Reveal 5 0] = Ok b'
          ∧ (win (set_game_over true row_board) = true → win b' = true)
          ∧ (game_over (set_game_over true row_board) = true →
             game_over b' = true ∧ win b' = win (set_game_over true row_board)).
Proof.
  split; [reflexivity|].
  apply (run_flags_latched id id_shuffles (set_game_over true row_board)
           [Reveal 5 0]).
  reflexivity.
Defined.

(** X3 at [reveal(5, 0)] on the row board. *)
Lemma reveal_shows_no_mine_witness :
  well_formed row_board
  ∧ ∃ b', reveal id row_board 5 0 = Ok b'
          ∧ (game_over b' = false →
             ∀ k x x', cells row_board !! k = Some x → cells b' !! k = Some x' →
               is_mine (state x') = true →
               is_revealed (state x') = is_revealed (state x)).
Proof.
  split; [reflexivity|].
  apply (reveal_shows_no_mine id id_shuffles row_board 5 0). reflexivity.
Defined.

(** X4 at the row board. *)
Lemma index_bijection_witness :
  well_formed row_board
  ∧ ∀ c r, is_inbounds row_board c r = true →
           0 ≤ index row_board c r < Z.of_nat (length (cells row_board)).
Proof.
  split; [reflexivity|].
  destruct (index_bijection row_board) as (H & _); [reflexivity|]. exact H.
Defined.

(** X5 at the cell (2, 1) of [Board(3, 3, 0)]. *)
Lemma Board_init_layout_witness :
  is_inbounds (Board_init 3 3 0) 2 1 = true
  ∧ py_get (cells (Board_init 3 3 0)) (index (Board_init 3 3 0) 2 1)
    = Ok (Cell_init 2 1).
Proof.
  split; [reflexivity|]. apply (Board_init_layout 3 3 0 2 1). reflexivity.
Defined.

(** X7 at the coordinates (1, 1) and (2, 2) of [Board(3, 3, 0)]. *)
Lemma neighbors_sym_witness :
  is_inbounds (Board_init 3 3 0) 1 1 = true
  ∧ (2, 2) ∈ neighbors (Board_init 3 3 0) 1 1
  ∧ (1, 1) ∈ neighbors (Board_init 3 3 0) 2 2.
Proof.
  assert ((2, 2) ∈ neighbors (Board_init 3 3 0) 1 1) as H by by_evaluation.
  split; [reflexivity|]. split; [exact H|].
  apply (neighbors_sym (Board_init 3 3 0) 1 1 2 2); [reflexivity|exact H].
Defined.

(** X8 at [place_mines(0, 0)] on a new [Board(10, 1, 1)]. *)
Lemma place_mines_adjacency_witness :
  well_formed (Board_init 10 1 1)
  ∧ ∃ b', place_mines id (Board_init 10 1 1) 0 0 = Ok b'
          ∧ ∀ c r cell, is_inbounds b' c r = true →
              cell_at b' (c, r) = Some cell → is_mine (state cell) = false →
              adjacent (state cell) = Z.of_nat (mines_around b' (c, r))
              ∧ 0 ≤ adjacent (state cell) ≤ 8.
Proof.
  split; [reflexivity|].
  apply (place_mines_adjacency id id_shuffles (Board_init 10 1 1) 0 0).
  reflexivity.
Defined.

(** X9 at a first reveal on [Board(10, 1, 1)]. *)
Lemma run_adjacency_witness :
  ∃ b, run id (Board_init 10 1 1) [Reveal 0 0] = Ok b
       ∧ (_mines_placed b = true →
          ∀ c r cell, is_inbounds b c r = true →
            cell_at b (c, r) = Some cell → is_mine (state cell) = false →
            adjacent (state cell) = Z.of_nat (mines_around b (c, r))).
Proof. apply (run_adjacency id id_shuffles 10 1 1 [Reveal 0 0]). Defined.

(** X10 at a first reveal on [Board(10, 1, 1)]. *)
Lemma run_coordinates_witness :
  ∃ b, run id (Board_init 10 1 1) [Reveal 0 0] = Ok b
       ∧ ∀ c r, is_inbounds b c r = true →
           ∃ cell, py_get (cells b) (index b c r) = Ok cell
                   ∧ col cell = c ∧ row cell = r.
Proof. apply (run_coordinates id id_shuffles 10 1 1 [Reveal 0 0]). Defined.

(** X11 at a coordinate outside the row board and at its revealed
    cell (1, 0). *)
Lemma reveal_noop_witness :
  is_inbounds row_board 10 0 = false ∧ reveal id row_board 10 0 = Ok row_board
  ∧ well_formed row_board ∧ _mines_placed row_board = true
  ∧ is_inbounds row_board 1 0 = true
  ∧ cell_at row_board (1, 0) = Some (mkCell 1 0 (shown 1))
  ∧ reveal id row_board 1 0 = Ok row_board.
Proof.
  split; [reflexivity|].
  split; [apply (proj1 (reveal_noop id row_board 10 0)); reflexivity|].
  split; [reflexivity|]. split; [reflexivity|]. split; [reflexivity|].
  split; [reflexivity|].
  apply (proj2 (reveal_noop id row_board 1 0) eq_refl eq_refl
           (mkCell 1 0 (shown 1)) eq_refl eq_refl).
  left. reflexivity.
Defined.

(** X12 at [reveal(5, 0)] on the row board. *)
Lemma reveal_idempotent_witness :
  well_formed row_board
  ∧ ∃ b', reveal id row_board 5 0 = Ok b' ∧ reveal id b' 5 0 = Ok b'.
Proof.
  split; [reflexivity|].
  apply (reveal_idempotent id id_shuffles row_board 5 0). reflexivity.
Defined.

(** X13 at [place_mines(0, 0)] on a new [Board(10, 1, 1)]. *)
Lemma place_mines_frame_witness :
  well_formed (Board_init 10 1 1)
  ∧ ∃ b', place_mines id (Board_init 10 1 1) 0 0 = Ok b'
          ∧ _mines_placed b' = true
          ∧ cols b' = 10 ∧ rows b' = 1 ∧ num_mines b' = 1.
Proof.
  split; [reflexivity|].
  destruct (place_mines_frame id id_shuffles (Board_init 10 1 1) 0 0)
    as (b' & H1 & H2 & H3 & H4 & H5 & _); [reflexivity|].
  exists b'. auto.
Defined.

(** X14 at a new [Board(10, 1, 1)], whose pool has eight cells. *)
Lemma place_mines_count_witness :
  ∃ b1, place_mines id (Board_init 10 1 1) 0 0 = Ok b1
        ∧ Z.of_nat (mine_count b1) = 1.
Proof.
  destruct (place_mines_count id id_shuffles 10 1 1 0 0) as (b1 & H1 & H2).
  exists b1. split; [exact H1|]. rewrite H2. reflexivity.
Defined.

(** X15 at [reveal(1, 1)] on a new [Board(3, 3, 5)]. *)
Lemma first_reveal_opens_zone_witness :
  is_inbounds (Board_init 3 3 5) 1 1 = true
  ∧ ∃ b', reveal id (Board_init 3 3 5) 1 1 = Ok b'
          ∧ ∀ p, p = (1, 1) ∨ p ∈ neighbors b' 1 1 →
              ∃ cell, cell_at b' p = Some cell
                      ∧ is_revealed (state cell) = true
                      ∧ is_mine (state cell) = false.
Proof.
  split; [reflexivity|].
  apply (first_reveal_opens_zone id id_shuffles 3 3 5 1 1). reflexivity.
Defined.

(** X16 at [Board(10, 1, 1)]. *)
Lemma run_counters_witness :
  0 ≤ 1 ≤ 10 * 1 - 9
  ∧ ∀ ks, ∃ b, run id (Board_init 10 1 1) ks = Ok b
               ∧ revealed_count b = Z.of_nat (countb safe_revealed (cells b))
               ∧ 0 ≤ revealed_count b ≤ 10 * 1 - 1
               ∧ (win b = true → revealed_count b = 10 * 1 - 1)
               ∧ (revealed_count b = 10 * 1 - 1 → game_over b = false →
                  win b = true).
Proof.
  split; [lia|]. intros ks.
  apply (run_counters id id_shuffles 10 1 1 ks). lia.
Defined.

(** X17 at [reveal(0, 0)] on a new [Board(2, 2, 0)]. *)
Lemma no_mines_first_reveal_wins_witness :
  is_inbounds (Board_init 2 2 0) 0 0 = true
  ∧ ∃ b', reveal id (Board_init 2 2 0) 0 0 = Ok b'
          ∧ win b' = true ∧ game_over b' = false
          ∧ revealed_count b' = 2 * 2.
Proof.
  split; [reflexivity|].
  destruct (no_mines_first_reveal_wins id id_shuffles 2 2 0 0)
    as (b' & H1 & H2 & H3 & H4 & _); [reflexivity|].
  exists b'. auto.
Defined.

(** X18 at [reveal(5, 0)] on the row board once its game is over. *)
Lemma reveal_after_game_over_witness :
  well_formed (set_game_over true row_board)
  ∧ _mines_placed (set_game_over true row_board) = true
  ∧ game_over (set_game_over true row_board) = true
  ∧ is_inbounds (set_game_over true row_board) 5 0 = true
  ∧ cell_at (set_game_over true row_board) (5, 0) = Some (mkCell 5 0 (hidden 0))
  ∧ ∃ b' cell', reveal id (set_game_over true row_board) 5 0 = Ok b'
                ∧ cell_at b' (5, 0) = Some cell'
                ∧ is_revealed (state cell') = true
                ∧ revealed_count (set_game_over true row_board)
                  < revealed_count b'
                ∧ game_over b' = true
                ∧ win b' = win (set_game_over true row_board).
Proof.
  split; [reflexivity|]. split; [reflexivity|]. split; [reflexivity|].
  split; [reflexivity|]. split; [reflexivity|].
  apply (reveal_after_game_over id (set_game_over true row_board) 5 0
           (mkCell 5 0 (hidden 0))); reflexivity.
Defined.
